(** * write_agent: the streaming client of [frontend/src/services/api.ts]

    A shallow embedding of the server-sent-event consumers of the frontend
    (the [EventSource] based [rewriteWithStream], [reviewWithStream] and
    [coverWithStream], their promise wrappers [startRewrite], [startReview]
    and [startCover], the chunked-response readers [extractStyleWithStream]
    and [runFullWorkflow]), of the rewrite call site of
    [frontend/src/pages/HomePage.tsx] and of the article inputs of the
    style dialog, followed by the properties of the streaming protocol
    that hold of them.

    Strings are byte strings: the markers the code splits on (the blank
    line, the newline and the [data: ] prefix) are ASCII, so cutting the
    UTF-8 text at them is the same as cutting the UTF-16 text the browser
    sees.  JSON numbers are restricted to integers (the ids and counts of
    this protocol, in the range a double holds exactly), extended with
    [NaN]. *)

From Stdlib Require Import ZArith String Ascii List Bool Lia.
From stdpp Require Import base list strings pretty.

(** ** JavaScript values and the coercions the code relies on *)

Inductive JsNum : Type :=
| NaN
| Int (z : Z).

#[local] Unset Elimination Schemes.
Inductive JsValue : Type :=
| JsUndefined
| JsNull
| JsBool (b : bool)
| JsNumber (n : JsNum)
| JsString (s : string)
| JsArray (items : list JsValue)
| JsObject (fields : list (string * JsValue)).
#[local] Set Elimination Schemes.

(** [new Error(message)]; the errors of the HTTP client are values of the
    same shape. *)
Inductive JsError : Type :=
| Error (message : string).

(** What the program takes from its runtime: [JSON.parse] ([None] when it
    throws a SyntaxError) and the conversion of a string to a number
    behind [Number(...)]. *)
Class JsRuntime : Type := {
  JSON_parse : string -> option JsValue;
  StringToNumber : string -> JsNum
}.

(** Truthiness ([if (v)], [!v], [v || w], [v ? a : b]). *)
Definition ToBoolean (v : JsValue) : bool :=
  match v with
  | JsUndefined | JsNull => false
  | JsBool b => b
  | JsNumber NaN => false
  | JsNumber (Int z) => negb (z =? 0)%Z
  | JsString s => negb (String.eqb s "")
  | JsArray _ | JsObject _ => true
  end.

(** [a || b] *)
Definition js_or (a b : JsValue) : JsValue :=
  if ToBoolean a then a else b.

Definition NumberToString (n : JsNum) : string :=
  match n with
  | NaN => "NaN"
  | Int z => pretty z
  end.

(** [String(v)]: an array prints its elements separated by commas, with
    [null] and [undefined] elements printed as nothing; a plain object
    prints as [[object Object]]. *)
Fixpoint ToString (v : JsValue) : string :=
  match v with
  | JsUndefined => "undefined"
  | JsNull => "null"
  | JsBool true => "true"
  | JsBool false => "false"
  | JsNumber n => NumberToString n
  | JsString s => s
  | JsArray items =>
      let element (x : JsValue) : string :=
        match x with
        | JsUndefined | JsNull => ""
        | _ => ToString x
        end in
      (fix join (l : list JsValue) : string :=
         match l with
         | [] => ""
         | [x] => element x
         | x :: rest => element x +:+ "," +:+ join rest
         end) items
  | JsObject _ => "[object Object]"
  end.

(** [Number(v)] *)
Definition ToNumber {rt : JsRuntime} (v : JsValue) : JsNum :=
  match v with
  | JsUndefined => NaN
  | JsNull => Int 0
  | JsBool true => Int 1
  | JsBool false => Int 0
  | JsNumber n => n
  | JsString s => StringToNumber s
  | JsArray _ | JsObject _ => StringToNumber (ToString v)
  end.

(** [n > 0] and [!n] on numbers. *)
Definition gt_zero (n : JsNum) : bool :=
  match n with
  | NaN => false
  | Int z => (0 <? z)%Z
  end.

Definition num_truthy (n : JsNum) : bool := ToBoolean (JsNumber n).

(** [v.key] for the keys this code reads ([type], [delta], [task_id],
    [review_id], [message], [error], [id], [name], [style_description],
    [tags], [created_at]): none of them is a property of a string, a
    number, a boolean or an array, so only an object can have them. *)
Fixpoint assoc (key : string) (fields : list (string * JsValue)) : JsValue :=
  match fields with
  | [] => JsUndefined
  | (k, v) :: rest => if String.eqb k key then v else assoc key rest
  end.

Definition get (v : JsValue) (key : string) : JsValue :=
  match v with
  | JsObject fields => assoc key fields
  | _ => JsUndefined
  end.

(** [v === "literal"] *)
Definition is_string (v : JsValue) (literal : string) : bool :=
  match v with
  | JsString s => String.eqb s literal
  | _ => false
  end.

(** A promise settles once: [resolve] and [reject] act on a pending
    promise only. *)
Inductive Promise (A : Type) : Type :=
| Pending
| Fulfilled (value : A)
| Rejected (reason : JsError).
Arguments Pending {A}.
Arguments Fulfilled {A} value.
Arguments Rejected {A} reason.

Definition resolve {A} (value : A) (p : Promise A) : Promise A :=
  match p with
  | Pending => Fulfilled value
  | _ => p
  end.

Definition reject {A} (reason : JsError) (p : Promise A) : Promise A :=
  match p with
  | Pending => Rejected reason
  | _ => p
  end.

Definition is_settled {A} (p : Promise A) : bool :=
  match p with
  | Pending => false
  | _ => true
  end.

(** ** Text helpers: [split], [startsWith], [slice] *)

Definition LF : ascii := "010"%char.

Definition is_LF (c : ascii) : bool := Ascii.eqb c LF.

(** Puts a character in front of the first segment. *)
Definition cons_head (c : ascii) (segments : list string) : list string :=
  match segments with
  | [] => [String c EmptyString]
  | s :: rest => String c s :: rest
  end.

(** [text.split("\n\n")]: cut at each blank line, left to right. *)
Fixpoint split_blank_line (text : string) : list string :=
  match text with
  | EmptyString => [EmptyString]
  | String c1 rest1 =>
      match rest1 with
      | EmptyString => [text]
      | String c2 rest2 =>
          if is_LF c1 && is_LF c2
          then EmptyString :: split_blank_line rest2
          else cons_head c1 (split_blank_line rest1)
      end
  end.

(** [text.split("\n")] *)
Fixpoint split_newline (text : string) : list string :=
  match text with
  | EmptyString => [EmptyString]
  | String c rest =>
      if is_LF c
      then EmptyString :: split_newline rest
      else cons_head c (split_newline rest)
  end.

(** [text.slice(n)] *)
Fixpoint slice (n : nat) (text : string) : string :=
  match n, text with
  | O, _ => text
  | S k, EmptyString => EmptyString
  | S k, String _ rest => slice k rest
  end.

(** [chunks.pop()]: the array without its last element, and that element. *)
Fixpoint pop {A} (l : list A) : list A * option A :=
  match l with
  | [] => ([], None)
  | [x] => ([], Some x)
  | x :: rest => let '(init, final) := pop rest in (x :: init, final)
  end.

(** ** Records of [types/index.ts] *)

Record WritingStyle : Type := {
  style_id_ : JsNum;                    (* id *)
  style_name_ : string;                 (* name *)
  style_description : option string;
  style_tags : option string;           (* tags *)
  style_created_at : string             (* created_at *)
}.

Record RewriteRecord : Type := {
  rewrite_id : Z;                       (* id *)
  source_article : string;
  final_content : string;
  rewrite_style_id : Z;                 (* style_id *)
  rewrite_style_name : option string;   (* style_name *)
  target_words : Z;
  actual_words : Z;
  enable_rag : bool;
  rag_top_k : Z;
  rag_retrieved : option string;
  rewrite_status : string;              (* status *)
  rewrite_error_message : option string;
  rewrite_created_at : string;
  rewrite_updated_at : string
}.

Record ReviewRecord : Type := {
  review_id : Z;                        (* id *)
  review_rewrite_id : Z;                (* rewrite_id *)
  result : option string;
  feedback : option string;
  ai_score : option Z;
  total_score : option Z;
  round : option Z;
  review_status : string;
  review_error_message : option string;
  review_created_at : string;
  review_updated_at : option string
}.

Inductive CoverStatus : Type :=
| cover_pending | cover_generating | cover_completed | cover_failed.

Record CoverRecord : Type := {
  cover_id : Z;                         (* id *)
  cover_rewrite_id : Z;                 (* rewrite_id *)
  prompt : option string;
  image_url : option string;
  cover_size : option string;           (* size *)
  cover_status : CoverStatus;
  cover_error_message : option string;
  cover_created_at : string;
  cover_updated_at : string
}.

(** ** [parseSseJson] *)

(** [try { return JSON.parse(raw) } catch { return null }] *)
Definition parseSseJson {rt : JsRuntime} (raw : string) : JsValue :=
  match JSON_parse raw with
  | Some v => v
  | None => JsNull
  end.

(** ** The push transport: [EventSource]

    One [EventSource] and the variables its callbacks close over.  The
    callbacks of a stream are functions on the state of whoever passed
    them; they never touch the connection, and they return: a callback
    that throws is outside this model, and no statement below says what
    the code does then. *)

Record Conn (St : Type) : Type := {
  closed : bool;                        (* readyState === CLOSED *)
  caller : St
}.
Arguments closed {St} _.
Arguments caller {St} _.

(** [eventSource.close()] *)
Definition close {St} (c : Conn St) : Conn St :=
  {| closed := true; caller := caller c |}.

Definition call {St} (f : St -> St) (c : Conn St) : Conn St :=
  {| closed := closed c; caller := f (caller c) |}.

Definition call_opt {St} (f : option (St -> St)) (c : Conn St) : Conn St :=
  match f with
  | Some g => call g c
  | None => c
  end.

(** What the browser delivers to an [EventSource]: a message with its
    [data], or an error event. *)
Inductive SourceEvent : Type :=
| Message (data : string)
| ConnectionError.

Record Handlers (St : Type) : Type := {
  onmessage : string -> Conn St -> Conn St;
  onerror : Conn St -> Conn St
}.
Arguments onmessage {St} _ _ _.
Arguments onerror {St} _ _.

(** The browser fires an event at an [EventSource] only while its
    [readyState] is not [CLOSED]. *)
Definition dispatch {St} (h : Handlers St) (ev : SourceEvent) (c : Conn St)
  : Conn St :=
  if closed c then c
  else match ev with
       | Message data => onmessage h data c
       | ConnectionError => onerror h c
       end.

(** The parameters [onChunk], [onError], [onDone] and the optional
    [onStart] of [rewriteWithStream] and [reviewWithStream]. *)
Record StreamCallbacks (St : Type) : Type := {
  onChunk : string -> St -> St;
  onError : string -> St -> St;
  onDone : JsValue -> St -> St;
  onStart : option (JsNum -> St -> St)
}.
Arguments onChunk {St} _ _ _.
Arguments onError {St} _ _ _.
Arguments onDone {St} _ _ _.
Arguments onStart {St} _.

(** The handlers [rewriteWithStream] and [reviewWithStream] install; the
    two differ in the field of the [start] frame that carries the id
    ([task_id], [review_id]).  The query string built from the request
    plays no part in them. *)
Definition stream_onmessage {rt : JsRuntime} {St} (id_field : string)
    (cb : StreamCallbacks St) (event_data : string) (c : Conn St) : Conn St :=
  let data := parseSseJson event_data in
  if negb (ToBoolean data) then c
  else if is_string (get data "type") "content" then
    call (onChunk cb (ToString (js_or (get data "delta") (JsString "")))) c
  else if is_string (get data "type") "start" then
    let taskId := ToNumber (js_or (get data id_field) (JsNumber (Int 0))) in
    if gt_zero taskId
    then call_opt (option_map (fun f => f taskId) (onStart cb)) c
    else c
  else if is_string (get data "type") "done" then
    close (call (onDone cb data) c)
  else if is_string (get data "type") "error" then
    close (call (onError cb
      (ToString (js_or (get data "message") (JsString "Unknown error")))) c)
  else c.

Definition stream_onerror {St} (cb : StreamCallbacks St) (c : Conn St)
  : Conn St :=
  close (call (onError cb "Connection error") c).

Definition rewriteWithStream {rt : JsRuntime} {St} (cb : StreamCallbacks St)
  : Handlers St :=
  {| onmessage := stream_onmessage "task_id" cb;
     onerror := stream_onerror cb |}.

Definition reviewWithStream {rt : JsRuntime} {St} (cb : StreamCallbacks St)
  : Handlers St :=
  {| onmessage := stream_onmessage "review_id" cb;
     onerror := stream_onerror cb |}.

(** The parameters [onProgress], [onError] and [onDone] of
    [coverWithStream]. *)
Record CoverCallbacks (St : Type) : Type := {
  cover_onProgress : JsValue -> St -> St;
  cover_onError : string -> St -> St;
  cover_onDone : JsValue -> St -> St
}.
Arguments cover_onProgress {St} _ _ _.
Arguments cover_onError {St} _ _ _.
Arguments cover_onDone {St} _ _ _.

Definition coverWithStream {rt : JsRuntime} {St} (cb : CoverCallbacks St)
  : Handlers St :=
  {| onmessage := fun event_data c =>
       let parsed := parseSseJson event_data in
       if negb (ToBoolean parsed) then c
       else
         let data := parsed in
         if is_string (get data "type") "error" then
           close (call (cover_onError cb
             (ToString (js_or (get data "message")
                (js_or (get data "error") (JsString "Unknown error"))))) c)
         else
           let c1 := call (cover_onProgress cb data) c in
           if is_string (get data "type") "done"
           then close (call (cover_onDone cb data) c1)
           else c1;
     onerror := fun c => close (call (cover_onError cb "Connection error") c) |}.

(** ** The promise wrappers [startRewrite], [startReview], [startCover]

    The variables of the closure ([taskId] is called [reviewId] in
    [startReview] and is absent from [startCover]), the promise it
    returns, and the ids of the record requests ([getRewrite], [getReview],
    [getCover]) whose response is still awaited. *)

Record Starter (R : Type) : Type := {
  taskId : option JsNum;                (* number | null *)
  settled : bool;
  promise : Promise R;
  awaiting : list JsNum
}.
Arguments taskId {R} _.
Arguments settled {R} _.
Arguments promise {R} _.
Arguments awaiting {R} _.

Definition starter_init {R} : Starter R :=
  {| taskId := None; settled := false; promise := Pending; awaiting := [] |}.

(** [settled = true; resolve(record)] and [settled = true; reject(e)] *)
Definition settle_resolve {R} (record : R) (s : Starter R) : Starter R :=
  {| taskId := taskId s; settled := true;
     promise := resolve record (promise s); awaiting := awaiting s |}.

Definition settle_reject {R} (e : JsError) (s : Starter R) : Starter R :=
  {| taskId := taskId s; settled := true;
     promise := reject e (promise s); awaiting := awaiting s |}.

Definition set_taskId {R} (id : JsNum) (s : Starter R) : Starter R :=
  {| taskId := Some id; settled := settled s;
     promise := promise s; awaiting := awaiting s |}.

(** Calling [getRewrite(id)] (or [getReview], [getCover]) and suspending
    at the [await]. *)
Definition request_record {R} (id : JsNum) (s : Starter R) : Starter R :=
  {| taskId := taskId s; settled := settled s;
     promise := promise s; awaiting := awaiting s ++ [id] |}.

(** [(error) => { if (!settled) { settled = true; reject(new Error(error)) } }] *)
Definition starter_onError {R} (error : string) (s : Starter R) : Starter R :=
  if settled s then s else settle_reject (Error error) s.

(** The [onDone] of [startRewrite] and [startReview], up to its [await];
    [!taskId] holds of [null], of [0] and of [NaN]. *)
Definition starter_onDone {R} (missing_id_message : string) (_ : JsValue)
    (s : Starter R) : Starter R :=
  if settled s then s
  else match taskId s with
       | None => settle_reject (Error missing_id_message) s
       | Some id =>
           if negb (num_truthy id)
           then settle_reject (Error missing_id_message) s
           else request_record id s
       end.

Definition startRewrite_callbacks : StreamCallbacks (Starter RewriteRecord) :=
  {| onChunk := fun _ s => s;
     onError := starter_onError;
     onDone := starter_onDone "未获取到改写任务ID";
     onStart := Some set_taskId |}.

Definition startReview_callbacks : StreamCallbacks (Starter ReviewRecord) :=
  {| onChunk := fun _ s => s;
     onError := starter_onError;
     onDone := starter_onDone "未获取到审核ID";
     onStart := Some set_taskId |}.

(** The [onDone] of [startCover] reads the id from the [done] frame. *)
Definition startCover_onDone {rt : JsRuntime} (data : JsValue)
    (s : Starter CoverRecord) : Starter CoverRecord :=
  if settled s then s
  else
    let coverId := ToNumber (js_or (get data "id") (JsNumber (Int 0))) in
    if negb (num_truthy coverId)
    then settle_reject (Error "未获取到封面ID") s
    else request_record coverId s.

Definition startCover_callbacks {rt : JsRuntime} : CoverCallbacks (Starter CoverRecord) :=
  {| cover_onProgress := fun _ s => s;
     cover_onError := starter_onError;
     cover_onDone := startCover_onDone |}.

(** The outcome of a record request. *)
Inductive Response (R : Type) : Type :=
| Ok (record : R)
| Failed (e : JsError).
Arguments Ok {R} record.
Arguments Failed {R} e.

(** The code after the [await]: the [i]-th awaited request gets its
    response. *)
Definition resume {R} (i : nat) (response : Response R) (s : Starter R)
  : Starter R :=
  match awaiting s !! i with
  | None => s
  | Some _ =>
      let s1 := {| taskId := taskId s; settled := settled s;
                   promise := promise s; awaiting := delete i (awaiting s) |} in
      match response with
      | Ok record => settle_resolve record s1
      | Failed e => settle_reject e s1
      end
  end.

(** What can happen to a session: the browser delivers an event to its
    [EventSource], somebody closes the [EventSource], a record request
    gets its response. *)
Inductive Event (R : Type) : Type :=
| Source (ev : SourceEvent)
| Cancel
| Responds (i : nat) (response : Response R).
Arguments Source {R} ev.
Arguments Cancel {R}.
Arguments Responds {R} i response.

Definition session_step {R} (h : Handlers (Starter R)) (c : Conn (Starter R))
    (e : Event R) : Conn (Starter R) :=
  match e with
  | Source ev => dispatch h ev c
  | Cancel => close c
  | Responds i response => call (resume i response) c
  end.

Definition session_init {R} : Conn (Starter R) :=
  {| closed := false; caller := starter_init |}.

Definition startRewrite {rt : JsRuntime} (events : list (Event RewriteRecord))
  : Conn (Starter RewriteRecord) :=
  fold_left (session_step (rewriteWithStream startRewrite_callbacks))
    events session_init.

Definition startReview {rt : JsRuntime} (events : list (Event ReviewRecord))
  : Conn (Starter ReviewRecord) :=
  fold_left (session_step (reviewWithStream startReview_callbacks))
    events session_init.

Definition startCover {rt : JsRuntime} (events : list (Event CoverRecord))
  : Conn (Starter CoverRecord) :=
  fold_left (session_step (coverWithStream startCover_callbacks))
    events session_init.

(** A stream observed from outside: every callback invocation, in order. *)
Inductive Call : Type :=
| CallChunk (delta : string)
| CallError (error : string)
| CallDone (data : JsValue)
| CallStart (id : JsNum)
| CallStartData (data : JsValue)
| CallProgress (data : JsValue).

Definition recorder : StreamCallbacks (list Call) :=
  {| onChunk := fun delta log => log ++ [CallChunk delta];
     onError := fun error log => log ++ [CallError error];
     onDone := fun data log => log ++ [CallDone data];
     onStart := Some (fun id log => log ++ [CallStart id]) |}.

Definition cover_recorder : CoverCallbacks (list Call) :=
  {| cover_onProgress := fun data log => log ++ [CallProgress data];
     cover_onError := fun error log => log ++ [CallError error];
     cover_onDone := fun data log => log ++ [CallDone data] |}.

(** A connection that has just been opened. *)
Definition open_conn {St} (st : St) : Conn St :=
  {| closed := false; caller := st |}.

(** A bare stream: events and closings, no wrapper. *)
Definition stream_step {St} (h : Handlers St) (c : Conn St)
    (e : option SourceEvent) : Conn St :=
  match e with
  | Some ev => dispatch h ev c
  | None => close c
  end.

Definition stream_run {St} (h : Handlers St) (events : list (option SourceEvent))
    (c : Conn St) : Conn St :=
  fold_left (stream_step h) events c.

(** ** The chunked-response transport: [extractStyleWithStream]

    The body of the response is read as text chunks, until the reader
    reports the end of the body or fails. *)

Record Body : Type := {
  chunks : list string;
  read_failure : option JsError
}.

Record FetchResponse : Type := {
  ok : bool;
  status : Z;
  text : string;                        (* await response.text() *)
  body : option Body
}.

Record ExtractStyleStreamRequest : Type := {
  articles : list string;
  style_name : string;
  tags : option string
}.

(** The optional callbacks of [extractStyleWithStream]; as on the push
    transport, they are taken to return. *)
Record ExtractStyleStreamCallbacks (St : Type) : Type := {
  extract_onStart : option (JsValue -> St -> St);
  extract_onProgress : option (JsValue -> St -> St);
  extract_onChunk : option (string -> St -> St)
}.
Arguments extract_onStart {St} _.
Arguments extract_onProgress {St} _.
Arguments extract_onChunk {St} _.

Definition apply_opt {A St} (f : option (A -> St -> St)) (a : A) (st : St) : St :=
  match f with
  | Some g => g a st
  | None => st
  end.

(** [chunk.split("\n").find((line) => line.startsWith("data: "))] *)
Definition find_data_line (chunk : string) : option string :=
  List.find (String.prefix "data: ") (split_newline chunk).

(** [buffer.split("\n\n")] followed by [buffer = chunks.pop() || ""]: the
    complete blocks and the new buffer. *)
Definition take_blocks (buffer : string) : list string * string :=
  let '(blocks, final) := pop (split_blank_line buffer) in
  (blocks, match final with
           | Some s => if ToBoolean (JsString s) then s else EmptyString
           | None => EmptyString
           end).

(** What one more character in front of the text does to the result of
    [take_blocks]. *)
Definition push_head (c : ascii) (p : list string * string)
  : list string * string :=
  match fst p with
  | [] => ([], String c (snd p))
  | x :: xs => (String c x :: xs, snd p)
  end.

(** The object built from a [done] frame; [now] is
    [new Date().toISOString()]. *)
Definition created_style {rt : JsRuntime} (request : ExtractStyleStreamRequest)
    (now : string) (parsed : JsValue) : WritingStyle :=
  {| style_id_ := ToNumber (js_or (get parsed "id") (JsNumber (Int 0)));
     style_name_ :=
       ToString (js_or (get parsed "name") (JsString (style_name request)));
     style_description :=
       Some (ToString (js_or (get parsed "style_description") (JsString "")));
     style_tags :=
       if ToBoolean (get parsed "tags")
       then Some (ToString (get parsed "tags")) else None;
     style_created_at :=
       ToString (js_or (get parsed "created_at") (JsString now)) |}.

(** The [for (const chunk of chunks)] loop: the callbacks' state, and
    either the error thrown or the value of [createdStyle]. *)
Fixpoint extract_blocks {rt : JsRuntime} {St}
    (request : ExtractStyleStreamRequest)
    (callbacks : ExtractStyleStreamCallbacks St) (now : string)
    (blocks : list string) (createdStyle : option WritingStyle) (st : St)
  : St * (JsError + option WritingStyle) :=
  match blocks with
  | [] => (st, inr createdStyle)
  | chunk :: rest =>
      let continue := extract_blocks request callbacks now rest in
      match find_data_line chunk with
      | None => continue createdStyle st
      | Some dataLine =>
          let parsed := parseSseJson (slice 6 dataLine) in
          if negb (ToBoolean parsed) then continue createdStyle st
          else
            let eventType :=
              ToString (js_or (get parsed "type") (JsString "")) in
            if String.eqb eventType "start" then
              continue createdStyle
                (apply_opt (extract_onStart callbacks) parsed st)
            else if String.eqb eventType "progress" then
              continue createdStyle
                (apply_opt (extract_onProgress callbacks) parsed st)
            else if String.eqb eventType "content" then
              continue createdStyle
                (apply_opt (extract_onChunk callbacks)
                   (ToString (js_or (get parsed "delta") (JsString ""))) st)
            else if String.eqb eventType "error" then
              (st, inl (Error (ToString
                 (js_or (get parsed "message") (JsString "风格提取失败")))))
            else if String.eqb eventType "done" then
              continue (Some (created_style request now parsed)) st
            else continue createdStyle st
      end
  end.

(** The [while (true)] loop over the reads that return a chunk. *)
Fixpoint extract_read {rt : JsRuntime} {St}
    (request : ExtractStyleStreamRequest)
    (callbacks : ExtractStyleStreamCallbacks St) (now : string)
    (reads : list string) (buffer : string)
    (createdStyle : option WritingStyle) (st : St)
  : St * (JsError + option WritingStyle) :=
  match reads with
  | [] => (st, inr createdStyle)
  | value :: more =>
      let '(blocks, buffer') := take_blocks (buffer +:+ value) in
      match extract_blocks request callbacks now blocks createdStyle st with
      | (st', inl e) => (st', inl e)
      | (st', inr createdStyle') =>
          extract_read request callbacks now more buffer' createdStyle' st'
      end
  end.

(** The state of the callbacks at the end, and how the promise settles. *)
Definition extractStyleWithStream {rt : JsRuntime} {St}
    (request : ExtractStyleStreamRequest)
    (callbacks : ExtractStyleStreamCallbacks St) (now : string)
    (response : FetchResponse) (st : St) : St * Promise WritingStyle :=
  match (if ok response then body response else None) with
  | None =>
      let message := text response in
      (st, Rejected (Error
         (if ToBoolean (JsString message) then message
          else "Extract style failed: " +:+ pretty (status response))))
  | Some b =>
      match extract_read request callbacks now (chunks b) EmptyString None st with
      | (st', inl e) => (st', Rejected e)
      | (st', inr createdStyle) =>
          match read_failure b with
          | Some e => (st', Rejected e)
          | None =>
              match createdStyle with
              | None => (st', Rejected (Error "风格提取未返回完成结果"))
              | Some style => (st', Fulfilled style)
              end
          end
      end
  end.

Definition extract_recorder : ExtractStyleStreamCallbacks (list Call) :=
  {| extract_onStart := Some (fun data log => log ++ [CallStartData data]);
     extract_onProgress := Some (fun data log => log ++ [CallProgress data]);
     extract_onChunk := Some (fun delta log => log ++ [CallChunk delta]) |}.

(** What the body of the [for] loop does with one decoded frame
    ([parsed], truthy): the callbacks' state, and either the error thrown
    or the value of [createdStyle]. *)
Definition extract_frame {rt : JsRuntime} {St}
    (request : ExtractStyleStreamRequest)
    (callbacks : ExtractStyleStreamCallbacks St) (now : string)
    (parsed : JsValue) (createdStyle : option WritingStyle) (st : St)
  : St * (JsError + option WritingStyle) :=
  let eventType := ToString (js_or (get parsed "type") (JsString "")) in
  if String.eqb eventType "start" then
    (apply_opt (extract_onStart callbacks) parsed st, inr createdStyle)
  else if String.eqb eventType "progress" then
    (apply_opt (extract_onProgress callbacks) parsed st, inr createdStyle)
  else if String.eqb eventType "content" then
    (apply_opt (extract_onChunk callbacks)
       (ToString (js_or (get parsed "delta") (JsString ""))) st,
     inr createdStyle)
  else if String.eqb eventType "error" then
    (st, inl (Error (ToString
       (js_or (get parsed "message") (JsString "风格提取失败")))))
  else if String.eqb eventType "done" then
    (st, inr (Some (created_style request now parsed)))
  else (st, inr createdStyle).

(** The decoded frames dispatched one after the other, up to the first
    that throws: what the statements about framing compare the read loop
    with. *)
Fixpoint dispatch_frames {rt : JsRuntime} {St}
    (request : ExtractStyleStreamRequest)
    (callbacks : ExtractStyleStreamCallbacks St) (now : string)
    (frames : list JsValue) (createdStyle : option WritingStyle) (st : St)
  : St * (JsError + option WritingStyle) :=
  match frames with
  | [] => (st, inr createdStyle)
  | parsed :: rest =>
      match extract_frame request callbacks now parsed createdStyle st with
      | (st', inl e) => (st', inl e)
      | (st', inr createdStyle') =>
          dispatch_frames request callbacks now rest createdStyle' st'
      end
  end.

(** ** The read loop of [runFullWorkflow]

    The frames pushed on [events], and the buffer left when the body
    ends.  What the function does with the events afterwards (the two
    record requests) is [workflow_finish] below. *)

Fixpoint workflow_blocks {rt : JsRuntime} (blocks : list string)
    (events : list JsValue) : list JsValue :=
  match blocks with
  | [] => events
  | chunk :: rest =>
      match find_data_line chunk with
      | None => workflow_blocks rest events
      | Some dataLine =>
          let parsed := parseSseJson (slice 6 dataLine) in
          if negb (ToBoolean parsed) then workflow_blocks rest events
          else workflow_blocks rest (events ++ [parsed])
      end
  end.

Fixpoint runFullWorkflow_read {rt : JsRuntime} (reads : list string)
    (buffer : string) (events : list JsValue) : string * list JsValue :=
  match reads with
  | [] => (buffer, events)
  | value :: more =>
      let '(blocks, buffer') := take_blocks (buffer +:+ value) in
      runFullWorkflow_read more buffer' (workflow_blocks blocks events)
  end.

(** ** The rewrite call site of [HomePage.tsx]

    The state the handlers of the page read and write, every
    [EventSource] the page has created (its closed flag, in creation
    order) and [eventSourceRef.current].  [countWords] (two regular
    expression replacements and a length) is taken as given; [loadData()]
    and the scrolling started by [onDone] touch none of this state. *)

Class PageEnv : Type := {
  countWords : string -> JsNum
}.

Record View : Type := {
  sourceContent : string;
  selectedStyleId : option Z;           (* number | undefined *)
  targetLength : Z;
  isLoading : bool;
  rewrittenContent : string;
  resultWordCount : JsNum
}.

Record HomePage : Type := {
  view : View;
  sources : list bool;
  eventSourceRef : option nat
}.

Definition setIsLoading (b : bool) (v : View) : View :=
  {| sourceContent := sourceContent v; selectedStyleId := selectedStyleId v;
     targetLength := targetLength v; isLoading := b;
     rewrittenContent := rewrittenContent v;
     resultWordCount := resultWordCount v |}.

Definition setRewrittenContent (content : string) (v : View) : View :=
  {| sourceContent := sourceContent v; selectedStyleId := selectedStyleId v;
     targetLength := targetLength v; isLoading := isLoading v;
     rewrittenContent := content;
     resultWordCount := resultWordCount v |}.

Definition setResultWordCount (n : JsNum) (v : View) : View :=
  {| sourceContent := sourceContent v; selectedStyleId := selectedStyleId v;
     targetLength := targetLength v; isLoading := isLoading v;
     rewrittenContent := rewrittenContent v;
     resultWordCount := n |}.

(** The three callbacks [handleRewrite] passes to [rewriteWithStream]; it
    passes no [onStart]. *)
Definition handleRewrite_onChunk {env : PageEnv} (chunk : string) (v : View) : View :=
  let next := rewrittenContent v +:+ chunk in
  setRewrittenContent next (setResultWordCount (countWords next) v).

Definition handleRewrite_onError (error : string) (v : View) : View :=
  setIsLoading false v.

Definition handleRewrite_onDone {rt : JsRuntime} {env : PageEnv} (data : JsValue)
    (v : View) : View :=
  let finalContent :=
    ToString (js_or (get data "final_content") (JsString "")) in
  let v1 :=
    if ToBoolean (JsString finalContent) then
      let words :=
        ToNumber (js_or (get data "actual_words") (JsNumber (Int 0))) in
      setResultWordCount
        (if num_truthy words then words else countWords finalContent)
        (setRewrittenContent finalContent v)
    else v in
  setIsLoading false v1.

Definition handleRewrite_callbacks {rt : JsRuntime} {env : PageEnv} : StreamCallbacks View :=
  {| onChunk := handleRewrite_onChunk;
     onError := handleRewrite_onError;
     onDone := handleRewrite_onDone;
     onStart := None |}.

(** [if (eventSourceRef.current) { eventSourceRef.current.close() }] *)
Definition close_current (p : HomePage) : HomePage :=
  match eventSourceRef p with
  | Some i =>
      {| view := view p; sources := <[i := true]> (sources p);
         eventSourceRef := eventSourceRef p |}
  | None => p
  end.

(** [eventSourceRef.current = rewriteWithStream(...)]: a new, open
    [EventSource]. *)
Definition open_stream (p : HomePage) : HomePage :=
  {| view := view p; sources := sources p ++ [false];
     eventSourceRef := Some (length (sources p)) |}.

Definition handleRewrite_guard (v : View) : bool :=
  negb (ToBoolean (JsString (sourceContent v)))
  || match selectedStyleId v with
     | None => true
     | Some id => negb (num_truthy (Int id))
     end.

Definition handleRewrite (p : HomePage) : HomePage :=
  if handleRewrite_guard (view p) then p
  else
    let p1 := close_current p in
    let v := setResultWordCount (Int 0)
               (setRewrittenContent EmptyString
                  (setIsLoading true (view p1))) in
    open_stream {| view := v; sources := sources p1;
                   eventSourceRef := eventSourceRef p1 |}.

(** The [onClick] of the cancel button. *)
Definition handleCancel (p : HomePage) : HomePage :=
  let p1 :=
    match eventSourceRef p with
    | Some _ =>
        let p0 := close_current p in
        {| view := view p0; sources := sources p0; eventSourceRef := None |}
    | None => p
    end in
  {| view := setIsLoading false (view p1); sources := sources p1;
     eventSourceRef := eventSourceRef p1 |}.

(** The cleanup of the effect that runs when the component unmounts. *)
Definition unmount (p : HomePage) : HomePage := close_current p.

(** The browser delivers an event to the [i]-th [EventSource]. *)
Definition deliver {rt : JsRuntime} {env : PageEnv} (i : nat) (ev : SourceEvent)
    (p : HomePage) : HomePage :=
  match sources p !! i with
  | None => p
  | Some flag =>
      let c := dispatch (rewriteWithStream handleRewrite_callbacks) ev
                 {| closed := flag; caller := view p |} in
      {| view := caller c; sources := <[i := closed c]> (sources p);
         eventSourceRef := eventSourceRef p |}
  end.

Inductive PageEvent : Type :=
| ClickRewrite
| ClickCancel
| Unmount
| EditForm (source : string) (styleId : option Z) (target : Z)
| Deliver (i : nat) (ev : SourceEvent).

Definition page_step {rt : JsRuntime} {env : PageEnv} (p : HomePage) (e : PageEvent)
  : HomePage :=
  match e with
  | ClickRewrite => handleRewrite p
  | ClickCancel => handleCancel p
  | Unmount => unmount p
  | EditForm source styleId target =>
      {| view := {| sourceContent := source; selectedStyleId := styleId;
                    targetLength := target; isLoading := isLoading (view p);
                    rewrittenContent := rewrittenContent (view p);
                    resultWordCount := resultWordCount (view p) |};
         sources := sources p; eventSourceRef := eventSourceRef p |}
  | Deliver i ev => deliver i ev p
  end.

Definition page_init : HomePage :=
  {| view := {| sourceContent := EmptyString; selectedStyleId := None;
                targetLength := 1000; isLoading := false;
                rewrittenContent := EmptyString;
                resultWordCount := Int 0 |};
     sources := []; eventSourceRef := None |}.

Definition page_run {rt : JsRuntime} {env : PageEnv} (events : list PageEvent) : HomePage :=
  fold_left page_step events page_init.

(** ** A runtime to run the examples with

    [JSON.parse] and [JSON.stringify] on the JSON texts the examples use:
    objects, arrays, strings without escape sequences, integers, [true],
    [false] and [null]; the number conversion on decimal integers.
    The general statements below hold for every runtime. *)

Definition quote : ascii := "034"%char.

Definition is_ws (c : ascii) : bool :=
  Ascii.eqb c " " || Ascii.eqb c "009" || Ascii.eqb c LF || Ascii.eqb c "013".

Fixpoint skip_ws (s : string) : string :=
  match s with
  | String c rest => if is_ws c then skip_ws rest else s
  | EmptyString => s
  end.

Definition digit_of (c : ascii) : option Z :=
  let n := Z.of_nat (nat_of_ascii c) in
  if (48 <=? n)%Z && (n <=? 57)%Z then Some (n - 48)%Z else None.

Fixpoint read_digits (s : string) (acc : Z) : Z * string :=
  match s with
  | String c rest =>
      match digit_of c with
      | Some d => read_digits rest (10 * acc + d)%Z
      | None => (acc, s)
      end
  | EmptyString => (acc, s)
  end.

(** Digits, not followed by a fraction or an exponent. *)
Definition read_int (s : string) : option (Z * string) :=
  match s with
  | String c _ =>
      match digit_of c with
      | None => None
      | Some _ =>
          let '(n, rest) := read_digits s 0%Z in
          match rest with
          | String d _ =>
              if Ascii.eqb d "." || Ascii.eqb d "e" || Ascii.eqb d "E"
              then None else Some (n, rest)
          | EmptyString => Some (n, rest)
          end
      end
  | EmptyString => None
  end.

(** The characters of a string literal up to its closing quote. *)
Fixpoint read_chars (s : string) : option (string * string) :=
  match s with
  | EmptyString => None
  | String c rest =>
      if Ascii.eqb c quote then Some (EmptyString, rest)
      else if Ascii.eqb c "\" || (nat_of_ascii c <? 32)%nat then None
      else match read_chars rest with
           | Some (str, rest') => Some (String c str, rest')
           | None => None
           end
  end.

Definition expect (word : string) (s : string) (v : JsValue)
  : option (JsValue * string) :=
  if String.prefix word s then Some (v, slice (String.length word) s) else None.

(** A later occurrence of a key replaces the earlier one. *)
Fixpoint set_field (key : string) (v : JsValue)
    (fields : list (string * JsValue)) : list (string * JsValue) :=
  match fields with
  | [] => [(key, v)]
  | (k, w) :: rest =>
      if String.eqb k key then (k, v) :: rest
      else (k, w) :: set_field key v rest
  end.

Fixpoint parse_value (fuel : nat) (s : string) : option (JsValue * string) :=
  match fuel with
  | O => None
  | S fuel' =>
      match skip_ws s with
      | EmptyString => None
      | String c rest =>
          if Ascii.eqb c "n" then expect "ull" rest JsNull
          else if Ascii.eqb c "t" then expect "rue" rest (JsBool true)
          else if Ascii.eqb c "f" then expect "alse" rest (JsBool false)
          else if Ascii.eqb c quote then
            match read_chars rest with
            | Some (str, rest') => Some (JsString str, rest')
            | None => None
            end
          else if Ascii.eqb c "-" then
            match read_int rest with
            | Some (n, rest') => Some (JsNumber (Int (- n)), rest')
            | None => None
            end
          else if Ascii.eqb c "[" then
            match skip_ws rest with
            | String "]" rest' => Some (JsArray [], rest')
            | _ =>
                (fix elements (n : nat) (s : string) (acc : list JsValue)
                   : option (JsValue * string) :=
                   match n with
                   | O => None
                   | S n' =>
                       match parse_value fuel' s with
                       | None => None
                       | Some (v, after) =>
                           match skip_ws after with
                           | String "," more => elements n' more (acc ++ [v])
                           | String "]" more => Some (JsArray (acc ++ [v]), more)
                           | _ => None
                           end
                       end
                   end) fuel' rest []
            end
          else if Ascii.eqb c "{" then
            match skip_ws rest with
            | String "}" rest' => Some (JsObject [], rest')
            | _ =>
                (fix members (n : nat) (s : string)
                     (acc : list (string * JsValue))
                   : option (JsValue * string) :=
                   match n with
                   | O => None
                   | S n' =>
                       match skip_ws s with
                       | String q after_quote =>
                           if Ascii.eqb q quote then
                             match read_chars after_quote with
                             | None => None
                             | Some (key, after_key) =>
                                 match skip_ws after_key with
                                 | String ":" after_colon =>
                                     match parse_value fuel' after_colon with
                                     | None => None
                                     | Some (v, after) =>
                                         match skip_ws after with
                                         | String "," more =>
                                             members n' more (set_field key v acc)
                                         | String "}" more =>
                                             Some (JsObject (set_field key v acc), more)
                                         | _ => None
                                         end
                                     end
                                 | _ => None
                                 end
                             end
                           else None
                       | EmptyString => None
                       end
                   end) fuel' rest []
            end
          else
            match read_int (String c rest) with
            | Some (n, rest') => Some (JsNumber (Int n), rest')
            | None => None
            end
      end
  end.

Definition example_JSON_parse (text : string) : option JsValue :=
  match parse_value (S (String.length text)) text with
  | Some (v, rest) =>
      match skip_ws rest with
      | EmptyString => Some v
      | _ => None
      end
  | None => None
  end.

Definition example_StringToNumber (s : string) : JsNum :=
  match skip_ws s with
  | EmptyString => Int 0
  | String c rest =>
      let signed (sign : Z) (digits : string) : JsNum :=
        match read_int digits with
        | Some (n, after) =>
            match skip_ws after with
            | EmptyString => Int (sign * n)
            | _ => NaN
            end
        | None => NaN
        end in
      if Ascii.eqb c "-" then signed (-1)%Z rest
      else if Ascii.eqb c "+" then signed 1%Z rest
      else signed 1%Z (String c rest)
  end.

Definition example_runtime : JsRuntime :=
  {| JSON_parse := example_JSON_parse;
     StringToNumber := example_StringToNumber |}.

(** [JSON.stringify] of a value without [undefined] and without
    characters that need escaping. *)
Fixpoint JSON_stringify (v : JsValue) : string :=
  match v with
  | JsUndefined | JsNull | JsNumber NaN => "null"
  | JsBool true => "true"
  | JsBool false => "false"
  | JsNumber (Int z) => pretty z
  | JsString s => String quote (s +:+ String quote EmptyString)
  | JsArray items =>
      "[" +:+
      (fix join (l : list JsValue) : string :=
         match l with
         | [] => ""
         | [x] => JSON_stringify x
         | x :: rest => JSON_stringify x +:+ "," +:+ join rest
         end) items +:+ "]"
  | JsObject fields =>
      "{" +:+
      (fix join (l : list (string * JsValue)) : string :=
         match l with
         | [] => ""
         | [(k, x)] =>
             String quote (k +:+ String quote EmptyString) +:+ ":" +:+
             JSON_stringify x
         | (k, x) :: rest =>
             String quote (k +:+ String quote EmptyString) +:+ ":" +:+
             JSON_stringify x +:+ "," +:+ join rest
         end) fields +:+ "}"
  end.

Definition blank_line : string := String LF (String LF EmptyString).

(** One event of the wire format: a [data: ] line and a blank line. *)
Definition sse_block (body : string) : string :=
  "data: " +:+ body +:+ blank_line.

Definition frame (fields : list (string * JsValue)) : string :=
  JSON_stringify (JsObject fields).

(** ** Vocabulary of the statements *)

(** The message is a frame of the given type: it parses to an object
    whose [type] is that string. *)
Definition is_frame {rt : JsRuntime} (name : string) (event_data : string) : bool :=
  is_string (get (parseSseJson event_data) "type") name.

Definition is_terminal {rt : JsRuntime} (event_data : string) : bool :=
  is_frame "done" event_data || is_frame "error" event_data.

(** The [case] labels of the [switch] of [rewriteWithStream] and
    [reviewWithStream], and the types [extractStyleWithStream] compares
    [eventType] with. *)
Definition stream_cases : list string := ["content"; "start"; "done"; "error"].

Definition extract_cases : list string :=
  ["start"; "progress"; "content"; "error"; "done"].

(** The union type of [SSEMessage.type]. *)
Definition SSEMessage_types : list string :=
  ["start"; "progress"; "content"; "prompt"; "prompt_done"; "saving";
   "generating"; "style"; "error"; "done"].

Definition type_among (names : list string) (type : JsValue) : bool :=
  existsb (is_string type) names.

(** The frame a block of the chunked transport carries, if any, and the
    [eventType] the reader computes from it. *)
Definition block_frame {rt : JsRuntime} (chunk : string) : option JsValue :=
  match find_data_line chunk with
  | None => None
  | Some dataLine =>
      let parsed := parseSseJson (slice 6 dataLine) in
      if ToBoolean parsed then Some parsed else None
  end.

Definition eventType (parsed : JsValue) : string :=
  ToString (js_or (get parsed "type") (JsString "")).

Definition block_type {rt : JsRuntime} (chunk : string) : option string :=
  option_map eventType (block_frame chunk).

(** A [data: ] line whose body [JSON.parse] rejects. *)
Definition malformed_block {rt : JsRuntime} (chunk : string) : Prop :=
  exists dataLine,
    find_data_line chunk = Some dataLine /\ JSON_parse (slice 6 dataLine) = None.

(** The body of a well-formed block: one line of JSON text for an object
    or any other value that is not falsy. *)
Fixpoint no_newline (s : string) : bool :=
  match s with
  | EmptyString => true
  | String c rest => negb (is_LF c) && no_newline rest
  end.

Definition well_formed {rt : JsRuntime} (body : string) : Prop :=
  no_newline body = true /\ ToBoolean (parseSseJson body) = true.

Definition concat_text (reads : list string) : string :=
  fold_right String.append EmptyString reads.


Definition is_done_event {rt : JsRuntime} {R} (e : Event R) : bool :=
  match e with
  | Source (Message event_data) => is_frame "done" event_data
  | _ => false
  end.

(** The callbacks of a promise wrapper invoked directly, in any order,
    whatever the transport would or would not deliver. *)
Inductive Invocation (R : Type) : Type :=
| InvokeChunk (delta : string)
| InvokeError (error : string)
| InvokeDone (data : JsValue)
| InvokeStart (id : JsNum)
| InvokeResume (i : nat) (response : Response R).
Arguments InvokeChunk {R} delta.
Arguments InvokeError {R} error.
Arguments InvokeDone {R} data.
Arguments InvokeStart {R} id.
Arguments InvokeResume {R} i response.

Definition invoke {R} (cb : StreamCallbacks (Starter R)) (s : Starter R)
    (inv : Invocation R) : Starter R :=
  match inv with
  | InvokeChunk delta => onChunk cb delta s
  | InvokeError error => onError cb error s
  | InvokeDone data => onDone cb data s
  | InvokeStart id => apply_opt (onStart cb) id s
  | InvokeResume i response => resume i response s
  end.

Inductive CoverInvocation : Type :=
| CoverProgress (data : JsValue)
| CoverError (error : string)
| CoverDone (data : JsValue)
| CoverResume (i : nat) (response : Response CoverRecord).

Definition cover_invoke {rt : JsRuntime} (s : Starter CoverRecord)
    (inv : CoverInvocation) : Starter CoverRecord :=
  match inv with
  | CoverProgress data => cover_onProgress startCover_callbacks data s
  | CoverError error => cover_onError startCover_callbacks error s
  | CoverDone data => cover_onDone startCover_callbacks data s
  | CoverResume i response => resume i response s
  end.

(** At most one [EventSource] of the page is open; none is. *)
Definition at_most_one_open (p : HomePage) : Prop :=
  forall i j, sources p !! i = Some false -> sources p !! j = Some false -> i = j.

Definition none_open (p : HomePage) : Prop :=
  forall i, sources p !! i <> Some false.

(** The frames of the end-to-end scenario of the rewrite stage. *)
Definition scenario_start : JsValue :=
  JsObject [("type", JsString "start"); ("task_id", JsNumber (Int 42))].

Definition scenario_content1 : JsValue :=
  JsObject [("type", JsString "content"); ("delta", JsString "Hello")].

Definition scenario_content2 : JsValue :=
  JsObject [("type", JsString "content"); ("delta", JsString ", World!")].

Definition scenario_done : JsValue :=
  JsObject [("type", JsString "done");
            ("final_content", JsString "Hello, World!");
            ("actual_words", JsNumber (Int 2))].

(** The three clients of the push transport. *)
Inductive push_client {rt : JsRuntime} {St : Type} : Handlers St -> Prop :=
| client_rewrite (cb : StreamCallbacks St) : push_client (rewriteWithStream cb)
| client_review (cb : StreamCallbacks St) : push_client (reviewWithStream cb)
| client_cover (cb : CoverCallbacks St) : push_client (coverWithStream cb).

(** Nothing has settled and no record request is awaited. *)
Definition fresh {R} (s : Starter R) : Prop :=
  settled s = false /\ promise s = Pending /\ awaiting s = [].

(** The callbacks [startRewrite] and [startReview] have in common. *)
Definition starter_callbacks {R} (missing_id_message : string)
  : StreamCallbacks (Starter R) :=
  {| onChunk := fun _ s => s;
     onError := starter_onError;
     onDone := starter_onDone missing_id_message;
     onStart := Some set_taskId |}.

(** The two states of a wrapper agree on everything but [taskId]. *)
Definition same_outcome {R} (s s' : Starter R) : Prop :=
  settled s' = settled s /\ promise s' = promise s /\ awaiting s' = awaiting s.

(** What the statements about sessions need to know of a wrapper's
    handlers. *)
Record session_client {rt : JsRuntime} {R : Type} (h : Handlers (Starter R))
  : Prop := {
  client_terminal : forall event_data c,
      is_terminal event_data = true ->
      closed (onmessage h event_data c) = true;
  client_message : forall event_data c,
      is_terminal event_data = false ->
      closed (onmessage h event_data c) = closed c
      /\ same_outcome (caller c) (caller (onmessage h event_data c));
  client_promise : forall event_data c,
      is_settled (promise (caller c)) = true ->
      promise (caller (onmessage h event_data c)) = promise (caller c);
  client_awaiting : forall event_data c,
      is_frame "done" event_data = false ->
      awaiting (caller (onmessage h event_data c)) = awaiting (caller c);
  client_onerror : forall c,
      onerror h c = close (call (starter_onError "Connection error") c)
}.

(** An open [EventSource] of the page is the one [eventSourceRef] holds. *)
Definition page_inv (p : HomePage) : Prop :=
  forall i, sources p !! i = Some false -> eventSourceRef p = Some i.

(** The frames of a stream as the events of a session. *)
Definition messages {R} (frames : list string) : list (Event R) :=
  map (fun event_data => Source (Message event_data)) frames.

(** ** Inputs of the examples *)

Definition example_request : ExtractStyleStreamRequest :=
  {| articles := ["An article."]; style_name := "plain"; tags := None |}.

Definition example_now : string := "2026-01-01T00:00:00.000Z".

Definition example_response (reads : list string) : FetchResponse :=
  {| ok := true; status := 200; text := EmptyString;
     body := Some {| chunks := reads; read_failure := None |} |}.

Definition example_done : string :=
  frame [("type", JsString "done"); ("id", JsNumber (Int 7))].

Definition example_content : string :=
  frame [("type", JsString "content"); ("delta", JsString "x")].

Definition example_error : string :=
  frame [("type", JsString "error"); ("message", JsString "model overloaded")].

Definition example_unknown : string :=
  frame [("type", JsString "heartbeat")].

Definition example_start_no_id : string :=
  frame [("type", JsString "start")].

Definition example_done_no_id : string :=
  frame [("type", JsString "done")].

Definition example_page_env : PageEnv :=
  {| countWords := fun content => Int (Z.of_nat (String.length content)) |}.

Definition example_record : RewriteRecord :=
  {| rewrite_id := 42; source_article := "hello world";
     final_content := "Hello, World!"; rewrite_style_id := 1;
     rewrite_style_name := None; target_words := 500; actual_words := 2;
     enable_rag := false; rag_top_k := 3; rag_retrieved := None;
     rewrite_status := "completed"; rewrite_error_message := None;
     rewrite_created_at := example_now; rewrite_updated_at := example_now |}.

(** ** [runFullWorkflow], after its read loop

    The answers of the two record endpoints, the record requests the
    function makes, and how its promise settles.  The body posted with the
    request plays no part in what follows. *)

Record Backend : Type := {
  getRewrite : JsNum -> Response RewriteRecord;
  getReview : JsNum -> Response ReviewRecord
}.

Inductive ApiCall : Type :=
| GetRewrite (id : JsNum)
| GetReview (id : JsNum).

Record WorkflowResult : Type := {
  workflow_rewrite : RewriteRecord;     (* rewrite *)
  workflow_review : option ReviewRecord; (* review *)
  workflow_cover : option CoverRecord;  (* cover *)
  workflow_events : list JsValue        (* events *)
}.

(** [events[events.length - 1]?.state]: the events are truthy, so only an
    empty list makes the optional chain stop. *)
Definition lastState (events : list JsValue) : JsValue :=
  match last events with
  | Some event => get event "state"
  | None => JsUndefined
  end.

(** [Number(lastState?.key || 0)] *)
Definition state_id {rt : JsRuntime} (events : list JsValue) (key : string)
  : JsNum :=
  ToNumber (js_or (get (lastState events) key) (JsNumber (Int 0))).

(** What [runFullWorkflow] does with the events it has read. *)
Definition workflow_finish {rt : JsRuntime} (backend : Backend)
    (events : list JsValue) : list ApiCall * Promise WorkflowResult :=
  let rewriteId := state_id events "rewrite_id" in
  let reviewId := state_id events "review_id" in
  if negb (num_truthy rewriteId) then
    ([], Rejected (Error "Workflow completed but rewrite_id is missing"))
  else
    match getRewrite backend rewriteId with
    | Failed e => ([GetRewrite rewriteId], Rejected e)
    | Ok rewrite =>
        if num_truthy reviewId then
          match getReview backend reviewId with
          | Failed e => ([GetRewrite rewriteId; GetReview reviewId], Rejected e)
          | Ok review =>
              ([GetRewrite rewriteId; GetReview reviewId],
               Fulfilled {| workflow_rewrite := rewrite;
                            workflow_review := Some review;
                            workflow_cover := None;
                            workflow_events := events |})
          end
        else
          ([GetRewrite rewriteId],
           Fulfilled {| workflow_rewrite := rewrite;
                        workflow_review := None;
                        workflow_cover := None;
                        workflow_events := events |})
    end.

Definition runFullWorkflow {rt : JsRuntime} (backend : Backend)
    (styleId : option JsNum) (response : FetchResponse)
  : list ApiCall * Promise WorkflowResult :=
  if match styleId with
     | None => true
     | Some id => negb (num_truthy id)
     end
  then ([], Rejected (Error "styleId is required"))
  else
    match (if ok response then body response else None) with
    | None =>
        ([], Rejected (Error
           ("Workflow request failed: " +:+ pretty (status response))))
    | Some b =>
        let '(_, events) := runFullWorkflow_read (chunks b) EmptyString [] in
        match read_failure b with
        | Some e => ([], Rejected e)
        | None => workflow_finish backend events
        end
    end.

(** ** The article inputs of [StylesPage]

    [addArticleInput] and [removeArticleInput], as functions on the list
    of inputs; the indices are those of the inputs on the page.
    [updateArticle] is left out. *)

(** [next.splice(afterIndex + 1, 0, '')] *)
Definition addArticleInput (afterIndex : nat) (prev : list string)
  : list string :=
  take (S afterIndex) prev ++ [EmptyString] ++ drop (S afterIndex) prev.

(** [l.filter((_, i) => keep(i))], counting from [i]. *)
Fixpoint filter_index {A} (keep : nat -> bool) (i : nat) (l : list A)
  : list A :=
  match l with
  | [] => []
  | x :: rest =>
      if keep i then x :: filter_index keep (S i) rest
      else filter_index keep (S i) rest
  end.

Definition removeArticleInput (index : nat) (prev : list string)
  : list string :=
  if (length prev <=? 1)%nat then [EmptyString]
  else filter_index (fun i => negb (i =? index)%nat) 0 prev.

(** ** Vocabulary of the further statements *)

Definition is_terminal_call (c : Call) : bool :=
  match c with
  | CallDone _ | CallError _ => true
  | _ => false
  end.

(** The recorded calls hold at most one [onDone] or [onError], as the
    last call, and only on a closed connection. *)
Definition ends_once (r : Conn (list Call)) : Prop :=
  exists front,
    Forall (fun c => is_terminal_call c = false) front
    /\ (caller r = front
        \/ (closed r = true
            /\ exists t, is_terminal_call t = true /\ caller r = front ++ [t])).

(** An [onStart] call carries a positive id. *)
Definition start_is_positive (c : Call) : bool :=
  match c with
  | CallStart id => gt_zero id
  | _ => true
  end.

(** The [settled] variable says whether the promise has settled. *)
Definition flag_agrees {R} (s : Starter R) : Prop :=
  settled s = is_settled (promise s).

(** How a promise settles on the response to the record request. *)
Definition settle_with {R} (response : Response R) : Promise R :=
  match response with
  | Ok record => Fulfilled record
  | Failed e => Rejected e
  end.

(** The block is no [error] frame; it is neither an [error] nor a [done]
    frame. *)
Definition not_error {rt : JsRuntime} (block : string) : Prop :=
  block_type block <> Some "error"%string.

Definition not_final {rt : JsRuntime} (block : string) : Prop :=
  block_type block <> Some "error"%string
  /\ block_type block <> Some "done"%string.

(** A response with status 200 whose body arrives in the given reads. *)
Definition response_of (reads : list string) (failure : option JsError)
  : FetchResponse :=
  {| ok := true; status := 200; text := EmptyString;
     body := Some {| chunks := reads; read_failure := failure |} |}.

(** [lines.join("\n")] *)
Fixpoint join_newline (lines : list string) : string :=
  match lines with
  | [] => EmptyString
  | [line] => line
  | line :: rest => line +:+ String LF (join_newline rest)
  end.

Definition some_open (p : HomePage) : Prop :=
  exists i, sources p !! i = Some false.

Definition is_unmount (e : PageEvent) : bool :=
  match e with
  | Unmount => true
  | _ => false
  end.

(** The delta a [content] frame carries, as the handlers read it. *)
Definition delta_of {rt : JsRuntime} (event_data : string) : string :=
  ToString (js_or (get (parseSseJson event_data) "delta") (JsString "")).

(** The id a [start] frame carries, as the handlers read it:
    [Number(data.task_id || 0)], [Number(data.review_id || 0)]. *)
Definition start_id {rt : JsRuntime} (id_field event_data : string) : JsNum :=
  ToNumber (js_or (get (parseSseJson event_data) id_field) (JsNumber (Int 0))).

(** The browser delivers the frames, in order, as messages. *)
Definition message_events (frames : list string) : list (option SourceEvent) :=
  map (fun event_data => Some (Message event_data)) frames.

(** The block holds no frame: no [data: ] line, or one whose body
    [parseSseJson] turns into a falsy value. *)
Definition no_frame {rt : JsRuntime} (block : string) : Prop :=
  block_frame block = None.

(** The [final_content] a [done] frame carries, as [handleRewrite] reads
    it. *)
Definition final_content_of {rt : JsRuntime} (event_data : string) : string :=
  ToString (js_or (get (parseSseJson event_data) "final_content")
              (JsString "")).

(** The browser delivers the frames, in order, to the [i]-th
    [EventSource] of the page. *)
Definition deliver_frames (i : nat) (frames : list string) : list PageEvent :=
  map (fun event_data => Deliver i (Message event_data)) frames.

Definition example_backend : Backend :=
  {| getRewrite := fun id =>
       match id with
       | Int 42 => Ok example_record
       | _ => Failed (Error "Request failed with status code 404")
       end;
     getReview := fun _ => Failed (Error "Request failed with status code 404") |}.

Definition example_workflow_event (fields : list (string * JsValue)) : string :=
  frame [("node", JsString "rewrite"); ("state", JsObject fields)].

(** * Properties *)

(** ** Splitting text into blocks *)

Lemma or_empty (s : string) :
  (if ToBoolean (JsString s) then s else EmptyString) = s.
Proof. destruct s; reflexivity. Qed.

Lemma split_blank_line_eq (c1 c2 : ascii) (r : string) :
  split_blank_line (String c1 (String c2 r)) =
  if is_LF c1 && is_LF c2
  then EmptyString :: split_blank_line r
  else cons_head c1 (split_blank_line (String c2 r)).
Proof. reflexivity. Qed.

Lemma split_blank_line_nonempty (s : string) : split_blank_line s <> [].
Proof.
  destruct s as [|c1 [|c2 r]]; [discriminate..|].
  rewrite split_blank_line_eq.
  destruct (is_LF c1 && is_LF c2); [discriminate|].
  unfold cons_head. destruct (split_blank_line _); discriminate.
Qed.

Lemma pop_cons_head (c : ascii) (l : list string) :
  l <> [] ->
  pop (cons_head c l) =
  match pop l with
  | ([], final) => ([], option_map (String c) final)
  | (x :: xs, final) => (String c x :: xs, final)
  end.
Proof.
  destruct l as [|x [|y l]]; [congruence| reflexivity |].
  intros _. cbn [cons_head]. change (pop (String c x :: y :: l))
    with (let '(init, final) := pop (y :: l) in (String c x :: init, final)).
  change (pop (x :: y :: l))
    with (let '(init, final) := pop (y :: l) in (x :: init, final)).
  destruct (pop (y :: l)); reflexivity.
Qed.

Lemma pop_split_some (s : string) :
  exists final, snd (pop (split_blank_line s)) = Some final.
Proof.
  pose proof (split_blank_line_nonempty s) as Hne.
  induction (split_blank_line s) as [|x [|y l] IH]; [congruence| eexists; reflexivity |].
  destruct IH as [final Hf]; [discriminate|].
  exists final. change (pop (x :: y :: l))
    with (let '(init, fin) := pop (y :: l) in (x :: init, fin)).
  destruct (pop (y :: l)); exact Hf.
Qed.

Lemma take_blocks_empty : take_blocks EmptyString = ([], EmptyString).
Proof. reflexivity. Qed.

Lemma take_blocks_single (c : ascii) :
  take_blocks (String c EmptyString) = ([], String c EmptyString).
Proof. reflexivity. Qed.

Lemma take_blocks_blank (r : string) :
  take_blocks (String LF (String LF r)) =
  (EmptyString :: fst (take_blocks r), snd (take_blocks r)).
Proof.
  unfold take_blocks. rewrite split_blank_line_eq.
  change (is_LF LF && is_LF LF) with true. cbv iota.
  pose proof (split_blank_line_nonempty r) as Hne.
  destruct (split_blank_line r) as [|x l]; [congruence|].
  change (pop (EmptyString :: x :: l))
    with (let '(init, fin) := pop (x :: l) in (EmptyString :: init, fin)).
  destruct (pop (x :: l)) as [init fin]. reflexivity.
Qed.

Lemma take_blocks_char (c1 c2 : ascii) (r : string) :
  is_LF c1 && is_LF c2 = false ->
  take_blocks (String c1 (String c2 r)) =
  push_head c1 (take_blocks (String c2 r)).
Proof.
  intros Hc. unfold take_blocks at 1. rewrite split_blank_line_eq, Hc.
  rewrite pop_cons_head by apply split_blank_line_nonempty.
  unfold take_blocks, push_head.
  destruct (pop_split_some (String c2 r)) as [final Hf].
  destruct (pop (split_blank_line (String c2 r))) as [init fin].
  simpl in Hf. subst fin.
  destruct init; cbn [option_map fst snd]; rewrite ?or_empty; reflexivity.
Qed.

Lemma is_LF_true (c : ascii) : is_LF c = true -> c = LF.
Proof. unfold is_LF. apply Ascii.eqb_eq. Qed.

(** A text without a blank line is all buffer. *)
Lemma take_blocks_none (s : string) :
  fst (take_blocks s) = [] -> snd (take_blocks s) = s.
Proof.
  induction s as [|c1 s IH]; [reflexivity|].
  destruct s as [|c2 r]; [reflexivity|].
  destruct (is_LF c1 && is_LF c2) eqn:Hc.
  - apply andb_prop in Hc as [H1 H2].
    apply is_LF_true in H1, H2. subst. rewrite take_blocks_blank. discriminate.
  - rewrite take_blocks_char by exact Hc. unfold push_head.
    destruct (fst (take_blocks (String c2 r))) eqn:Hf; [|discriminate].
    intros _. simpl. f_equal. apply IH. reflexivity.
Qed.

Lemma append_nil_l (b : string) : EmptyString +:+ b = b.
Proof. reflexivity. Qed.

Lemma append_cons (c : ascii) (a b : string) :
  String c a +:+ b = String c (a +:+ b).
Proof. reflexivity. Qed.

Lemma append_assoc (a b c : string) : (a +:+ b) +:+ c = a +:+ (b +:+ c).
Proof.
  induction a as [|x a IH]; [reflexivity|].
  rewrite !append_cons, IH. reflexivity.
Qed.

Lemma append_nil_r (a : string) : a +:+ EmptyString = a.
Proof.
  induction a as [|x a IH]; [reflexivity|].
  rewrite append_cons, IH. reflexivity.
Qed.

(** Induction that follows the recursion of [split_blank_line]. *)
Lemma string_ind2 (P : string -> Prop) :
  P EmptyString ->
  (forall c, P (String c EmptyString)) ->
  (forall c1 c2 r, P r -> P (String c2 r) -> P (String c1 (String c2 r))) ->
  forall s, P s.
Proof.
  intros H0 H1 H2 s.
  assert (P s /\ forall c, P (String c s)) as [Hs _]; [|exact Hs].
  induction s as [|c s [IHs IHc]]; split; auto.
Qed.

(** The blocks of [a +:+ b] are the blocks of [a], then the blocks of the
    buffer left by [a] followed by [b]. *)
Lemma take_blocks_app (a b : string) :
  take_blocks (a +:+ b) =
  (fst (take_blocks a) ++ fst (take_blocks (snd (take_blocks a) +:+ b)),
   snd (take_blocks (snd (take_blocks a) +:+ b))).
Proof.
  induction a as [|c|c1 c2 r IHr IH] using string_ind2.
  { rewrite take_blocks_empty, !append_nil_l. apply surjective_pairing. }
  { rewrite take_blocks_single. apply surjective_pairing. }
  rewrite !append_cons.
  destruct (is_LF c1 && is_LF c2) eqn:Hc.
  - apply andb_prop in Hc as [H1 H2].
    apply is_LF_true in H1, H2. subst.
    rewrite !take_blocks_blank, IHr. reflexivity.
  - rewrite (take_blocks_char c1 c2 (r +:+ b)) by exact Hc.
    rewrite <- append_cons, IH, (take_blocks_char c1 c2 r) by exact Hc.
    unfold push_head at 2 3 4.
    destruct (fst (take_blocks (String c2 r))) as [|x xs] eqn:Hf.
    + rewrite (take_blocks_none _ Hf). cbn [fst snd app].
      rewrite !append_cons.
      rewrite (take_blocks_char c1 c2 (r +:+ b)) by exact Hc.
      rewrite <- append_cons.
      unfold push_head. destruct (take_blocks (String c2 r +:+ b)) as [l s0].
      cbn [fst snd]. destruct l; reflexivity.
    + cbn [fst snd]. unfold push_head. reflexivity.
Qed.

(** The buffer kept by [take_blocks] holds no complete block. *)
Lemma take_blocks_buffer (s : string) :
  fst (take_blocks (snd (take_blocks s))) = [].
Proof.
  induction s as [|c|c1 c2 r IHr IH] using string_ind2; [reflexivity..|].
  destruct (is_LF c1 && is_LF c2) eqn:Hc.
  - apply andb_prop in Hc as [H1 H2].
    apply is_LF_true in H1, H2. subst.
    rewrite take_blocks_blank. exact IHr.
  - rewrite take_blocks_char by exact Hc. unfold push_head.
    destruct (fst (take_blocks (String c2 r))) as [|x xs] eqn:Hf; cbn [snd].
    + rewrite (take_blocks_none _ Hf).
      rewrite take_blocks_char by exact Hc. unfold push_head. rewrite Hf.
      reflexivity.
    + exact IH.
Qed.

Lemma take_blocks_fixed (s : string) :
  fst (take_blocks s) = [] -> take_blocks s = ([], s).
Proof.
  intros Hf. rewrite (surjective_pairing (take_blocks s)), Hf.
  rewrite (take_blocks_none _ Hf). reflexivity.
Qed.

Lemma no_newline_cons (c : ascii) (s : string) :
  no_newline (String c s) = true -> is_LF c = false /\ no_newline s = true.
Proof.
  cbn [no_newline]. intros H. apply andb_prop in H as [H1 H2].
  split; [|exact H2]. destruct (is_LF c); [discriminate|reflexivity].
Qed.

(** A line followed by a blank line is one block. *)
Lemma take_blocks_block (u rest : string) :
  no_newline u = true ->
  take_blocks (u +:+ blank_line +:+ rest) =
  (u :: fst (take_blocks rest), snd (take_blocks rest)).
Proof.
  induction u as [|c u IH]; intros Hu.
  - rewrite append_nil_l. unfold blank_line. rewrite !append_cons, append_nil_l.
    apply take_blocks_blank.
  - apply no_newline_cons in Hu as [Hc Hu].
    rewrite append_cons.
    assert (exists c2 r, u +:+ blank_line +:+ rest = String c2 r) as (c2 & r & Hr).
    { destruct u as [|c' u']; [exists LF|exists c']; eexists; reflexivity. }
    pose proof (IH Hu) as IHu. rewrite Hr in IHu |- *.
    rewrite take_blocks_char by (rewrite Hc; reflexivity).
    rewrite IHu. reflexivity.
Qed.

(** A proper prefix of a block holds no complete block. *)
Lemma take_blocks_partial (u p q : string) :
  no_newline u = true ->
  p +:+ q = u +:+ blank_line ->
  q <> EmptyString ->
  take_blocks p = ([], p).
Proof.
  revert p. induction u as [|c u IH]; intros p Hu Hpq Hq.
  - rewrite append_nil_l in Hpq. unfold blank_line in Hpq.
    destruct p as [|c1 [|c2 p]]; [reflexivity| |].
    + reflexivity.
    + rewrite !append_cons in Hpq. injection Hpq as -> -> Hpq.
      destruct p; [|discriminate].
      rewrite append_nil_l in Hpq. congruence.
  - apply no_newline_cons in Hu as [Hc Hu].
    destruct p as [|c1 p]; [reflexivity|].
    rewrite !append_cons in Hpq. injection Hpq as -> Hpq.
    pose proof (IH p Hu Hpq Hq) as IHp.
    destruct p as [|c2 p]; [reflexivity|].
    rewrite take_blocks_char by (rewrite Hc; reflexivity).
    rewrite IHp. reflexivity.
Qed.

Lemma split_newline_line (s : string) :
  no_newline s = true -> split_newline s = [s].
Proof.
  induction s as [|c s IH]; [reflexivity|].
  intros H. apply no_newline_cons in H as [Hc Hs].
  cbn [split_newline]. rewrite Hc, (IH Hs). reflexivity.
Qed.

Lemma no_newline_app (a b : string) :
  no_newline a = true -> no_newline b = true -> no_newline (a +:+ b) = true.
Proof.
  induction a as [|c a IH]; intros Ha Hb; [exact Hb|].
  apply no_newline_cons in Ha as [Hc Ha].
  rewrite append_cons. cbn [no_newline]. rewrite Hc, (IH Ha Hb). reflexivity.
Qed.

Lemma prefix_append (a b : string) : String.prefix a (a +:+ b) = true.
Proof.
  induction a as [|c a IH]; [destruct b; reflexivity|].
  rewrite append_cons. cbn [String.prefix].
  destruct (ascii_dec c c); [exact IH|congruence].
Qed.

Lemma find_data_line_data (body : string) :
  no_newline body = true ->
  find_data_line ("data: " +:+ body) = Some ("data: " +:+ body).
Proof.
  intros Hb. unfold find_data_line.
  rewrite split_newline_line by (apply no_newline_app; [reflexivity|exact Hb]).
  cbn [List.find]. rewrite prefix_append. reflexivity.
Qed.

Section Readers.
Context {rt : JsRuntime}.

Lemma block_frame_data (body : string) :
  well_formed body ->
  block_frame ("data: " +:+ body) = Some (parseSseJson body).
Proof.
  intros [Hn Ht]. unfold block_frame. rewrite find_data_line_data by exact Hn.
  change (slice 6 ("data: " +:+ body)) with body. cbv zeta. rewrite Ht.
  reflexivity.
Qed.

Lemma workflow_blocks_eq (chunk : string) (rest : list string)
    (events : list JsValue) :
  workflow_blocks (chunk :: rest) events =
  workflow_blocks rest
    (match block_frame chunk with
     | Some parsed => events ++ [parsed]
     | None => events
     end).
Proof.
  cbn [workflow_blocks]. unfold block_frame.
  destruct (find_data_line chunk); [|reflexivity].
  cbv zeta. destruct (ToBoolean _); reflexivity.
Qed.

Lemma workflow_blocks_app (b1 b2 : list string) (events : list JsValue) :
  workflow_blocks (b1 ++ b2) events =
  workflow_blocks b2 (workflow_blocks b1 events).
Proof.
  revert events. induction b1 as [|b b1 IH]; intros events; [reflexivity|].
  rewrite <- app_comm_cons, !workflow_blocks_eq. apply IH.
Qed.

Lemma workflow_blocks_well_formed (bodies : list string)
    (events : list JsValue) :
  Forall well_formed bodies ->
  workflow_blocks (map (String.append "data: ") bodies) events =
  events ++ map parseSseJson bodies.
Proof.
  intros Hall. revert events.
  induction Hall as [|body bodies Hb _ IH]; intros events.
  - cbn [map]. rewrite app_nil_r. reflexivity.
  - cbn [map]. rewrite workflow_blocks_eq, block_frame_data by exact Hb.
    rewrite IH, <- app_assoc. reflexivity.
Qed.

(** Reading chunk by chunk processes the blocks of the whole text. *)
Lemma runFullWorkflow_read_blocks (reads : list string) (buffer : string)
    (events : list JsValue) :
  fst (take_blocks buffer) = [] ->
  runFullWorkflow_read reads buffer events =
  (snd (take_blocks (buffer +:+ concat_text reads)),
   workflow_blocks (fst (take_blocks (buffer +:+ concat_text reads))) events).
Proof.
  revert buffer events.
  induction reads as [|value more IH]; intros buffer events Hb.
  - cbn [runFullWorkflow_read concat_text fold_right].
    rewrite append_nil_r, (take_blocks_fixed _ Hb). reflexivity.
  - cbn [runFullWorkflow_read concat_text fold_right].
    fold (concat_text more).
    rewrite <- append_assoc, (take_blocks_app (buffer +:+ value)).
    destruct (take_blocks (buffer +:+ value)) as [blocks buffer'] eqn:Ht.
    cbn [fst snd]. rewrite IH.
    + rewrite workflow_blocks_app. reflexivity.
    + change buffer' with (snd (blocks, buffer')). rewrite <- Ht.
      apply take_blocks_buffer.
Qed.

Lemma concat_text_blocks (bodies : list string) :
  Forall well_formed bodies ->
  take_blocks (concat_text (map sse_block bodies)) =
  (map (String.append "data: ") bodies, EmptyString).
Proof.
  induction 1 as [|body bodies [Hn _] _ IH]; [reflexivity|].
  cbn [map concat_text fold_right]. fold (concat_text (map sse_block bodies)).
  unfold sse_block at 1. rewrite !append_assoc.
  rewrite <- (append_assoc "data: " body).
  rewrite take_blocks_block by (apply no_newline_app; [reflexivity|exact Hn]).
  rewrite IH. reflexivity.
Qed.

Lemma extract_blocks_app {St} (request : ExtractStyleStreamRequest)
    (callbacks : ExtractStyleStreamCallbacks St) (now : string)
    (b1 b2 : list string) (createdStyle : option WritingStyle) (st : St) :
  extract_blocks request callbacks now (b1 ++ b2) createdStyle st =
  match extract_blocks request callbacks now b1 createdStyle st with
  | (st', inl e) => (st', inl e)
  | (st', inr createdStyle') =>
      extract_blocks request callbacks now b2 createdStyle' st'
  end.
Proof.
  revert createdStyle st.
  induction b1 as [|chunk b1 IH]; intros createdStyle st; [reflexivity|].
  rewrite <- app_comm_cons. cbn [extract_blocks].
  destruct (find_data_line chunk); [|apply IH].
  cbv zeta. destruct (ToBoolean _); [|apply IH]. cbn [negb].
  repeat (match goal with
          | |- context [if String.eqb ?a ?b then _ else _] =>
              destruct (String.eqb a b)
          end; try apply IH; try reflexivity).
Qed.

Lemma extract_read_blocks {St} (request : ExtractStyleStreamRequest)
    (callbacks : ExtractStyleStreamCallbacks St) (now : string)
    (reads : list string) (buffer : string)
    (createdStyle : option WritingStyle) (st : St) :
  fst (take_blocks buffer) = [] ->
  extract_read request callbacks now reads buffer createdStyle st =
  extract_blocks request callbacks now
    (fst (take_blocks (buffer +:+ concat_text reads))) createdStyle st.
Proof.
  revert buffer createdStyle st.
  induction reads as [|value more IH]; intros buffer createdStyle st Hb.
  - cbn [extract_read concat_text fold_right].
    rewrite append_nil_r, Hb. reflexivity.
  - cbn [extract_read concat_text fold_right]. fold (concat_text more).
    rewrite <- append_assoc, (take_blocks_app (buffer +:+ value)).
    destruct (take_blocks (buffer +:+ value)) as [blocks buffer'] eqn:Ht.
    cbn [fst snd]. rewrite extract_blocks_app.
    destruct (extract_blocks request callbacks now blocks createdStyle st)
      as [st' [e|createdStyle']]; [reflexivity|].
    apply IH. change buffer' with (snd (blocks, buffer')). rewrite <- Ht.
    apply take_blocks_buffer.
Qed.
End Readers.

(** The loop of [extractStyleWithStream] over blocks, frame by frame. *)
Section Frames.
Context {rt : JsRuntime} {St : Type}.
Variables (request : ExtractStyleStreamRequest)
  (callbacks : ExtractStyleStreamCallbacks St) (now : string).

Lemma extract_blocks_frame (block : string) (parsed : JsValue)
    (rest : list string) (createdStyle : option WritingStyle) (st : St) :
  block_frame block = Some parsed ->
  extract_blocks request callbacks now (block :: rest) createdStyle st =
  match extract_frame request callbacks now parsed createdStyle st with
  | (st', inl e) => (st', inl e)
  | (st', inr createdStyle') =>
      extract_blocks request callbacks now rest createdStyle' st'
  end.
Proof.
  intros Hf. unfold block_frame in Hf. cbn [extract_blocks].
  destruct (find_data_line block) as [dataLine|]; [|discriminate].
  cbv zeta in Hf |- *.
  set (v := parseSseJson (slice 6 dataLine)) in *.
  destruct (ToBoolean v); [|discriminate].
  assert (Hv : v = parsed) by congruence. clearbody v. subst v.
  cbn [negb]. unfold extract_frame. cbv zeta.
  repeat (match goal with
          | |- context [if String.eqb ?a ?b then _ else _] =>
              destruct (String.eqb a b)
          end; try reflexivity).
Qed.

Lemma extract_blocks_frames (bodies : list string)
    (createdStyle : option WritingStyle) (st : St) :
  Forall well_formed bodies ->
  extract_blocks request callbacks now (map (String.append "data: ") bodies)
    createdStyle st =
  dispatch_frames request callbacks now (map parseSseJson bodies)
    createdStyle st.
Proof.
  intros Hall. revert createdStyle st.
  induction Hall as [|body bodies Hb _ IH]; intros createdStyle st;
    [reflexivity|].
  cbn [map dispatch_frames].
  rewrite (extract_blocks_frame _ (parseSseJson body))
    by (apply block_frame_data, Hb).
  destruct (extract_frame request callbacks now (parseSseJson body)
              createdStyle st) as [st' [e|createdStyle']];
    [reflexivity|apply IH].
Qed.

Lemma extract_read_frames (bodies reads : list string) (st : St) :
  Forall well_formed bodies ->
  concat_text reads = concat_text (map sse_block bodies) ->
  extract_read request callbacks now reads EmptyString None st =
  dispatch_frames request callbacks now (map parseSseJson bodies) None st.
Proof.
  intros Hall Hcat. rewrite extract_read_blocks by reflexivity.
  rewrite append_nil_l, Hcat, concat_text_blocks by exact Hall.
  cbn [fst]. apply extract_blocks_frames, Hall.
Qed.
End Frames.

Lemma dispatch_frames_content {rt : JsRuntime}
    (request : ExtractStyleStreamRequest) (now : string)
    (bodies : list string) (createdStyle : option WritingStyle)
    (log : list Call) :
  Forall (fun body => eventType (parseSseJson body) = "content"%string)
    bodies ->
  dispatch_frames request extract_recorder now (map parseSseJson bodies)
    createdStyle log
  = (log ++ map (fun body => CallChunk (delta_of body)) bodies,
     inr createdStyle).
Proof.
  intros Hall. revert log.
  induction Hall as [|body bodies Hb _ IH]; intros log.
  - cbn [map dispatch_frames]. rewrite app_nil_r. reflexivity.
  - cbn [map dispatch_frames]. unfold extract_frame. cbv zeta.
    unfold eventType in Hb. rewrite Hb.
    change (String.eqb "content" "start") with false.
    change (String.eqb "content" "progress") with false.
    change (String.eqb "content" "content") with true.
    cbv iota. cbn [extract_recorder extract_onChunk apply_opt].
    rewrite IH, <- app_assoc. reflexivity.
Qed.

(** C3. Framing idempotence: reading a text chunk by chunk, with the last
    incomplete segment carried as the buffer, yields the same frames and
    the same final buffer as reading the concatenated text as one chunk,
    for [runFullWorkflow] and for [extractStyleWithStream]; when the text
    is [N] well-formed blocks, each a [data: ] line and a blank line, the
    frames are the [N] decoded bodies in order: [runFullWorkflow] has
    pushed them on [events], and [extractStyleWithStream] has dispatched
    them one after the other (its callbacks have seen the deltas of [N]
    [content] frames in order); and a block cut in two yields no frame
    after its first part and its frame after the second, in both
    readers. *)
Theorem framing_idempotence {rt : JsRuntime} :
  (forall reads : list string,
      runFullWorkflow_read reads EmptyString [] =
      runFullWorkflow_read [concat_text reads] EmptyString [])
  /\ (forall St (request : ExtractStyleStreamRequest)
        (callbacks : ExtractStyleStreamCallbacks St) (now : string)
        (reads : list string) (st : St),
      extract_read request callbacks now reads EmptyString None st =
      extract_read request callbacks now [concat_text reads] EmptyString None st)
  /\ (forall bodies reads : list string,
      Forall well_formed bodies ->
      concat_text reads = concat_text (map sse_block bodies) ->
      runFullWorkflow_read reads EmptyString [] =
        (EmptyString, map parseSseJson bodies)
      /\ runFullWorkflow_read [concat_text reads] EmptyString [] =
        (EmptyString, map parseSseJson bodies)
      /\ length (map parseSseJson bodies) = length bodies)
  /\ (forall body p q : string,
      well_formed body ->
      p +:+ q = sse_block body ->
      q <> EmptyString ->
      runFullWorkflow_read [p] EmptyString [] = (p, [])
      /\ runFullWorkflow_read [p; q] EmptyString [] =
        (EmptyString, [parseSseJson body]))
  /\ (forall St (request : ExtractStyleStreamRequest)
        (callbacks : ExtractStyleStreamCallbacks St) (now : string)
        (bodies reads : list string) (st : St),
      Forall well_formed bodies ->
      concat_text reads = concat_text (map sse_block bodies) ->
      extract_read request callbacks now reads EmptyString None st =
        dispatch_frames request callbacks now (map parseSseJson bodies) None st
      /\ extract_read request callbacks now [concat_text reads] EmptyString
           None st =
        dispatch_frames request callbacks now (map parseSseJson bodies) None st)
  /\ (forall St (request : ExtractStyleStreamRequest)
        (callbacks : ExtractStyleStreamCallbacks St) (now : string)
        (body p q : string) (st : St),
      well_formed body ->
      p +:+ q = sse_block body ->
      q <> EmptyString ->
      extract_read request callbacks now [p] EmptyString None st
        = (st, inr None)
      /\ extract_read request callbacks now [p; q] EmptyString None st
         = extract_frame request callbacks now (parseSseJson body) None st)
  /\ (forall (request : ExtractStyleStreamRequest) (now : string)
        (bodies reads : list string),
      Forall well_formed bodies ->
      Forall (fun body => eventType (parseSseJson body) = "content"%string)
        bodies ->
      concat_text reads = concat_text (map sse_block bodies) ->
      extract_read request extract_recorder now reads EmptyString None []
      = (map (fun body => CallChunk (delta_of body)) bodies, inr None)).
Proof.
  assert (Hone : forall reads : list string,
             runFullWorkflow_read reads EmptyString [] =
             runFullWorkflow_read [concat_text reads] EmptyString []).
  { intros reads. rewrite !runFullWorkflow_read_blocks by reflexivity.
    cbn [concat_text fold_right]. rewrite append_nil_r. reflexivity. }
  split; [exact Hone|]. split; [|split; [|split; [|split; [|split]]]].
  - intros St request callbacks now reads st.
    rewrite !extract_read_blocks by reflexivity.
    cbn [concat_text fold_right]. rewrite append_nil_r. reflexivity.
  - intros bodies reads Hall Hcat.
    assert (runFullWorkflow_read reads EmptyString [] =
            (EmptyString, map parseSseJson bodies)) as Hr.
    { rewrite runFullWorkflow_read_blocks by reflexivity.
      rewrite append_nil_l, Hcat, concat_text_blocks by exact Hall.
      cbn [fst snd]. rewrite workflow_blocks_well_formed by exact Hall.
      reflexivity. }
    split; [exact Hr|]. split; [rewrite <- Hone; exact Hr|apply length_map].
  - intros body p q Hwf Hpq Hq.
    assert (Hp : take_blocks p = ([], p)).
    { destruct Hwf as [Hn _].
      apply (take_blocks_partial ("data: " +:+ body) p q); [|exact Hpq|exact Hq].
      apply no_newline_app; [reflexivity|exact Hn]. }
    split.
    + cbn [runFullWorkflow_read]. rewrite append_nil_l, Hp. reflexivity.
    + rewrite runFullWorkflow_read_blocks by reflexivity.
      cbn [concat_text fold_right]. rewrite append_nil_l, append_nil_r, Hpq.
      replace (sse_block body) with (concat_text (map sse_block [body]))
        by (cbn [map concat_text fold_right]; apply append_nil_r).
      rewrite concat_text_blocks by (constructor; [exact Hwf|constructor]).
      cbn [fst snd]. rewrite workflow_blocks_well_formed
        by (constructor; [exact Hwf|constructor]).
      reflexivity.
  - intros St request callbacks now bodies reads st Hall Hcat.
    split; [apply extract_read_frames; assumption|].
    apply extract_read_frames; [exact Hall|].
    cbn [concat_text fold_right]. rewrite append_nil_r. exact Hcat.
  - intros St request callbacks now body p q st Hwf Hpq Hq.
    assert (Hp : take_blocks p = ([], p)).
    { destruct Hwf as [Hn _].
      apply (take_blocks_partial ("data: " +:+ body) p q); [|exact Hpq|exact Hq].
      apply no_newline_app; [reflexivity|exact Hn]. }
    split.
    + cbn [extract_read]. rewrite append_nil_l, Hp. reflexivity.
    + rewrite (extract_read_frames request callbacks now [body] [p; q] st)
        by (try (constructor; [exact Hwf|constructor]);
            cbn [map concat_text fold_right]; rewrite !append_nil_r;
            exact Hpq).
      cbn [map dispatch_frames].
      destruct (extract_frame request callbacks now (parseSseJson body) None st)
        as [st' [e|createdStyle']]; reflexivity.
  - intros request now bodies reads Hall Hcontent Hcat.
    rewrite (extract_read_frames request extract_recorder now bodies reads [])
      by assumption.
    apply (dispatch_frames_content request now bodies None []), Hcontent.
Qed.

(** C3 at two blocks read in three chunks, cut inside the blank line and
    inside the [data: ] marker, and at one block cut before its last
    newline. *)
Lemma framing_idempotence_witness :
  let bodies :=
    [JSON_stringify scenario_start; JSON_stringify scenario_content1] in
  let reads :=
    ["data: " +:+ JSON_stringify scenario_start +:+ String LF EmptyString;
     String LF "da";
     "ta: " +:+ JSON_stringify scenario_content1 +:+ blank_line] in
  let p := "data: " +:+ JSON_stringify scenario_done +:+ String LF EmptyString in
  let q := String LF EmptyString in
  (Forall (well_formed (rt := example_runtime)) bodies
   /\ concat_text reads = concat_text (map sse_block bodies)
   /\ runFullWorkflow_read (rt := example_runtime) reads EmptyString []
      = (EmptyString, [scenario_start; scenario_content1]))
  /\ (runFullWorkflow_read (rt := example_runtime) [p] EmptyString [] = (p, [])
      /\ runFullWorkflow_read (rt := example_runtime) [p; q] EmptyString []
         = (EmptyString, [scenario_done]))
  /\ (extract_read (rt := example_runtime) example_request extract_recorder
        example_now reads EmptyString None []
      = dispatch_frames (rt := example_runtime) example_request
          extract_recorder example_now [scenario_start; scenario_content1]
          None []
      /\ dispatch_frames (rt := example_runtime) example_request
           extract_recorder example_now [scenario_start; scenario_content1]
           None []
         = ([CallStartData scenario_start; CallChunk "Hello"], inr None))
  /\ (extract_read (rt := example_runtime) example_request extract_recorder
        example_now [p] EmptyString None [] = ([], inr None)
      /\ extract_read (rt := example_runtime) example_request extract_recorder
           example_now [p; q] EmptyString None []
         = ([], inr (Some (created_style (rt := example_runtime)
                             example_request example_now scenario_done))))
  /\ extract_read (rt := example_runtime) example_request extract_recorder
       example_now
       ["data: " +:+ JSON_stringify scenario_content1 +:+ String LF EmptyString;
        String LF "data: " +:+ JSON_stringify scenario_content2;
        blank_line] EmptyString None []
     = ([CallChunk "Hello"; CallChunk ", World!"], inr None).
Proof.
  cbv zeta.
  destruct (framing_idempotence (rt := example_runtime))
    as (_ & _ & Hblocks & Hcut & Hframes & Hpart & Hcontent).
  assert (Forall (well_formed (rt := example_runtime))
            [JSON_stringify scenario_start; JSON_stringify scenario_content1])
    as Hwf by (repeat constructor).
  assert (Forall (well_formed (rt := example_runtime))
            [JSON_stringify scenario_content1; JSON_stringify scenario_content2])
    as Hwf2 by (repeat constructor).
  split; [|split; [|split; [|split]]].
  - split; [exact Hwf|]. split; [reflexivity|].
    apply (Hblocks _ _ Hwf). reflexivity.
  - apply (Hcut (JSON_stringify scenario_done)).
    + split; reflexivity.
    + reflexivity.
    + discriminate.
  - split; [|reflexivity].
    apply (Hframes _ example_request extract_recorder example_now _ _ []
             Hwf eq_refl).
  - apply (Hpart _ example_request extract_recorder example_now
             (JSON_stringify scenario_done)).
    + split; reflexivity.
    + reflexivity.
    + discriminate.
  - apply (Hcontent example_request example_now _ _ Hwf2);
      [repeat constructor|reflexivity].
Defined.

(** ** The push transport *)

Lemma close_closed {St} (c : Conn St) : closed c = true -> close c = c.
Proof. destruct c as [b s]. cbn. intros ->. reflexivity. Qed.

Lemma dispatch_closed {St} (h : Handlers St) (ev : SourceEvent) (c : Conn St) :
  closed c = true -> dispatch h ev c = c.
Proof. unfold dispatch. intros ->. reflexivity. Qed.

Lemma stream_run_closed {St} (h : Handlers St)
    (events : list (option SourceEvent)) (c : Conn St) :
  closed c = true -> stream_run h events c = c.
Proof.
  unfold stream_run. induction events as [|[ev|] events IH]; intros Hc;
    cbn [fold_left stream_step]; [reflexivity| |].
  - rewrite dispatch_closed by exact Hc. apply IH, Hc.
  - rewrite close_closed by exact Hc. apply IH, Hc.
Qed.

Lemma is_string_eq (v : JsValue) (s : string) :
  is_string v s = true -> v = JsString s.
Proof.
  destruct v; cbn; try discriminate.
  intros Hs. apply String.eqb_eq in Hs. congruence.
Qed.

Lemma get_object (v : JsValue) (key : string) :
  get v key <> JsUndefined -> ToBoolean v = true.
Proof. destruct v; cbn; congruence. Qed.

Section Push.
Context {rt : JsRuntime}.

Lemma is_frame_type (name event_data : string) :
  is_frame name event_data = true ->
  get (parseSseJson event_data) "type" = JsString name.
Proof. apply is_string_eq. Qed.

Lemma is_frame_truthy (name event_data : string) :
  is_frame name event_data = true ->
  ToBoolean (parseSseJson event_data) = true.
Proof.
  intros Hf. apply (get_object _ "type").
  rewrite (is_frame_type _ _ Hf). discriminate.
Qed.

(** A value that is falsy has no [type]. *)
Lemma falsy_no_type (v : JsValue) (name : string) :
  ToBoolean v = false -> is_string (get v "type") name = false.
Proof. destruct v; cbn; congruence. Qed.

Lemma parse_failure (raw : string) :
  JSON_parse raw = None -> parseSseJson raw = JsNull.
Proof. unfold parseSseJson. intros ->. reflexivity. Qed.

(** The handler of [rewriteWithStream] and [reviewWithStream], by the
    type of the frame. *)
Lemma stream_onmessage_content {St} id_field (cb : StreamCallbacks St)
    (event_data : string) (c : Conn St) :
  is_frame "content" event_data = true ->
  stream_onmessage id_field cb event_data c =
  call (onChunk cb (ToString
    (js_or (get (parseSseJson event_data) "delta") (JsString "")))) c.
Proof.
  intros Hf. unfold stream_onmessage. cbv zeta.
  rewrite (is_frame_truthy _ _ Hf), (is_frame_type _ _ Hf). reflexivity.
Qed.

Lemma stream_onmessage_start {St} id_field (cb : StreamCallbacks St)
    (event_data : string) (c : Conn St) :
  is_frame "start" event_data = true ->
  stream_onmessage id_field cb event_data c =
  let taskId := ToNumber (js_or (get (parseSseJson event_data) id_field)
                            (JsNumber (Int 0))) in
  if gt_zero taskId
  then call_opt (option_map (fun f => f taskId) (onStart cb)) c
  else c.
Proof.
  intros Hf. unfold stream_onmessage. cbv zeta.
  rewrite (is_frame_truthy _ _ Hf), (is_frame_type _ _ Hf). reflexivity.
Qed.

Lemma stream_onmessage_done {St} id_field (cb : StreamCallbacks St)
    (event_data : string) (c : Conn St) :
  is_frame "done" event_data = true ->
  stream_onmessage id_field cb event_data c =
  close (call (onDone cb (parseSseJson event_data)) c).
Proof.
  intros Hf. unfold stream_onmessage. cbv zeta.
  rewrite (is_frame_truthy _ _ Hf), (is_frame_type _ _ Hf). reflexivity.
Qed.

Lemma stream_onmessage_error {St} id_field (cb : StreamCallbacks St)
    (event_data : string) (c : Conn St) :
  is_frame "error" event_data = true ->
  stream_onmessage id_field cb event_data c =
  close (call (onError cb (ToString
    (js_or (get (parseSseJson event_data) "message")
       (JsString "Unknown error")))) c).
Proof.
  intros Hf. unfold stream_onmessage. cbv zeta.
  rewrite (is_frame_truthy _ _ Hf), (is_frame_type _ _ Hf). reflexivity.
Qed.

Lemma stream_onmessage_other {St} id_field (cb : StreamCallbacks St)
    (event_data : string) (c : Conn St) :
  type_among stream_cases (get (parseSseJson event_data) "type") = false ->
  stream_onmessage id_field cb event_data c = c.
Proof.
  unfold type_among, stream_cases. cbn [existsb]. intros Hf.
  repeat (apply orb_false_elim in Hf as [? Hf]).
  unfold stream_onmessage. cbv zeta.
  destruct (negb _); [reflexivity|].
  repeat match goal with
         | Hx : is_string _ _ = false |- _ => rewrite Hx; clear Hx
         end.
  reflexivity.
Qed.

(** The handler of [coverWithStream], by the type of the frame. *)
Lemma cover_onmessage_error {St} (cb : CoverCallbacks St)
    (event_data : string) (c : Conn St) :
  is_frame "error" event_data = true ->
  onmessage (coverWithStream cb) event_data c =
  close (call (cover_onError cb (ToString
    (js_or (get (parseSseJson event_data) "message")
       (js_or (get (parseSseJson event_data) "error")
          (JsString "Unknown error"))))) c).
Proof.
  intros Hf. cbn [onmessage coverWithStream]. cbv zeta.
  rewrite (is_frame_truthy _ _ Hf), (is_frame_type _ _ Hf). reflexivity.
Qed.

Lemma cover_onmessage_done {St} (cb : CoverCallbacks St)
    (event_data : string) (c : Conn St) :
  is_frame "done" event_data = true ->
  onmessage (coverWithStream cb) event_data c =
  close (call (cover_onDone cb (parseSseJson event_data))
           (call (cover_onProgress cb (parseSseJson event_data)) c)).
Proof.
  intros Hf. cbn [onmessage coverWithStream]. cbv zeta.
  rewrite (is_frame_truthy _ _ Hf), (is_frame_type _ _ Hf). reflexivity.
Qed.

Lemma cover_onmessage_other {St} (cb : CoverCallbacks St)
    (event_data : string) (c : Conn St) :
  ToBoolean (parseSseJson event_data) = true ->
  is_frame "error" event_data = false ->
  is_frame "done" event_data = false ->
  onmessage (coverWithStream cb) event_data c =
  call (cover_onProgress cb (parseSseJson event_data)) c.
Proof.
  unfold is_frame. intros Ht He Hd. cbn [onmessage coverWithStream]. cbv zeta.
  rewrite Ht, He, Hd. reflexivity.
Qed.

Lemma cover_onmessage_falsy {St} (cb : CoverCallbacks St)
    (event_data : string) (c : Conn St) :
  ToBoolean (parseSseJson event_data) = false ->
  onmessage (coverWithStream cb) event_data c = c.
Proof.
  intros Ht. cbn [onmessage coverWithStream]. cbv zeta. rewrite Ht.
  reflexivity.
Qed.

Lemma stream_onmessage_falsy {St} id_field (cb : StreamCallbacks St)
    (event_data : string) (c : Conn St) :
  ToBoolean (parseSseJson event_data) = false ->
  stream_onmessage id_field cb event_data c = c.
Proof.
  intros Ht. unfold stream_onmessage. cbv zeta. rewrite Ht. reflexivity.
Qed.

(** A terminal frame closes the connection, whoever the client. *)
Lemma terminal_closes {St} (h : Handlers St) (event_data : string)
    (c : Conn St) :
  push_client h ->
  is_terminal event_data = true ->
  closed (onmessage h event_data c) = true.
Proof.
  unfold is_terminal. intros Hh Ht.
  apply orb_prop in Ht as [Hd|He]; destruct Hh as [cb|cb|cb];
    cbn [onmessage rewriteWithStream reviewWithStream].
  - rewrite stream_onmessage_done by exact Hd. reflexivity.
  - rewrite stream_onmessage_done by exact Hd. reflexivity.
  - rewrite cover_onmessage_done by exact Hd. reflexivity.
  - rewrite stream_onmessage_error by exact He. reflexivity.
  - rewrite stream_onmessage_error by exact He. reflexivity.
  - rewrite cover_onmessage_error by exact He. reflexivity.
Qed.

(** A message [JSON.parse] rejects is dropped by every client. *)
Lemma malformed_dropped {St} (h : Handlers St) (raw : string) (c : Conn St) :
  push_client h ->
  JSON_parse raw = None ->
  onmessage h raw c = c.
Proof.
  intros Hh Hp. apply parse_failure in Hp.
  destruct Hh as [cb|cb|cb]; cbn [onmessage rewriteWithStream reviewWithStream].
  - apply stream_onmessage_falsy. rewrite Hp. reflexivity.
  - apply stream_onmessage_falsy. rewrite Hp. reflexivity.
  - apply cover_onmessage_falsy. rewrite Hp. reflexivity.
Qed.
End Push.

(** ** Terminal frames *)

Section Terminal.
Context {rt : JsRuntime}.

Lemma extract_read_thrown {St} (request : ExtractStyleStreamRequest)
    (callbacks : ExtractStyleStreamCallbacks St) (now : string)
    (reads1 reads2 : list string) (buffer : string)
    (createdStyle : option WritingStyle) (st st' : St) (e : JsError) :
  extract_read request callbacks now reads1 buffer createdStyle st
    = (st', inl e) ->
  extract_read request callbacks now (reads1 ++ reads2) buffer createdStyle st
    = (st', inl e).
Proof.
  revert buffer createdStyle st.
  induction reads1 as [|value more IH]; intros buffer createdStyle st;
    [discriminate|].
  rewrite <- app_comm_cons. cbn [extract_read].
  destruct (take_blocks (buffer +:+ value)) as [blocks buffer'].
  destruct (extract_blocks request callbacks now blocks createdStyle st)
    as [st1 [e1|created1]]; [intros Heq; exact Heq|].
  apply IH.
Qed.

Lemma extract_blocks_eq {St} (request : ExtractStyleStreamRequest)
    (callbacks : ExtractStyleStreamCallbacks St) (now : string)
    (chunk : string) (rest : list string)
    (createdStyle : option WritingStyle) (st : St) :
  extract_blocks request callbacks now (chunk :: rest) createdStyle st =
  match block_frame chunk with
  | None => extract_blocks request callbacks now rest createdStyle st
  | Some parsed =>
      if String.eqb (eventType parsed) "start" then
        extract_blocks request callbacks now rest createdStyle
          (apply_opt (extract_onStart callbacks) parsed st)
      else if String.eqb (eventType parsed) "progress" then
        extract_blocks request callbacks now rest createdStyle
          (apply_opt (extract_onProgress callbacks) parsed st)
      else if String.eqb (eventType parsed) "content" then
        extract_blocks request callbacks now rest createdStyle
          (apply_opt (extract_onChunk callbacks)
             (ToString (js_or (get parsed "delta") (JsString ""))) st)
      else if String.eqb (eventType parsed) "error" then
        (st, inl (Error (ToString
           (js_or (get parsed "message") (JsString "风格提取失败")))))
      else if String.eqb (eventType parsed) "done" then
        extract_blocks request callbacks now rest
          (Some (created_style request now parsed)) st
      else extract_blocks request callbacks now rest createdStyle st
  end.
Proof.
  cbn [extract_blocks]. unfold block_frame, eventType.
  destruct (find_data_line chunk); [|reflexivity].
  cbv zeta. destruct (ToBoolean _); reflexivity.
Qed.

Lemma extract_blocks_error {St} (request : ExtractStyleStreamRequest)
    (callbacks : ExtractStyleStreamCallbacks St) (now : string)
    (block : string) (rest1 rest2 : list string)
    (createdStyle : option WritingStyle) (st : St) :
  block_type block = Some "error" ->
  extract_blocks request callbacks now (block :: rest1) createdStyle st =
  extract_blocks request callbacks now (block :: rest2) createdStyle st.
Proof.
  unfold block_type. intros Ht. rewrite !extract_blocks_eq.
  destruct (block_frame block) as [parsed|]; [|discriminate].
  injection Ht as ->. reflexivity.
Qed.
End Terminal.

(** C1. Terminal exclusivity, as the code has it.  On the push transport
    (rewrite, review, cover) a [done] or [error] frame that is processed
    closes the connection, and whatever the transport is given afterwards
    (messages, errors, closings) changes neither the connection nor the
    state of the callbacks: no callback is invoked.  On the chunked
    transport ([extractStyleWithStream]) an [error] frame throws: the
    blocks after it in the same read, and the reads after it, are not
    processed; a [done] frame sets [createdStyle] and the loop goes on
    with the next block. *)
Theorem terminal_exclusivity {rt : JsRuntime} :
  (forall St (h : Handlers St) (event_data : string) (c : Conn St)
      (later : list (option SourceEvent)),
      push_client h ->
      closed c = false ->
      is_terminal event_data = true ->
      closed (dispatch h (Message event_data) c) = true
      /\ stream_run h later (dispatch h (Message event_data) c)
         = dispatch h (Message event_data) c)
  /\ (forall St (request : ExtractStyleStreamRequest)
        (callbacks : ExtractStyleStreamCallbacks St) (now : string)
        (before after : list string) (block : string)
        (createdStyle : option WritingStyle) (st : St),
      block_type block = Some "error" ->
      extract_blocks request callbacks now (before ++ block :: after)
        createdStyle st
      = extract_blocks request callbacks now (before ++ [block])
          createdStyle st)
  /\ (forall St (request : ExtractStyleStreamRequest)
        (callbacks : ExtractStyleStreamCallbacks St) (now : string)
        (reads later : list string) (buffer : string)
        (createdStyle : option WritingStyle) (st st' : St) (e : JsError),
      extract_read request callbacks now reads buffer createdStyle st
        = (st', inl e) ->
      extract_read request callbacks now (reads ++ later) buffer
        createdStyle st = (st', inl e))
  /\ (forall St (request : ExtractStyleStreamRequest)
        (callbacks : ExtractStyleStreamCallbacks St) (now : string)
        (block : string) (parsed : JsValue) (after : list string)
        (createdStyle : option WritingStyle) (st : St),
      block_frame block = Some parsed ->
      eventType parsed = "done"%string ->
      extract_blocks request callbacks now (block :: after) createdStyle st
      = extract_blocks request callbacks now after
          (Some (created_style request now parsed)) st).
Proof.
  split; [|split; [|split]].
  - intros St h event_data c later Hh Hc Ht.
    assert (closed (dispatch h (Message event_data) c) = true) as Hcl.
    { unfold dispatch. rewrite Hc. apply terminal_closes; assumption. }
    split; [exact Hcl|]. apply stream_run_closed, Hcl.
  - intros St request callbacks now before after block createdStyle st Hb.
    rewrite !extract_blocks_app.
    destruct (extract_blocks request callbacks now before createdStyle st)
      as [st1 [e1|created1]]; [reflexivity|].
    apply extract_blocks_error, Hb.
  - intros. apply extract_read_thrown. assumption.
  - intros St request callbacks now block parsed after createdStyle st Hb Ht.
    rewrite extract_blocks_eq, Hb, Ht. reflexivity.
Qed.

(** C1 at a [done] frame on an open rewrite stream, followed by a
    [content] frame, and at an [error] block followed by a [content]
    block. *)
Lemma terminal_exclusivity_witness :
  let h := rewriteWithStream (rt := example_runtime) recorder in
  let after_done := dispatch h (Message example_done) (open_conn []) in
  (closed after_done = true
   /\ stream_run h [Some (Message example_content)] after_done = after_done)
  /\ extract_blocks (rt := example_runtime) example_request extract_recorder
       example_now ([] ++ sse_block example_error :: [sse_block example_content])
       None []
     = extract_blocks (rt := example_runtime) example_request extract_recorder
         example_now ([] ++ [sse_block example_error]) None [].
Proof.
  destruct (terminal_exclusivity (rt := example_runtime))
    as (Hpush & Hblock & _).
  split.
  - apply Hpush; [constructor|reflexivity|vm_compute; reflexivity].
  - apply Hblock. vm_compute. reflexivity.
Defined.

(** C1, as stated, fails on the chunked transport: after a [done] frame
    [extractStyleWithStream] goes on reading, and a [content] frame that
    follows still reaches [onChunk]. *)
Lemma extract_continues_after_done :
  let run reads :=
    extractStyleWithStream (rt := example_runtime) example_request
      extract_recorder example_now (example_response reads) [] in
  fst (run [sse_block example_done]) = []
  /\ fst (run [sse_block example_done +:+ sse_block example_content])
     = [CallChunk "x"]
  /\ fst (run [sse_block example_done; sse_block example_content])
     = [CallChunk "x"]
  /\ fst (run [sse_block example_done; sse_block example_content])
     <> fst (run [sse_block example_done]).
Proof. vm_compute. repeat split; discriminate. Qed.

(** The handlers themselves test no flag: it is the browser that stops
    delivering to a closed [EventSource].  A handler called directly on a
    closed connection still invokes its callback. *)
Remark onmessage_tests_no_flag :
  onmessage (rewriteWithStream (rt := example_runtime) recorder)
    example_content {| closed := true; caller := [] |}
  = {| closed := true; caller := [CallChunk "x"] |}.
Proof. reflexivity. Qed.

(** ** Frames that are not dispatched *)

Lemma existsb_eqb_false (s : string) (names : list string) (name : string) :
  existsb (String.eqb s) names = false -> In name names ->
  String.eqb s name = false.
Proof.
  intros Hex Hin. destruct (String.eqb s name) eqn:Hs; [|reflexivity].
  rewrite <- Hex. symmetry. apply existsb_exists. exists name. split; assumption.
Qed.

Lemma type_among_false (type : JsValue) (names : list string) (name : string) :
  type_among names type = false -> In name names ->
  is_string type name = false.
Proof.
  unfold type_among. intros Hex Hin.
  destruct (is_string type name) eqn:Hs; [|reflexivity].
  rewrite <- Hex. symmetry. apply existsb_exists. exists name. split; assumption.
Qed.

Section Dropped.
Context {rt : JsRuntime}.

Lemma malformed_block_frame (block : string) :
  malformed_block block -> block_frame block = None.
Proof.
  intros (dataLine & Hl & Hp). unfold block_frame. rewrite Hl.
  cbv zeta. rewrite (parse_failure _ Hp). reflexivity.
Qed.

Lemma extract_blocks_skip {St} (request : ExtractStyleStreamRequest)
    (callbacks : ExtractStyleStreamCallbacks St) (now : string)
    (before after : list string) (block : string)
    (createdStyle : option WritingStyle) (st : St) :
  (forall rest created st1,
      extract_blocks request callbacks now (block :: rest) created st1 =
      extract_blocks request callbacks now rest created st1) ->
  extract_blocks request callbacks now (before ++ block :: after)
    createdStyle st =
  extract_blocks request callbacks now (before ++ after) createdStyle st.
Proof.
  intros Hskip. rewrite !extract_blocks_app.
  destruct (extract_blocks request callbacks now before createdStyle st)
    as [st1 [e1|created1]]; [reflexivity|apply Hskip].
Qed.
End Dropped.

(** C7. Frames of an unknown type, as the code has it.  [rewriteWithStream]
    and [reviewWithStream] leave the connection and the state of the
    callbacks as they are for every frame whose [type] is none of the
    [case] labels [content], [start], [done], [error];
    [extractStyleWithStream] skips every block whose [type], converted
    with [String()], is none of [start], [progress], [content], [error],
    [done].  [coverWithStream] passes every frame that is not an [error]
    to [onProgress]: a frame whose [type] is outside the types of
    [SSEMessage] invokes [onProgress], and nothing else, and the
    connection stays open. *)
Theorem unknown_frame_types {rt : JsRuntime} :
  (forall St (cb : StreamCallbacks St) (event_data : string) (c : Conn St),
      type_among stream_cases (get (parseSseJson event_data) "type") = false ->
      dispatch (rewriteWithStream cb) (Message event_data) c = c
      /\ dispatch (reviewWithStream cb) (Message event_data) c = c)
  /\ (forall St (request : ExtractStyleStreamRequest)
        (callbacks : ExtractStyleStreamCallbacks St) (now : string)
        (before after : list string) (block : string) (parsed : JsValue)
        (createdStyle : option WritingStyle) (st : St),
      block_frame block = Some parsed ->
      existsb (String.eqb (eventType parsed)) extract_cases = false ->
      extract_blocks request callbacks now (before ++ block :: after)
        createdStyle st
      = extract_blocks request callbacks now (before ++ after) createdStyle st)
  /\ (forall St (cb : CoverCallbacks St) (event_data : string) (c : Conn St),
      closed c = false ->
      ToBoolean (parseSseJson event_data) = true ->
      type_among SSEMessage_types (get (parseSseJson event_data) "type")
        = false ->
      dispatch (coverWithStream cb) (Message event_data) c
      = call (cover_onProgress cb (parseSseJson event_data)) c).
Proof.
  split; [|split].
  - intros St cb event_data c Ht. unfold dispatch.
    destruct (closed c); [split; reflexivity|].
    cbn [onmessage rewriteWithStream reviewWithStream].
    rewrite !stream_onmessage_other by exact Ht. split; reflexivity.
  - intros St request callbacks now before after block parsed createdStyle st
      Hb Ht.
    apply extract_blocks_skip. intros rest created st1.
    rewrite extract_blocks_eq, Hb.
    rewrite !(existsb_eqb_false _ _ _ Ht) by (cbn; tauto). reflexivity.
  - intros St cb event_data c Hc Hp Ht. unfold dispatch. rewrite Hc.
    apply cover_onmessage_other; [exact Hp| |];
      unfold is_frame; apply (type_among_false _ _ _ Ht); cbn; tauto.
Qed.

(** C7 at a frame of type [heartbeat]. *)
Lemma unknown_frame_types_witness :
  let h := rewriteWithStream (rt := example_runtime) recorder in
  dispatch h (Message example_unknown) (open_conn []) = open_conn []
  /\ extract_blocks (rt := example_runtime) example_request extract_recorder
       example_now ([] ++ sse_block example_unknown :: [sse_block example_content])
       None []
     = extract_blocks (rt := example_runtime) example_request extract_recorder
         example_now ([] ++ [sse_block example_content]) None []
  /\ dispatch (coverWithStream (rt := example_runtime) cover_recorder)
       (Message example_unknown) (open_conn [])
     = call (cover_onProgress cover_recorder
               (parseSseJson (rt := example_runtime) example_unknown))
         (open_conn []).
Proof.
  destruct (unknown_frame_types (rt := example_runtime)) as (Hs & Hx & Hc).
  split; [|split].
  - apply Hs. vm_compute. reflexivity.
  - apply (Hx _ _ _ _ _ _ _ (JsObject [("type", JsString "heartbeat")]));
      vm_compute; reflexivity.
  - apply Hc; vm_compute; reflexivity.
Defined.

(** C7, as stated, fails for cover generation: a frame whose type is
    outside every vocabulary is passed to [onProgress]. *)
Lemma cover_forwards_unknown_type :
  let parsed := parseSseJson (rt := example_runtime) example_unknown in
  type_among SSEMessage_types (get parsed "type") = false
  /\ caller (dispatch (coverWithStream (rt := example_runtime) cover_recorder)
              (Message example_unknown) (open_conn []))
     = [CallProgress (JsObject [("type", JsString "heartbeat")])].
Proof. vm_compute. split; reflexivity. Qed.

(** What the frames around a malformed one are compared with: [content]
    frames on an open stream, and the blocks of a body with one malformed
    line. *)
Section Dispatched.
Context {rt : JsRuntime}.

Lemma stream_content_run {St} (id_field : string) (cb : StreamCallbacks St)
    (frames : list string) (st : St) :
  Forall (fun d => is_frame "content" d = true) frames ->
  stream_run {| onmessage := stream_onmessage id_field cb;
                onerror := stream_onerror cb |}
    (message_events frames) (open_conn st)
  = open_conn (fold_left (fun s d => onChunk cb (delta_of d) s) frames st).
Proof.
  intros Hall. revert st. unfold stream_run.
  induction Hall as [|d frames Hd _ IH]; intros st; [reflexivity|].
  cbn [message_events map fold_left stream_step].
  unfold dispatch at 1. cbn [closed open_conn onmessage].
  rewrite stream_onmessage_content by exact Hd.
  apply (IH (onChunk cb (delta_of d) st)).
Qed.

Lemma cover_content_run {St} (cb : CoverCallbacks St)
    (frames : list string) (st : St) :
  Forall (fun d => is_frame "content" d = true) frames ->
  stream_run (coverWithStream cb) (message_events frames) (open_conn st)
  = open_conn
      (fold_left (fun s d => cover_onProgress cb (parseSseJson d) s) frames st).
Proof.
  intros Hall. revert st. unfold stream_run.
  induction Hall as [|d frames Hd _ IH]; intros st; [reflexivity|].
  cbn [message_events map fold_left stream_step].
  unfold dispatch at 1. cbn [closed open_conn].
  rewrite cover_onmessage_other;
    [apply (IH (cover_onProgress cb (parseSseJson d) st))
    |apply (is_frame_truthy _ _ Hd)
    |unfold is_frame; rewrite (is_frame_type _ _ Hd); reflexivity
    |unfold is_frame; rewrite (is_frame_type _ _ Hd); reflexivity].
Qed.

Lemma malformed_run {St} (h : Handlers St) (raw : string)
    (before after : list (option SourceEvent)) (c : Conn St) :
  push_client h ->
  JSON_parse raw = None ->
  stream_run h (before ++ Some (Message raw) :: after) c
  = stream_run h (before ++ after) c.
Proof.
  intros Hh Hp.
  assert (forall c0, dispatch h (Message raw) c0 = c0) as Hd.
  { intros c0. unfold dispatch. destruct (closed c0); [reflexivity|].
    apply malformed_dropped; assumption. }
  unfold stream_run. rewrite !fold_left_app.
  cbn [fold_left stream_step]. rewrite Hd. reflexivity.
Qed.

(** The blocks of a body whose lines hold no newline, well-formed or
    not. *)
Lemma concat_text_lines (bodies : list string) :
  Forall (fun body => no_newline body = true) bodies ->
  take_blocks (concat_text (map sse_block bodies)) =
  (map (String.append "data: ") bodies, EmptyString).
Proof.
  induction 1 as [|body bodies Hn _ IH]; [reflexivity|].
  cbn [map concat_text fold_right]. fold (concat_text (map sse_block bodies)).
  unfold sse_block at 1. rewrite !append_assoc.
  rewrite <- (append_assoc "data: " body).
  rewrite take_blocks_block by (apply no_newline_app; [reflexivity|exact Hn]).
  rewrite IH. reflexivity.
Qed.

Lemma malformed_line (raw : string) :
  no_newline raw = true ->
  JSON_parse raw = None ->
  malformed_block ("data: " +:+ raw).
Proof.
  intros Hn Hp. exists ("data: " +:+ raw). split.
  - apply find_data_line_data, Hn.
  - exact Hp.
Qed.

Lemma malformed_blocks (before after : list string) (raw : string) :
  Forall well_formed before ->
  Forall well_formed after ->
  no_newline raw = true ->
  take_blocks (concat_text (map sse_block (before ++ raw :: after))) =
  (map (String.append "data: ") before
     ++ ("data: " +:+ raw) :: map (String.append "data: ") after,
   EmptyString).
Proof.
  intros Hb Ha Hn. rewrite concat_text_lines.
  - rewrite map_app. reflexivity.
  - apply Forall_app. split; [|constructor; [exact Hn|]].
    + eapply Forall_impl; [exact Hb|]. intros body [H _]. exact H.
    + eapply Forall_impl; [exact Ha|]. intros body [H _]. exact H.
Qed.
End Dispatched.

(** C8. Malformed frames are dropped.  A message whose [data] is rejected
    by [JSON.parse] leaves a push stream exactly as it was (no callback, no
    closing), so the events around it are processed as if it had not been
    sent: the [content] frames before and after it on an open stream of
    [rewriteWithStream] or [reviewWithStream] reach [onChunk] with their
    deltas, in order, and those on a stream of [coverWithStream] reach
    [onProgress]; the stream stays open.  A block of the chunked
    transport whose [data: ] line is rejected is skipped by
    [extractStyleWithStream] and by [runFullWorkflow], and the blocks
    around it are processed as if it were not there: for a body of
    well-formed blocks with one malformed line among them, read in any
    chunks, [extractStyleWithStream] dispatches the decoded frames of the
    well-formed blocks in order and [runFullWorkflow] has them all as its
    events. *)
Theorem malformed_frames_dropped {rt : JsRuntime} :
  (forall St (h : Handlers St) (raw : string) (c : Conn St)
      (before after : list (option SourceEvent)),
      push_client h ->
      JSON_parse raw = None ->
      dispatch h (Message raw) c = c
      /\ stream_run h (before ++ Some (Message raw) :: after) c
         = stream_run h (before ++ after) c)
  /\ (forall St (request : ExtractStyleStreamRequest)
        (callbacks : ExtractStyleStreamCallbacks St) (now : string)
        (before after : list string) (block : string)
        (createdStyle : option WritingStyle) (st : St)
        (events : list JsValue),
      malformed_block block ->
      extract_blocks request callbacks now (before ++ block :: after)
        createdStyle st
      = extract_blocks request callbacks now (before ++ after) createdStyle st
      /\ workflow_blocks (before ++ block :: after) events
         = workflow_blocks (before ++ after) events)
  /\ (forall St (cb : StreamCallbacks St) (raw : string)
        (before after : list string) (st : St),
      JSON_parse raw = None ->
      Forall (fun d => is_frame "content" d = true) before ->
      Forall (fun d => is_frame "content" d = true) after ->
      let events :=
        message_events before ++ Some (Message raw) :: message_events after in
      let seen :=
        fold_left (fun s d => onChunk cb (delta_of d) s) (before ++ after) st in
      stream_run (rewriteWithStream cb) events (open_conn st) = open_conn seen
      /\ stream_run (reviewWithStream cb) events (open_conn st)
         = open_conn seen)
  /\ (forall St (cb : CoverCallbacks St) (raw : string)
        (before after : list string) (st : St),
      JSON_parse raw = None ->
      Forall (fun d => is_frame "content" d = true) before ->
      Forall (fun d => is_frame "content" d = true) after ->
      stream_run (coverWithStream cb)
        (message_events before ++ Some (Message raw) :: message_events after)
        (open_conn st)
      = open_conn
          (fold_left (fun s d => cover_onProgress cb (parseSseJson d) s)
             (before ++ after) st))
  /\ (forall St (request : ExtractStyleStreamRequest)
        (callbacks : ExtractStyleStreamCallbacks St) (now : string)
        (before after reads : list string) (raw : string) (st : St),
      Forall well_formed before ->
      Forall well_formed after ->
      no_newline raw = true ->
      JSON_parse raw = None ->
      concat_text reads
        = concat_text (map sse_block (before ++ raw :: after)) ->
      extract_read request callbacks now reads EmptyString None st
        = dispatch_frames request callbacks now
            (map parseSseJson (before ++ after)) None st
      /\ runFullWorkflow_read reads EmptyString []
         = (EmptyString, map parseSseJson (before ++ after))).
Proof.
  split; [|split; [|split; [|split]]].
  - intros St h raw c before after Hh Hp.
    assert (forall c0, dispatch h (Message raw) c0 = c0) as Hd.
    { intros c0. unfold dispatch. destruct (closed c0); [reflexivity|].
      apply malformed_dropped; assumption. }
    split; [apply Hd|]. unfold stream_run. rewrite !fold_left_app.
    cbn [fold_left stream_step]. rewrite Hd. reflexivity.
  - intros St request callbacks now before after block createdStyle st events
      Hm. apply malformed_block_frame in Hm. split.
    + apply extract_blocks_skip. intros rest created st1.
      rewrite extract_blocks_eq, Hm. reflexivity.
    + rewrite !workflow_blocks_app, workflow_blocks_eq, Hm. reflexivity.
  - intros St cb raw before after st Hp Hb Ha. cbv zeta.
    assert (Hall : Forall (fun d => is_frame "content" d = true)
                     (before ++ after))
      by (apply Forall_app; split; assumption).
    split.
    + rewrite malformed_run by (try constructor; exact Hp).
      unfold message_events. rewrite <- map_app.
      apply (stream_content_run "task_id" cb _ st Hall).
    + rewrite malformed_run by (try constructor; exact Hp).
      unfold message_events. rewrite <- map_app.
      apply (stream_content_run "review_id" cb _ st Hall).
  - intros St cb raw before after st Hp Hb Ha.
    rewrite malformed_run by (try constructor; exact Hp).
    unfold message_events. rewrite <- map_app.
    apply cover_content_run, Forall_app. split; assumption.
  - intros St request callbacks now before after reads raw st Hb Ha Hn Hp Hcat.
    pose proof (malformed_block_frame _ (malformed_line raw Hn Hp)) as Hm.
    assert (Hall : Forall well_formed (before ++ after))
      by (apply Forall_app; split; assumption).
    split.
    + rewrite extract_read_blocks by reflexivity.
      rewrite append_nil_l, Hcat, malformed_blocks by assumption.
      cbn [fst].
      rewrite (extract_blocks_skip request callbacks now)
        by (intros rest created st1; rewrite extract_blocks_eq, Hm;
            reflexivity).
      rewrite <- map_app. apply extract_blocks_frames, Hall.
    + rewrite runFullWorkflow_read_blocks by reflexivity.
      rewrite append_nil_l, Hcat, malformed_blocks by assumption.
      cbn [fst snd].
      rewrite !workflow_blocks_app, workflow_blocks_eq, Hm.
      rewrite <- workflow_blocks_app, <- map_app.
      rewrite workflow_blocks_well_formed by exact Hall. reflexivity.
Qed.

(** C8 at the text [{oops], between two [content] frames, on the three
    push streams and in a body read in two chunks. *)
Lemma malformed_frames_dropped_witness :
  let h := rewriteWithStream (rt := example_runtime) recorder in
  let events :=
    message_events [example_content]
    ++ Some (Message "{oops") :: message_events [example_content] in
  let reads :=
    [sse_block example_content +:+ "data: {oo";
     "ps" +:+ blank_line +:+ sse_block example_content] in
  caller (stream_run h
            ([Some (Message example_content)]
             ++ Some (Message "{oops") :: [Some (Message example_content)])
            (open_conn []))
  = [CallChunk "x"; CallChunk "x"]
  /\ workflow_blocks (rt := example_runtime)
       ([sse_block example_content] ++ sse_block "{oops"
          :: [sse_block example_content]) []
     = workflow_blocks (rt := example_runtime)
         ([sse_block example_content] ++ [sse_block example_content]) []
  /\ stream_run (reviewWithStream (rt := example_runtime) recorder) events
       (open_conn [])
     = open_conn [CallChunk "x"; CallChunk "x"]
  /\ stream_run (coverWithStream (rt := example_runtime) cover_recorder)
       events (open_conn [])
     = open_conn
         [CallProgress (JsObject [("type", JsString "content");
                                  ("delta", JsString "x")]);
          CallProgress (JsObject [("type", JsString "content");
                                  ("delta", JsString "x")])]
  /\ extract_read (rt := example_runtime) example_request extract_recorder
       example_now reads EmptyString None []
     = ([CallChunk "x"; CallChunk "x"], inr None)
  /\ runFullWorkflow_read (rt := example_runtime) reads EmptyString []
     = (EmptyString,
        [JsObject [("type", JsString "content"); ("delta", JsString "x")];
         JsObject [("type", JsString "content"); ("delta", JsString "x")]]).
Proof.
  cbv zeta.
  destruct (malformed_frames_dropped (rt := example_runtime))
    as (Hpush & Hblock & Hstream & Hcover & Hwire).
  assert (Hcontent : Forall (fun d => is_frame (rt := example_runtime)
                                        "content" d = true)
                       [example_content]) by (repeat constructor).
  assert (Hwf : Forall (well_formed (rt := example_runtime))
                  [example_content]) by (repeat constructor).
  destruct (Hwire _ example_request extract_recorder example_now
              [example_content] [example_content]
              [sse_block example_content +:+ "data: {oo";
               "ps" +:+ blank_line +:+ sse_block example_content]
              "{oops"%string [] Hwf Hwf eq_refl eq_refl eq_refl)
    as [Hextract Hworkflow].
  split; [|split; [|split; [|split; [|split]]]];
    [| |exact (proj2 (Hstream _ recorder "{oops"%string [example_content]
                        [example_content] [] eq_refl Hcontent Hcontent))
     |exact (Hcover _ cover_recorder "{oops"%string [example_content]
               [example_content] [] eq_refl Hcontent Hcontent)
     |rewrite Hextract; reflexivity
     |exact Hworkflow].
  - destruct (Hpush _ (rewriteWithStream (rt := example_runtime) recorder)
                "{oops"%string (open_conn [])
                [Some (Message example_content)]
                [Some (Message example_content)]) as [_ Hrun];
      [constructor|reflexivity|].
    cbv zeta. rewrite Hrun. reflexivity.
  - apply (Hblock _ example_request extract_recorder example_now
             [sse_block example_content] [sse_block example_content]
             (sse_block "{oops") None [] []).
    exists "data: {oops"%string. split; reflexivity.
Defined.

(** ** Sessions of the promise wrappers *)

Lemma call_id {St} (c : Conn St) : call (fun s => s) c = c.
Proof. destruct c. reflexivity. Qed.


Lemma resolve_settled {A} (value : A) (p : Promise A) :
  is_settled p = true -> resolve value p = p.
Proof. destruct p; [discriminate|reflexivity..]. Qed.

Lemma reject_settled {A} (reason : JsError) (p : Promise A) :
  is_settled p = true -> reject reason p = p.
Proof. destruct p; [discriminate|reflexivity..]. Qed.

Lemma same_outcome_refl {R} (s : Starter R) : same_outcome s s.
Proof. repeat split. Qed.

Lemma same_outcome_fresh {R} (s s' : Starter R) :
  same_outcome s s' -> fresh s -> fresh s'.
Proof. intros (H1 & H2 & H3) (F1 & F2 & F3). repeat split; congruence. Qed.

Lemma resume_nothing_awaited {R} (i : nat) (response : Response R)
    (s : Starter R) :
  awaiting s = [] -> resume i response s = s.
Proof. unfold resume. intros ->. reflexivity. Qed.

Lemma resume_promise {R} (i : nat) (response : Response R) (s : Starter R) :
  is_settled (promise s) = true -> promise (resume i response s) = promise s.
Proof.
  intros Hs. unfold resume. destruct (awaiting s !! i); [|reflexivity].
  destruct response; cbn; [apply resolve_settled|apply reject_settled]; exact Hs.
Qed.

Lemma starter_onError_promise {R} (error : string) (s : Starter R) :
  is_settled (promise s) = true -> promise (starter_onError error s) = promise s.
Proof.
  intros Hs. unfold starter_onError. destruct (settled s); [reflexivity|].
  cbn. apply reject_settled, Hs.
Qed.

Lemma starter_onError_awaiting {R} (error : string) (s : Starter R) :
  awaiting (starter_onError error s) = awaiting s.
Proof. unfold starter_onError. destruct (settled s); reflexivity. Qed.

Lemma starter_onDone_promise {R} (message : string) (data : JsValue)
    (s : Starter R) :
  is_settled (promise s) = true ->
  promise (starter_onDone message data s) = promise s.
Proof.
  intros Hs. unfold starter_onDone. destruct (settled s); [reflexivity|].
  destruct (taskId s) as [id|]; [destruct (negb (num_truthy id))|]; cbn;
    try reflexivity; apply reject_settled, Hs.
Qed.

Section StreamStarter.
Context {rt : JsRuntime} {R : Type}.
Variables (id_field message : string).

Let h : Handlers (Starter R) :=
  {| onmessage := stream_onmessage id_field (starter_callbacks message);
     onerror := stream_onerror (starter_callbacks message) |}.

Lemma stream_frame_cases (event_data : string) :
  is_frame "content" event_data = true
  \/ is_frame "start" event_data = true
  \/ is_frame "done" event_data = true
  \/ is_frame "error" event_data = true
  \/ type_among stream_cases (get (parseSseJson event_data) "type") = false.
Proof.
  unfold type_among, stream_cases, is_frame. cbn [existsb].
  destruct (is_string _ "content"); [tauto|].
  destruct (is_string _ "start"); [tauto|].
  destruct (is_string _ "done"); [tauto|].
  destruct (is_string _ "error"); tauto.
Qed.

Lemma is_frame_excl (a b event_data : string) :
  is_frame a event_data = true -> a <> b -> is_frame b event_data = false.
Proof.
  intros Ha Hab. unfold is_frame. rewrite (is_frame_type _ _ Ha). cbn.
  apply String.eqb_neq, Hab.
Qed.

(** A frame that is not terminal changes at most [taskId]. *)
Lemma starter_message (event_data : string) (c : Conn (Starter R)) :
  is_terminal event_data = false ->
  closed (onmessage h event_data c) = closed c
  /\ same_outcome (caller c) (caller (onmessage h event_data c)).
Proof.
  unfold is_terminal. intros Ht. apply orb_false_elim in Ht as [Hd He].
  cbn [onmessage h].
  destruct (stream_frame_cases event_data) as [Hf|[Hf|[Hf|[Hf|Hf]]]];
    try congruence.
  - rewrite stream_onmessage_content by exact Hf.
    split; [reflexivity|apply same_outcome_refl].
  - rewrite stream_onmessage_start by exact Hf. cbv zeta.
    destruct (gt_zero _); (split; [reflexivity|]);
      [repeat split|apply same_outcome_refl].
  - rewrite stream_onmessage_other by exact Hf.
    split; [reflexivity|apply same_outcome_refl].
Qed.

Lemma starter_message_promise (event_data : string) (c : Conn (Starter R)) :
  is_settled (promise (caller c)) = true ->
  promise (caller (onmessage h event_data c)) = promise (caller c).
Proof.
  intros Hs. cbn [onmessage h].
  destruct (stream_frame_cases event_data) as [Hf|[Hf|[Hf|[Hf|Hf]]]].
  - rewrite stream_onmessage_content by exact Hf. reflexivity.
  - rewrite stream_onmessage_start by exact Hf. cbv zeta.
    destruct (gt_zero _); reflexivity.
  - rewrite stream_onmessage_done by exact Hf.
    apply starter_onDone_promise, Hs.
  - rewrite stream_onmessage_error by exact Hf.
    apply starter_onError_promise, Hs.
  - rewrite stream_onmessage_other by exact Hf. reflexivity.
Qed.

Lemma starter_message_awaiting (event_data : string) (c : Conn (Starter R)) :
  is_frame "done" event_data = false ->
  awaiting (caller (onmessage h event_data c)) = awaiting (caller c).
Proof.
  intros Hd. cbn [onmessage h].
  destruct (stream_frame_cases event_data) as [Hf|[Hf|[Hf|[Hf|Hf]]]];
    try congruence.
  - rewrite stream_onmessage_content by exact Hf. reflexivity.
  - rewrite stream_onmessage_start by exact Hf. cbv zeta.
    destruct (gt_zero _); reflexivity.
  - rewrite stream_onmessage_error by exact Hf.
    apply starter_onError_awaiting.
  - rewrite stream_onmessage_other by exact Hf. reflexivity.
Qed.
End StreamStarter.

Section CoverStarter.
Context {rt : JsRuntime}.

Lemma startCover_onDone_promise (data : JsValue) (s : Starter CoverRecord) :
  is_settled (promise s) = true ->
  promise (startCover_onDone data s) = promise s.
Proof.
  intros Hs. unfold startCover_onDone. destruct (settled s); [reflexivity|].
  cbv zeta. destruct (negb _); cbn; [apply reject_settled, Hs|reflexivity].
Qed.

Lemma cover_frame_cases (event_data : string) :
  is_frame "error" event_data = true
  \/ is_frame "done" event_data = true
  \/ (is_terminal event_data = false
      /\ ToBoolean (parseSseJson event_data) = true)
  \/ ToBoolean (parseSseJson event_data) = false.
Proof.
  unfold is_terminal.
  destruct (is_frame "error" event_data); [tauto|].
  destruct (is_frame "done" event_data); [tauto|].
  destruct (ToBoolean (parseSseJson event_data)); tauto.
Qed.

Lemma cover_message (event_data : string) (c : Conn (Starter CoverRecord)) :
  is_terminal event_data = false ->
  onmessage (coverWithStream startCover_callbacks) event_data c = c.
Proof.
  intros Ht.
  destruct (cover_frame_cases event_data) as [Hf|[Hf|[[_ Hf]|Hf]]].
  - unfold is_terminal in Ht. rewrite Hf, orb_true_r in Ht. discriminate.
  - unfold is_terminal in Ht. rewrite Hf in Ht. discriminate.
  - unfold is_terminal in Ht. apply orb_false_elim in Ht as [Hd He].
    rewrite cover_onmessage_other by assumption. apply call_id.
  - apply cover_onmessage_falsy, Hf.
Qed.

Lemma cover_message_promise (event_data : string)
    (c : Conn (Starter CoverRecord)) :
  is_settled (promise (caller c)) = true ->
  promise (caller (onmessage (coverWithStream startCover_callbacks)
                     event_data c)) = promise (caller c).
Proof.
  intros Hs.
  destruct (is_terminal event_data) eqn:Ht;
    [|rewrite cover_message by exact Ht; reflexivity].
  unfold is_terminal in Ht. apply orb_prop in Ht as [Hf|Hf].
  - rewrite cover_onmessage_done by exact Hf.
    apply startCover_onDone_promise, Hs.
  - rewrite cover_onmessage_error by exact Hf.
    apply starter_onError_promise, Hs.
Qed.

Lemma cover_message_awaiting (event_data : string)
    (c : Conn (Starter CoverRecord)) :
  is_frame "done" event_data = false ->
  awaiting (caller (onmessage (coverWithStream startCover_callbacks)
                      event_data c)) = awaiting (caller c).
Proof.
  intros Hd.
  destruct (is_terminal event_data) eqn:Ht;
    [|rewrite cover_message by exact Ht; reflexivity].
  unfold is_terminal in Ht. apply orb_prop in Ht as [Hf|Hf]; [congruence|].
  rewrite cover_onmessage_error by exact Hf. apply starter_onError_awaiting.
Qed.
End CoverStarter.

Section Session.
Context {rt : JsRuntime} {R : Type} (h : Handlers (Starter R)).

Hypothesis h_ok : session_client h.

Let h_terminal := client_terminal h h_ok.
Let h_message := client_message h h_ok.
Let h_promise := client_promise h h_ok.
Let h_awaiting := client_awaiting h h_ok.
Let h_onerror := client_onerror h h_ok.

Local Abbreviation run := (fold_left (session_step h)).

Lemma session_closed_mono (later : list (Event R)) (c : Conn (Starter R)) :
  closed c = true -> closed (run later c) = true.
Proof.
  revert c. induction later as [|[ev| |i response] later IH]; intros c Hc;
    cbn [fold_left session_step]; [exact Hc|apply IH..].
  - rewrite dispatch_closed by exact Hc. exact Hc.
  - reflexivity.
  - exact Hc.
Qed.




Lemma session_step_open (e : Event R) (c : Conn (Starter R)) :
  (closed c = false -> fresh (caller c)) ->
  closed (session_step h c e) = false ->
  fresh (caller (session_step h c e)).
Proof.
  intros Hi. destruct e as [[event_data|]| |i response];
    cbn [session_step].
  - unfold dispatch. destruct (closed c) eqn:Hc; [congruence|].
    destruct (is_terminal event_data) eqn:Ht.
    + rewrite (h_terminal event_data c Ht). discriminate.
    + intros _. apply (same_outcome_fresh (caller c)); [|apply Hi; reflexivity].
      apply h_message, Ht.
  - unfold dispatch. destruct (closed c) eqn:Hc; [congruence|].
    rewrite h_onerror. discriminate.
  - discriminate.
  - cbn. intros Hc. rewrite resume_nothing_awaited; [apply Hi, Hc|].
    apply Hi, Hc.
Qed.

(** While the connection is open, the wrapper is fresh. *)
Lemma session_open_fresh (events : list (Event R)) (c : Conn (Starter R)) :
  (closed c = false -> fresh (caller c)) ->
  closed (run events c) = false -> fresh (caller (run events c)).
Proof.
  revert c. induction events as [|e events IH]; intros c Hi; [exact Hi|].
  cbn [fold_left]. apply IH. apply session_step_open, Hi.
Qed.

Lemma session_step_promise (e : Event R) (c : Conn (Starter R)) :
  is_settled (promise (caller c)) = true ->
  promise (caller (session_step h c e)) = promise (caller c).
Proof.
  intros Hs. destruct e as [[event_data|]| |i response]; cbn [session_step].
  - unfold dispatch. destruct (closed c); [reflexivity|]. apply h_promise, Hs.
  - unfold dispatch. destruct (closed c); [reflexivity|].
    rewrite h_onerror. apply starter_onError_promise, Hs.
  - reflexivity.
  - apply resume_promise, Hs.
Qed.

(** A settled promise keeps its value. *)
Lemma session_promise_stable (later : list (Event R)) (c : Conn (Starter R)) :
  is_settled (promise (caller c)) = true ->
  promise (caller (run later c)) = promise (caller c).
Proof.
  revert c. induction later as [|e later IH]; intros c Hs; [reflexivity|].
  cbn [fold_left]. rewrite IH; rewrite session_step_promise; auto.
Qed.

(** A record is requested by a [done] frame only. *)
Lemma session_no_request (events : list (Event R)) (c : Conn (Starter R)) :
  Forall (fun e => is_done_event e = false) events ->
  awaiting (caller c) = [] -> awaiting (caller (run events c)) = [].
Proof.
  intros Hall. revert c. induction Hall as [|e events He _ IH]; intros c Ha;
    [exact Ha|].
  cbn [fold_left]. apply IH.
  destruct e as [[event_data|]| |i response];
    cbn [session_step is_done_event] in *.
  - unfold dispatch. destruct (closed c); [exact Ha|].
    rewrite h_awaiting by exact He. exact Ha.
  - unfold dispatch. destruct (closed c); [exact Ha|].
    rewrite h_onerror. cbn. rewrite starter_onError_awaiting. exact Ha.
  - exact Ha.
  - cbn. rewrite resume_nothing_awaited; exact Ha.
Qed.


(** A connection error on an open connection rejects with the generic
    message and closes. *)
Lemma session_connection_error (before : list (Event R)) :
  closed (run before session_init) = false ->
  let s := run (before ++ [Source ConnectionError]) session_init in
  closed s = true /\ promise (caller s) = Rejected (Error "Connection error").
Proof.
  intros Hc. cbv zeta. rewrite fold_left_app. cbn [fold_left session_step].
  unfold dispatch. rewrite Hc, h_onerror.
  destruct (session_open_fresh before session_init) as (Hs & Hp & _);
    [intros _; repeat split|exact Hc|].
  cbn. unfold starter_onError. rewrite Hs. cbn. rewrite Hp.
  split; reflexivity.
Qed.
End Session.

(** The three wrappers meet the assumptions of the section above. *)
Section Clients.
Context {rt : JsRuntime}.

Lemma starter_client {R} (id_field message : string) :
  session_client (R := R)
    {| onmessage := stream_onmessage id_field (starter_callbacks message);
       onerror := stream_onerror (starter_callbacks message) |}.
Proof.
  constructor.
  - intros event_data c Ht. unfold is_terminal in Ht.
    apply orb_prop in Ht as [Hf|Hf]; cbn [onmessage].
    + rewrite stream_onmessage_done by exact Hf. reflexivity.
    + rewrite stream_onmessage_error by exact Hf. reflexivity.
  - apply starter_message.
  - apply starter_message_promise.
  - apply starter_message_awaiting.
  - reflexivity.
Qed.

Lemma startRewrite_client :
  session_client (rewriteWithStream startRewrite_callbacks).
Proof. apply (starter_client "task_id" "未获取到改写任务ID"). Qed.

Lemma startReview_client :
  session_client (reviewWithStream startReview_callbacks).
Proof. apply (starter_client "review_id" "未获取到审核ID"). Qed.

Lemma startCover_client :
  session_client (coverWithStream startCover_callbacks).
Proof.
  constructor.
  - intros event_data c Ht. apply terminal_closes; [constructor|exact Ht].
  - intros event_data c Hnt. rewrite (cover_message _ _ Hnt).
    split; [reflexivity|apply same_outcome_refl].
  - apply cover_message_promise.
  - apply cover_message_awaiting.
  - reflexivity.
Qed.
End Clients.

(** ** The rewrite call site *)

Lemma page_inv_at_most_one (p : HomePage) : page_inv p -> at_most_one_open p.
Proof.
  intros Hinv i j Hi Hj. apply Hinv in Hi, Hj. congruence.
Qed.

Lemma close_current_sources (p : HomePage) (i : nat) :
  page_inv p -> sources (close_current p) !! i <> Some false.
Proof.
  intros Hinv. unfold close_current.
  destruct (eventSourceRef p) as [j|] eqn:Hr; cbn [sources].
  - intros Hi. apply list_lookup_insert_Some in Hi as [(_ & Hx & _)|[Hne Hi]];
      [discriminate|].
    apply Hinv in Hi. congruence.
  - intros Hi. apply Hinv in Hi. congruence.
Qed.

Lemma close_current_length (p : HomePage) :
  length (sources (close_current p)) = length (sources p).
Proof.
  unfold close_current. destruct (eventSourceRef p); cbn [sources];
    [apply length_insert|reflexivity].
Qed.

Lemma none_open_inv (p : HomePage) : none_open p -> page_inv p.
Proof. intros Hn i Hi. destruct (Hn i Hi). Qed.

Lemma open_stream_inv (p : HomePage) : none_open p -> page_inv (open_stream p).
Proof.
  intros Hn i. unfold open_stream. cbn [sources eventSourceRef].
  intros Hi. apply lookup_app_Some in Hi as [Hi|[Hlen Hi]].
  - destruct (Hn i Hi).
  - apply list_lookup_singleton_Some in Hi as [Hi _].
    f_equal. lia.
Qed.

Lemma handleRewrite_unfold (p : HomePage) :
  handleRewrite_guard (view p) = false ->
  handleRewrite p =
  open_stream
    {| view := setResultWordCount (Int 0)
                 (setRewrittenContent EmptyString
                    (setIsLoading true (view (close_current p))));
       sources := sources (close_current p);
       eventSourceRef := eventSourceRef (close_current p) |}.
Proof. unfold handleRewrite. intros ->. reflexivity. Qed.

Lemma handleRewrite_inv (p : HomePage) : page_inv p -> page_inv (handleRewrite p).
Proof.
  intros Hinv. destruct (handleRewrite_guard (view p)) eqn:Hg.
  - unfold handleRewrite. rewrite Hg. exact Hinv.
  - rewrite handleRewrite_unfold by exact Hg. apply open_stream_inv.
    intros i. cbn [sources]. apply close_current_sources, Hinv.
Qed.

Lemma handleCancel_none_open (p : HomePage) :
  page_inv p -> none_open (handleCancel p).
Proof.
  intros Hinv i. unfold handleCancel.
  destruct (eventSourceRef p) as [j|] eqn:Hr; cbn [sources].
  - apply close_current_sources, Hinv.
  - intros Hi. apply Hinv in Hi. congruence.
Qed.


Section Page.
Context {rt : JsRuntime} {env : PageEnv}.

Lemma dispatch_stays_closed {St} (h : Handlers St) (ev : SourceEvent)
    (c : Conn St) :
  closed (dispatch h ev c) = false -> closed c = false.
Proof.
  destruct (closed c) eqn:Hc; [|reflexivity].
  rewrite dispatch_closed by exact Hc. congruence.
Qed.

Lemma deliver_inv (i : nat) (ev : SourceEvent) (p : HomePage) :
  page_inv p -> page_inv (deliver i ev p).
Proof.
  intros Hinv. unfold deliver.
  destruct (sources p !! i) as [flag|] eqn:Hi; [|exact Hinv].
  intros j. cbn [sources eventSourceRef]. intros Hj.
  apply list_lookup_insert_Some in Hj as [(<- & Hx & _)|[Hne Hj]].
  - apply dispatch_stays_closed in Hx. cbn in Hx. subst flag.
    apply Hinv, Hi.
  - apply Hinv, Hj.
Qed.


Lemma page_step_inv (p : HomePage) (e : PageEvent) :
  page_inv p -> page_inv (page_step p e).
Proof.
  intros Hinv. destruct e as [| | |source styleId target|i ev];
    cbn [page_step].
  - apply handleRewrite_inv, Hinv.
  - apply none_open_inv, handleCancel_none_open, Hinv.
  - apply none_open_inv. intros i. apply close_current_sources, Hinv.
  - exact Hinv.
  - apply deliver_inv, Hinv.
Qed.

Lemma page_run_inv (events : list PageEvent) : page_inv (page_run events).
Proof.
  unfold page_run.
  assert (page_inv page_init) as Hinit by (intros i Hi; discriminate).
  revert Hinit. generalize page_init.
  induction events as [|e events IH]; intros p Hp; [exact Hp|].
  cbn [fold_left]. apply IH, page_step_inv, Hp.
Qed.
End Page.

(** C5. Single-flight replacement at the rewrite call site of the page.
    In every state the page can reach at most one of the [EventSource]s
    it has created is open.  When [handleRewrite] starts a stream, it
    first closes the one in [eventSourceRef]: in the state it opens the
    new connection from, none is open, and the new connection is the only
    open one afterwards. *)
Theorem single_flight_replacement {rt : JsRuntime} {env : PageEnv}
    (events : list PageEvent) :
  let p := page_run events in
  at_most_one_open p
  /\ (handleRewrite_guard (view p) = false ->
      none_open (close_current p)
      /\ sources (handleRewrite p) = sources (close_current p) ++ [false]
      /\ eventSourceRef (handleRewrite p) = Some (length (sources p))
      /\ at_most_one_open (handleRewrite p)).
Proof.
  cbv zeta. pose proof (page_run_inv events) as Hinv.
  split; [apply page_inv_at_most_one, Hinv|].
  intros Hg. split; [intros i; apply close_current_sources, Hinv|].
  assert (at_most_one_open (handleRewrite (page_run events))) as Hone
    by apply page_inv_at_most_one, handleRewrite_inv, Hinv.
  rewrite handleRewrite_unfold in * by exact Hg. unfold open_stream in *.
  cbn [sources eventSourceRef] in *. split; [reflexivity|].
  split; [|exact Hone].
  f_equal. apply close_current_length.
Qed.

(** C5 at a second click on the rewrite button while the first stream
    has delivered one [content] frame. *)
Lemma single_flight_replacement_witness :
  let events :=
    [EditForm "hello world" (Some 1%Z) 500%Z; ClickRewrite;
     Deliver 0 (Message example_content)] in
  let p := page_run (rt := example_runtime) (env := example_page_env) events in
  sources p = [false]
  /\ handleRewrite_guard (view p) = false
  /\ sources (close_current p) = [true]
  /\ none_open (close_current p)
  /\ sources (handleRewrite p) = sources (close_current p) ++ [false].
Proof.
  cbv zeta.
  split; [reflexivity|]. split; [reflexivity|]. split; [reflexivity|].
  destruct (single_flight_replacement (rt := example_runtime)
              (env := example_page_env)
              [EditForm "hello world" (Some 1%Z) 500%Z; ClickRewrite;
               Deliver 0 (Message example_content)]) as [_ Hstart].
  destruct (Hstart eq_refl) as (Hnone & Hsources & _).
  split; [exact Hnone|exact Hsources].
Defined.



(** C9. Error propagation.  When an [error] frame reaches a session whose
    connection is open, the promise is rejected with
    [String(data.message || "Unknown error")] (for cover, with the
    [error] field as a second choice), which is the message the server
    supplied when that is a string that is not empty; when the transport
    reports an error, the promise is rejected with [Connection error]; in
    both cases the connection is closed. *)
Theorem error_propagation {rt : JsRuntime} :
  (forall (before : list (Event RewriteRecord)) (event_data : string),
      closed (startRewrite before) = false ->
      is_frame "error" event_data = true ->
      let s := startRewrite (before ++ [Source (Message event_data)]) in
      closed s = true
      /\ promise (caller s)
         = Rejected (Error (ToString
             (js_or (get (parseSseJson event_data) "message")
                (JsString "Unknown error"))))
      /\ forall m, get (parseSseJson event_data) "message" = JsString m ->
                   m <> EmptyString ->
                   promise (caller s) = Rejected (Error m))
  /\ (forall (before : list (Event ReviewRecord)) (event_data : string),
      closed (startReview before) = false ->
      is_frame "error" event_data = true ->
      let s := startReview (before ++ [Source (Message event_data)]) in
      closed s = true
      /\ promise (caller s)
         = Rejected (Error (ToString
             (js_or (get (parseSseJson event_data) "message")
                (JsString "Unknown error"))))
      /\ forall m, get (parseSseJson event_data) "message" = JsString m ->
                   m <> EmptyString ->
                   promise (caller s) = Rejected (Error m))
  /\ (forall (before : list (Event CoverRecord)) (event_data : string),
      closed (startCover before) = false ->
      is_frame "error" event_data = true ->
      let s := startCover (before ++ [Source (Message event_data)]) in
      closed s = true
      /\ promise (caller s)
         = Rejected (Error (ToString
             (js_or (get (parseSseJson event_data) "message")
                (js_or (get (parseSseJson event_data) "error")
                   (JsString "Unknown error")))))
      /\ forall m, get (parseSseJson event_data) "message" = JsString m ->
                   m <> EmptyString ->
                   promise (caller s) = Rejected (Error m))
  /\ (forall before : list (Event RewriteRecord),
      closed (startRewrite before) = false ->
      let s := startRewrite (before ++ [Source ConnectionError]) in
      closed s = true
      /\ promise (caller s) = Rejected (Error "Connection error"))
  /\ (forall before : list (Event ReviewRecord),
      closed (startReview before) = false ->
      let s := startReview (before ++ [Source ConnectionError]) in
      closed s = true
      /\ promise (caller s) = Rejected (Error "Connection error"))
  /\ (forall before : list (Event CoverRecord),
      closed (startCover before) = false ->
      let s := startCover (before ++ [Source ConnectionError]) in
      closed s = true
      /\ promise (caller s) = Rejected (Error "Connection error")).
Proof.
  assert (Hmsg : forall (m : string) (other : JsValue),
             m <> EmptyString -> js_or (JsString m) other = JsString m).
  { intros m other Hm. unfold js_or. cbn.
    destruct (String.eqb_spec m ""); [contradiction|reflexivity]. }
  split; [|split; [|split; [|split; [|split]]]].
  - intros before event_data Hc He. cbv zeta. unfold startRewrite in *.
    rewrite fold_left_app. cbn [fold_left session_step]. unfold dispatch.
    rewrite Hc. cbn [onmessage rewriteWithStream].
    rewrite stream_onmessage_error by exact He.
    destruct (session_open_fresh _ startRewrite_client before session_init)
      as (Hs & Hp & _); [intros _; repeat split|exact Hc|].
    cbn. unfold starter_onError. rewrite Hs. cbn. rewrite Hp.
    split; [reflexivity|]. split; [reflexivity|].
    intros m Hm Hne. rewrite Hm, Hmsg by exact Hne. reflexivity.
  - intros before event_data Hc He. cbv zeta. unfold startReview in *.
    rewrite fold_left_app. cbn [fold_left session_step]. unfold dispatch.
    rewrite Hc. cbn [onmessage reviewWithStream].
    rewrite stream_onmessage_error by exact He.
    destruct (session_open_fresh _ startReview_client before session_init)
      as (Hs & Hp & _); [intros _; repeat split|exact Hc|].
    cbn. unfold starter_onError. rewrite Hs. cbn. rewrite Hp.
    split; [reflexivity|]. split; [reflexivity|].
    intros m Hm Hne. rewrite Hm, Hmsg by exact Hne. reflexivity.
  - intros before event_data Hc He. cbv zeta. unfold startCover in *.
    rewrite fold_left_app. cbn [fold_left session_step]. unfold dispatch.
    rewrite Hc. rewrite cover_onmessage_error by exact He.
    destruct (session_open_fresh _ startCover_client before session_init)
      as (Hs & Hp & _); [intros _; repeat split|exact Hc|].
    cbn. unfold starter_onError. rewrite Hs. cbn. rewrite Hp.
    split; [reflexivity|]. split; [reflexivity|].
    intros m Hm Hne. rewrite Hm, Hmsg by exact Hne. reflexivity.
  - intros before. apply session_connection_error, startRewrite_client.
  - intros before. apply session_connection_error, startReview_client.
  - intros before. apply session_connection_error, startCover_client.
Qed.

(** C9 at an [error] frame with a message, and at a connection error,
    after a [start] and a [content] frame. *)
Lemma error_propagation_witness :
  let before :=
    [Source (Message (JSON_stringify scenario_start));
     Source (Message example_content)] in
  promise (caller (startRewrite (rt := example_runtime)
                     (before ++ [Source (Message example_error)])))
  = Rejected (Error "model overloaded")
  /\ promise (caller (startRewrite (rt := example_runtime)
                        (before ++ [Source ConnectionError])))
     = Rejected (Error "Connection error").
Proof.
  destruct (error_propagation (rt := example_runtime))
    as (Hframe & _ & _ & Htransport & _).
  split.
  - apply Hframe; [reflexivity|reflexivity| |discriminate].
    reflexivity.
  - apply Htransport. reflexivity.
Defined.

(** ** Settlement *)

Section Settlement.
Context {rt : JsRuntime}.

Lemma invoke_promise {R} (message : string) (s : Starter R)
    (inv : Invocation R) :
  is_settled (promise s) = true ->
  promise (invoke (starter_callbacks message) s inv) = promise s.
Proof.
  intros Hs. destruct inv as [delta|error|data|id|i response]; cbn [invoke].
  - reflexivity.
  - apply starter_onError_promise, Hs.
  - apply starter_onDone_promise, Hs.
  - reflexivity.
  - apply resume_promise, Hs.
Qed.

Lemma cover_invoke_promise (s : Starter CoverRecord) (inv : CoverInvocation) :
  is_settled (promise s) = true -> promise (cover_invoke s inv) = promise s.
Proof.
  intros Hs. destruct inv as [data|error|data|i response]; cbn [cover_invoke].
  - reflexivity.
  - apply starter_onError_promise, Hs.
  - apply startCover_onDone_promise, Hs.
  - apply resume_promise, Hs.
Qed.

Lemma invocations_promise {R} (message : string)
    (later : list (Invocation R)) (s : Starter R) :
  is_settled (promise s) = true ->
  promise (fold_left (invoke (starter_callbacks message)) later s) = promise s.
Proof.
  revert s. induction later as [|inv later IH]; intros s Hs; [reflexivity|].
  cbn [fold_left]. rewrite IH; rewrite invoke_promise; auto.
Qed.

Lemma cover_invocations_promise (later : list CoverInvocation)
    (s : Starter CoverRecord) :
  is_settled (promise s) = true ->
  promise (fold_left cover_invoke later s) = promise s.
Proof.
  revert s. induction later as [|inv later IH]; intros s Hs; [reflexivity|].
  cbn [fold_left]. rewrite IH; rewrite cover_invoke_promise; auto.
Qed.
End Settlement.

(** C10. At-most-once settlement.  Once the promise of [startRewrite],
    [startReview] or [startCover] is settled, no invocation of the
    wrapper's callbacks and no response to a record request, in any order
    and any number, changes its value: neither when the callbacks are
    invoked directly, nor through the events of a session. *)
Theorem at_most_once_settlement {rt : JsRuntime} :
  (forall (s : Starter RewriteRecord) (later : list (Invocation RewriteRecord)),
      is_settled (promise s) = true ->
      promise (fold_left (invoke startRewrite_callbacks) later s) = promise s)
  /\ (forall (s : Starter ReviewRecord) (later : list (Invocation ReviewRecord)),
      is_settled (promise s) = true ->
      promise (fold_left (invoke startReview_callbacks) later s) = promise s)
  /\ (forall (s : Starter CoverRecord) (later : list CoverInvocation),
      is_settled (promise s) = true ->
      promise (fold_left cover_invoke later s) = promise s)
  /\ (forall before later : list (Event RewriteRecord),
      is_settled (promise (caller (startRewrite before))) = true ->
      promise (caller (startRewrite (before ++ later)))
      = promise (caller (startRewrite before)))
  /\ (forall before later : list (Event ReviewRecord),
      is_settled (promise (caller (startReview before))) = true ->
      promise (caller (startReview (before ++ later)))
      = promise (caller (startReview before)))
  /\ (forall before later : list (Event CoverRecord),
      is_settled (promise (caller (startCover before))) = true ->
      promise (caller (startCover (before ++ later)))
      = promise (caller (startCover before))).
Proof.
  split; [|split; [|split; [|split; [|split]]]].
  - intros s later. apply (invocations_promise "未获取到改写任务ID").
  - intros s later. apply (invocations_promise "未获取到审核ID").
  - intros s later. apply cover_invocations_promise.
  - intros before later Hs. unfold startRewrite in *. rewrite fold_left_app.
    apply session_promise_stable; [apply startRewrite_client|exact Hs].
  - intros before later Hs. unfold startReview in *. rewrite fold_left_app.
    apply session_promise_stable; [apply startReview_client|exact Hs].
  - intros before later Hs. unfold startCover in *. rewrite fold_left_app.
    apply session_promise_stable; [apply startCover_client|exact Hs].
Qed.

(** C10 at [onStart] and [onDone], then [onError] while the record
    request is awaited, then the response, a second [onDone] and a second
    [onError]. *)
Lemma at_most_once_settlement_witness :
  let s :=
    fold_left (invoke startRewrite_callbacks)
      [InvokeStart (Int 42); InvokeDone scenario_done;
       InvokeError "Connection error"] starter_init in
  promise s = Rejected (Error "Connection error")
  /\ promise (fold_left (invoke startRewrite_callbacks)
                [InvokeResume 0 (Ok example_record); InvokeDone scenario_done;
                 InvokeError "again"] s)
     = promise s.
Proof.
  split; [reflexivity|].
  apply (proj1 (at_most_once_settlement (rt := example_runtime))).
  reflexivity.
Defined.

(** ** A stream that ends without an id *)

Section MissingId.
Context {rt : JsRuntime}.

Lemma starter_contents {R} (id_field message : string)
    (contents : list string) (c : Conn (Starter R)) :
  Forall (fun event_data => is_frame "content" event_data = true) contents ->
  closed c = false ->
  fold_left
    (session_step
       {| onmessage := stream_onmessage id_field (starter_callbacks message);
          onerror := stream_onerror (starter_callbacks message) |})
    (messages contents) c = c.
Proof.
  intros Hall Hc. induction Hall as [|event_data contents Hf _ IH];
    [reflexivity|].
  cbn [messages map fold_left session_step]. unfold dispatch. rewrite Hc.
  cbn [onmessage]. rewrite stream_onmessage_content by exact Hf.
  rewrite call_id. exact IH.
Qed.

Lemma starter_missing_id {R} (id_field message : string)
    (start done : string) (contents : list string) (later : list (Event R)) :
  is_frame "start" start = true ->
  get (parseSseJson start) id_field = JsUndefined ->
  Forall (fun event_data => is_frame "content" event_data = true) contents ->
  is_frame "done" done = true ->
  let s :=
    fold_left
      (session_step
         {| onmessage := stream_onmessage id_field (starter_callbacks message);
            onerror := stream_onerror (starter_callbacks message) |})
      (messages (start :: contents ++ [done]) ++ later) session_init in
  closed s = true /\ promise (caller s) = Rejected (Error message).
Proof.
  intros Hstart Hid Hcontents Hdone. cbv zeta.
  set (h := {| onmessage := stream_onmessage id_field (starter_callbacks message);
               onerror := stream_onerror (starter_callbacks message) |}).
  assert (session_step h session_init (Source (Message start)) = session_init)
    as Hs1.
  { cbn [session_step]. unfold dispatch. cbn [closed session_init onmessage h].
    rewrite stream_onmessage_start by exact Hstart. cbv zeta. rewrite Hid.
    reflexivity. }
  assert (session_step h session_init (Source (Message done)) =
          close (call (settle_reject (Error message)) session_init)) as Hs2.
  { cbn [session_step]. unfold dispatch. cbn [closed session_init onmessage h].
    rewrite stream_onmessage_done by exact Hdone. reflexivity. }
  rewrite fold_left_app. unfold messages. rewrite map_cons, map_app.
  cbn [fold_left]. rewrite Hs1, fold_left_app.
  pose proof (starter_contents (R := R) id_field message contents
                session_init Hcontents eq_refl) as Hmid.
  fold h in Hmid. unfold messages in Hmid. rewrite Hmid.
  cbn [map fold_left]. rewrite Hs2.
  split.
  - apply session_closed_mono. reflexivity.
  - rewrite session_promise_stable; [reflexivity|apply starter_client|].
    reflexivity.
Qed.

Lemma cover_frames (frames : list string) (c : Conn (Starter CoverRecord)) :
  Forall (fun event_data => is_terminal event_data = false) frames ->
  fold_left (session_step (coverWithStream startCover_callbacks))
    (messages frames) c = c.
Proof.
  intros Hall. induction Hall as [|event_data frames Hf _ IH]; [reflexivity|].
  cbn [messages map fold_left session_step]. unfold dispatch.
  destruct (closed c); [exact IH|].
  rewrite cover_message by exact Hf. exact IH.
Qed.

Lemma frame_not_terminal (name event_data : string) :
  is_frame name event_data = true ->
  name <> "done"%string -> name <> "error"%string ->
  is_terminal event_data = false.
Proof.
  intros Hf Hd He. unfold is_terminal.
  rewrite (is_frame_excl name "done" _ Hf Hd).
  rewrite (is_frame_excl name "error" _ Hf He). reflexivity.
Qed.

(** Blocks of type [start], [progress] or [content] do not end the
    loop of [extractStyleWithStream]. *)
Lemma extract_blocks_pass {St} (request : ExtractStyleStreamRequest)
    (callbacks : ExtractStyleStreamCallbacks St) (now : string)
    (middle : list string) (st : St) :
  Forall (fun block =>
            block_type block = Some "start"%string
            \/ block_type block = Some "progress"%string
            \/ block_type block = Some "content"%string) middle ->
  exists st', forall rest createdStyle,
      extract_blocks request callbacks now (middle ++ rest) createdStyle st =
      extract_blocks request callbacks now rest createdStyle st'.
Proof.
  intros Hall. revert st.
  induction Hall as [|block middle Hb _ IH]; intros st.
  - exists st. reflexivity.
  - unfold block_type in Hb.
    destruct (block_frame block) as [parsed|] eqn:Hf;
      [|destruct Hb as [Hb|[Hb|Hb]]; discriminate].
    cbn [option_map] in Hb.
    assert (exists st1, forall rest createdStyle,
               extract_blocks request callbacks now (block :: rest)
                 createdStyle st =
               extract_blocks request callbacks now rest createdStyle st1)
      as [st1 Hst1].
    { destruct Hb as [Hb|[Hb|Hb]]; injection Hb as Hb;
        eexists; intros rest createdStyle;
        rewrite extract_blocks_eq, Hf, Hb; reflexivity. }
    destruct (IH st1) as [st' Hst'].
    exists st'. intros rest createdStyle.
    rewrite <- app_comm_cons, Hst1. apply Hst'.
Qed.
End MissingId.

(** C2. Missing-id detection, as the code has it.  When a session of
    [startRewrite] or [startReview] receives a [start] frame without the id
    field, any number of [content] frames and a [done] frame, and when a
    session of [startCover] receives such frames and a [done] frame without
    an [id], the connection is closed and the promise is rejected with the
    wrapper's missing-id error, then and after every later event.
    [extractStyleWithStream] has no such check: on such a stream it
    resolves with the style built from the [done] frame, whose [id]
    defaults to [0]. *)
Theorem missing_id_detection {rt : JsRuntime} :
  (forall (start done : string) (contents : list string)
      (later : list (Event RewriteRecord)),
      is_frame "start" start = true ->
      get (parseSseJson start) "task_id" = JsUndefined ->
      Forall (fun event_data => is_frame "content" event_data = true) contents ->
      is_frame "done" done = true ->
      let s := startRewrite (messages (start :: contents ++ [done]) ++ later) in
      closed s = true
      /\ promise (caller s) = Rejected (Error "未获取到改写任务ID"))
  /\ (forall (start done : string) (contents : list string)
        (later : list (Event ReviewRecord)),
      is_frame "start" start = true ->
      get (parseSseJson start) "review_id" = JsUndefined ->
      Forall (fun event_data => is_frame "content" event_data = true) contents ->
      is_frame "done" done = true ->
      let s := startReview (messages (start :: contents ++ [done]) ++ later) in
      closed s = true
      /\ promise (caller s) = Rejected (Error "未获取到审核ID"))
  /\ (forall (start done : string) (contents : list string)
        (later : list (Event CoverRecord)),
      is_frame "start" start = true ->
      Forall (fun event_data => is_frame "content" event_data = true) contents ->
      is_frame "done" done = true ->
      get (parseSseJson done) "id" = JsUndefined ->
      let s := startCover (messages (start :: contents ++ [done]) ++ later) in
      closed s = true
      /\ promise (caller s) = Rejected (Error "未获取到封面ID"))
  /\ (forall St (request : ExtractStyleStreamRequest)
        (callbacks : ExtractStyleStreamCallbacks St) (now : string)
        (response : FetchResponse) (reads : list string)
        (start done : string) (contents : list string) (parsed : JsValue)
        (st : St),
      ok response = true ->
      body response = Some {| chunks := reads; read_failure := None |} ->
      fst (take_blocks (concat_text reads)) = start :: contents ++ [done] ->
      block_type start = Some "start"%string ->
      Forall (fun block => block_type block = Some "content"%string) contents ->
      block_frame done = Some parsed ->
      eventType parsed = "done"%string ->
      get parsed "id" = JsUndefined ->
      exists style,
        snd (extractStyleWithStream request callbacks now response st)
        = Fulfilled style
        /\ style_id_ style = Int 0).
Proof.
  split; [|split; [|split]].
  - intros start done contents later.
    apply (starter_missing_id "task_id" "未获取到改写任务ID").
  - intros start done contents later.
    apply (starter_missing_id "review_id" "未获取到审核ID").
  - intros start done contents later Hstart Hcontents Hdone Hid. cbv zeta.
    set (h := coverWithStream startCover_callbacks).
    assert (session_step h session_init (Source (Message start)) = session_init)
      as Hs1.
    { cbn [session_step]. unfold dispatch. cbn [closed session_init].
      apply cover_message.
      apply (frame_not_terminal "start"); [exact Hstart|discriminate..]. }
    assert (session_step h session_init (Source (Message done)) =
            close (call (settle_reject (Error "未获取到封面ID")) session_init))
      as Hs2.
    { cbn [session_step]. unfold dispatch. cbn [closed session_init]. unfold h.
      rewrite cover_onmessage_done by exact Hdone.
      cbn. unfold startCover_onDone. cbn [settled starter_init]. cbv zeta.
      rewrite Hid. reflexivity. }
    pose proof (cover_frames contents session_init) as Hmid.
    fold h in Hmid. unfold messages in Hmid.
    unfold startCover. fold h. rewrite fold_left_app. unfold messages.
    rewrite map_cons, map_app. cbn [fold_left]. rewrite Hs1, fold_left_app.
    rewrite Hmid.
    2:{ eapply Forall_impl; [exact Hcontents|]. intros d Hd.
        apply (frame_not_terminal "content"); [exact Hd|discriminate..]. }
    cbn [map fold_left]. rewrite Hs2.
    split.
    + apply session_closed_mono. reflexivity.
    + rewrite session_promise_stable; [reflexivity|apply startCover_client|].
      reflexivity.
  - intros St request callbacks now response reads start done contents parsed
      st Hok Hbody Hblocks Hstart Hcontents Hdone Htype Hid.
    exists (created_style request now parsed). split.
    + unfold extractStyleWithStream. rewrite Hok, Hbody. cbn [chunks read_failure].
      rewrite extract_read_blocks by reflexivity.
      rewrite append_nil_l, Hblocks, app_comm_cons.
      destruct (extract_blocks_pass request callbacks now (start :: contents) st)
        as [st' Hst'].
      { constructor; [left; exact Hstart|].
        eapply Forall_impl; [exact Hcontents|]. intros b Hb. right. right.
        exact Hb. }
      rewrite Hst', extract_blocks_eq, Hdone, Htype. reflexivity.
    + unfold created_style. cbn [style_id_]. rewrite Hid. reflexivity.
Qed.

(** C2 at a [start] frame and a [done] frame that carry nothing but
    their type, with one [content] frame between them. *)
Lemma missing_id_detection_witness :
  promise (caller (startRewrite (rt := example_runtime)
                     (messages (example_start_no_id
                                  :: [example_content] ++ [example_done_no_id])
                      ++ [Responds 0 (Ok example_record)])))
  = Rejected (Error "未获取到改写任务ID")
  /\ exists style,
      snd (extractStyleWithStream (rt := example_runtime) example_request
             extract_recorder example_now
             (example_response [sse_block example_start_no_id;
                                sse_block example_content;
                                sse_block example_done_no_id]) [])
      = Fulfilled style
      /\ style_id_ style = Int 0.
Proof.
  destruct (missing_id_detection (rt := example_runtime))
    as (Hrewrite & _ & _ & Hextract).
  split.
  - apply Hrewrite; try reflexivity. repeat constructor.
  - apply (Hextract _ _ _ _ _
             [sse_block example_start_no_id; sse_block example_content;
              sse_block example_done_no_id]
             ("data: " +:+ example_start_no_id)
             ("data: " +:+ example_done_no_id)
             ["data: " +:+ example_content]
             (JsObject [("type", JsString "done")])); try reflexivity.
    repeat constructor.
Defined.

(** C2, as stated, fails for style extraction: a stream whose [start] and
    [done] frames carry no id resolves, with a style whose id is [0]. *)
Lemma extract_resolves_without_id :
  snd (extractStyleWithStream (rt := example_runtime) example_request
         extract_recorder example_now
         (example_response [sse_block example_start_no_id;
                            sse_block example_content;
                            sse_block example_done_no_id]) [])
  = Fulfilled {| style_id_ := Int 0; style_name_ := "plain";
                 style_description := Some EmptyString; style_tags := None;
                 style_created_at := example_now |}.
Proof. vm_compute. reflexivity. Qed.

(** ** The end-to-end scenario of the rewrite stage *)

Section Scenario.
Context {rt : JsRuntime}.
Variables d1 d2 d3 d4 : string.
Hypothesis parse1 : JSON_parse d1 = Some scenario_start.
Hypothesis parse2 : JSON_parse d2 = Some scenario_content1.
Hypothesis parse3 : JSON_parse d3 = Some scenario_content2.
Hypothesis parse4 : JSON_parse d4 = Some scenario_done.

Lemma scenario_step1 {St} (cb : StreamCallbacks St) (c : Conn St) :
  closed c = false ->
  dispatch (rewriteWithStream cb) (Message d1) c =
  call_opt (option_map (fun f => f (Int 42)) (onStart cb)) c.
Proof.
  intros Hc. unfold dispatch. rewrite Hc. cbn [onmessage rewriteWithStream].
  unfold stream_onmessage, parseSseJson. rewrite parse1. reflexivity.
Qed.

Lemma scenario_step2 {St} (cb : StreamCallbacks St) (c : Conn St) :
  closed c = false ->
  dispatch (rewriteWithStream cb) (Message d2) c = call (onChunk cb "Hello") c.
Proof.
  intros Hc. unfold dispatch. rewrite Hc. cbn [onmessage rewriteWithStream].
  unfold stream_onmessage, parseSseJson. rewrite parse2. reflexivity.
Qed.

Lemma scenario_step3 {St} (cb : StreamCallbacks St) (c : Conn St) :
  closed c = false ->
  dispatch (rewriteWithStream cb) (Message d3) c =
  call (onChunk cb ", World!") c.
Proof.
  intros Hc. unfold dispatch. rewrite Hc. cbn [onmessage rewriteWithStream].
  unfold stream_onmessage, parseSseJson. rewrite parse3. reflexivity.
Qed.

Lemma scenario_step4 {St} (cb : StreamCallbacks St) (c : Conn St) :
  closed c = false ->
  dispatch (rewriteWithStream cb) (Message d4) c =
  close (call (onDone cb scenario_done) c).
Proof.
  intros Hc. unfold dispatch. rewrite Hc. cbn [onmessage rewriteWithStream].
  unfold stream_onmessage, parseSseJson. rewrite parse4. reflexivity.
Qed.

(** The four frames on an open stream, for any callbacks. *)
Lemma scenario_stream {St} (cb : StreamCallbacks St) (st : St) :
  stream_run (rewriteWithStream cb)
    [Some (Message d1); Some (Message d2); Some (Message d3)] (open_conn st)
  = call (onChunk cb ", World!")
      (call (onChunk cb "Hello")
         (call_opt (option_map (fun f => f (Int 42)) (onStart cb))
            (open_conn st)))
  /\ stream_run (rewriteWithStream cb)
       [Some (Message d1); Some (Message d2); Some (Message d3);
        Some (Message d4)] (open_conn st)
     = close (call (onDone cb scenario_done)
         (call (onChunk cb ", World!")
            (call (onChunk cb "Hello")
               (call_opt (option_map (fun f => f (Int 42)) (onStart cb))
                  (open_conn st))))).
Proof.
  unfold stream_run. cbn [fold_left stream_step].
  rewrite scenario_step1 by reflexivity.
  rewrite scenario_step2 by (destruct (onStart cb); reflexivity).
  rewrite scenario_step3 by (destruct (onStart cb); reflexivity).
  rewrite scenario_step4 by (destruct (onStart cb); reflexivity).
  split; reflexivity.
Qed.

Lemma scenario_session (later : list (Event RewriteRecord)) :
  startRewrite (messages [d1; d2; d3]) =
    {| closed := false;
       caller := {| taskId := Some (Int 42); settled := false;
                    promise := Pending; awaiting := [] |} |}
  /\ startRewrite (messages [d1; d2; d3; d4] ++ later) =
     fold_left (session_step (rewriteWithStream startRewrite_callbacks)) later
       {| closed := true;
          caller := {| taskId := Some (Int 42); settled := false;
                       promise := Pending; awaiting := [Int 42] |} |}.
Proof.
  unfold startRewrite. rewrite fold_left_app.
  cbn [messages map fold_left session_step].
  rewrite scenario_step1 by reflexivity.
  rewrite scenario_step2 by reflexivity.
  rewrite scenario_step3 by reflexivity.
  rewrite scenario_step4 by reflexivity.
  split; reflexivity.
Qed.
End Scenario.

(** C4. End-to-end rewrite completion, as the code has it.  For the
    frames [start{task_id:42}], [content{delta:"Hello"}],
    [content{delta:", World!"}] and
    [done{final_content:"Hello, World!", actual_words:2}] the stream calls
    [onStart(42)], [onChunk("Hello")], [onChunk(", World!")] and [onDone]
    in this order and closes.  [startRewrite] has [taskId = 42] after the
    [start] frame, ignores the two deltas (its [onChunk] is empty: what to
    do with the content is left to the caller), requests record 42 at the
    [done] frame and resolves with the record the request returns.  The
    callbacks of the page ([handleRewrite]) accumulate [Hello, World!].  No
    session of [startRewrite] requests a record unless a [done] frame has
    been delivered to it. *)
Theorem rewrite_end_to_end {rt : JsRuntime} (d1 d2 d3 d4 : string) :
  JSON_parse d1 = Some scenario_start ->
  JSON_parse d2 = Some scenario_content1 ->
  JSON_parse d3 = Some scenario_content2 ->
  JSON_parse d4 = Some scenario_done ->
  let streamed := startRewrite (messages [d1; d2; d3]) in
  let finished := startRewrite (messages [d1; d2; d3; d4]) in
  stream_run (rewriteWithStream recorder)
    [Some (Message d1); Some (Message d2); Some (Message d3);
     Some (Message d4)] (open_conn [])
  = {| closed := true;
       caller := [CallStart (Int 42); CallChunk "Hello"; CallChunk ", World!";
                  CallDone scenario_done] |}
  /\ (taskId (caller streamed) = Some (Int 42)
      /\ awaiting (caller streamed) = []
      /\ promise (caller streamed) = Pending
      /\ caller streamed = caller (startRewrite (messages [d1])))
  /\ (closed finished = true
      /\ taskId (caller finished) = Some (Int 42)
      /\ awaiting (caller finished) = [Int 42]
      /\ promise (caller finished) = Pending)
  /\ (forall record : RewriteRecord,
         promise (caller (startRewrite
                            (messages [d1; d2; d3; d4]
                             ++ [Responds 0 (Ok record)])))
         = Fulfilled record)
  /\ (forall (env : PageEnv) (v : View),
         rewrittenContent v = EmptyString ->
         rewrittenContent
           (caller (stream_run (rewriteWithStream handleRewrite_callbacks)
                      [Some (Message d1); Some (Message d2); Some (Message d3)]
                      (open_conn v)))
         = "Hello, World!"%string
         /\ rewrittenContent
              (caller (stream_run (rewriteWithStream handleRewrite_callbacks)
                         [Some (Message d1); Some (Message d2);
                          Some (Message d3); Some (Message d4)] (open_conn v)))
            = "Hello, World!"%string)
  /\ (forall events : list (Event RewriteRecord),
         Forall (fun e => is_done_event e = false) events ->
         awaiting (caller (startRewrite events)) = []).
Proof.
  intros H1 H2 H3 H4. cbv zeta.
  destruct (scenario_session d1 d2 d3 d4 H1 H2 H3 H4 []) as [Hs Hf].
  rewrite app_nil_r in Hf. cbn [fold_left] in Hf.
  split; [|split; [|split; [|split; [|split]]]].
  - rewrite (proj2 (scenario_stream d1 d2 d3 d4 H1 H2 H3 H4 recorder [])).
    reflexivity.
  - rewrite Hs. repeat split. unfold startRewrite.
    cbn [messages map fold_left session_step].
    rewrite (scenario_step1 d1 H1) by reflexivity. reflexivity.
  - rewrite Hf. repeat split.
  - intros record.
    rewrite (proj2 (scenario_session d1 d2 d3 d4 H1 H2 H3 H4 _)). reflexivity.
  - intros env v Hv.
    destruct (scenario_stream d1 d2 d3 d4 H1 H2 H3 H4
                handleRewrite_callbacks v) as [-> ->].
    cbn. rewrite Hv. split; reflexivity.
  - intros events Hall. unfold startRewrite.
    apply session_no_request;
      [apply startRewrite_client|exact Hall|reflexivity].
Qed.

(** C4 at the four frames as JSON text. *)
Lemma rewrite_end_to_end_witness :
  let d1 := JSON_stringify scenario_start in
  let d2 := JSON_stringify scenario_content1 in
  let d3 := JSON_stringify scenario_content2 in
  let d4 := JSON_stringify scenario_done in
  JSON_parse (JsRuntime := example_runtime) d4 = Some scenario_done
  /\ promise (caller (startRewrite (rt := example_runtime)
                        (messages [d1; d2; d3; d4]
                         ++ [Responds 0 (Ok example_record)])))
     = Fulfilled example_record.
Proof.
  cbv zeta. split; [reflexivity|].
  apply (rewrite_end_to_end (rt := example_runtime)
           (JSON_stringify scenario_start) (JSON_stringify scenario_content1)
           (JSON_stringify scenario_content2) (JSON_stringify scenario_done));
    reflexivity.
Defined.

(** C4, as stated, fails: the session that captures the id and requests
    the record, [startRewrite], keeps no content (after the two [content]
    frames its variables are what they were after the [start] frame), and
    the session that accumulates the content, the page's, passes no
    [onStart] (the [start] frame leaves it as it was). *)
Lemma no_session_captures_and_accumulates :
  let d1 := JSON_stringify scenario_start in
  let d2 := JSON_stringify scenario_content1 in
  let d3 := JSON_stringify scenario_content2 in
  let page := rewriteWithStream (rt := example_runtime)
                (handleRewrite_callbacks (rt := example_runtime)
                   (env := example_page_env)) in
  caller (startRewrite (rt := example_runtime) (messages [d1; d2; d3]))
  = caller (startRewrite (rt := example_runtime) (messages [d1]))
  /\ caller (startRewrite (rt := example_runtime) (messages [d1; d2; d3]))
     = {| taskId := Some (Int 42); settled := false; promise := Pending;
          awaiting := [] |}
  /\ dispatch page (Message d1) (open_conn (view page_init))
     = open_conn (view page_init).
Proof. vm_compute. repeat split. Qed.

(** * Further properties *)

(** ** What a stream invokes *)

Lemma ends_once_open (r : Conn (list Call)) :
  ends_once r -> closed r = false ->
  Forall (fun c => is_terminal_call c = false) (caller r).
Proof.
  intros (front & Hfront & [->|(Hc & _)]) Hopen; [exact Hfront|congruence].
Qed.

Lemma ends_once_call (r : Conn (list Call)) (c : Call) :
  Forall (fun c => is_terminal_call c = false) (caller r) ->
  is_terminal_call c = false ->
  ends_once {| closed := closed r; caller := caller r ++ [c] |}.
Proof.
  intros Hall Hc. exists (caller r ++ [c]). split; [|left; reflexivity].
  apply Forall_app. split; [exact Hall|]. repeat constructor. exact Hc.
Qed.

Lemma ends_once_terminal (r : Conn (list Call)) (t : Call) :
  Forall (fun c => is_terminal_call c = false) (caller r) ->
  is_terminal_call t = true ->
  ends_once {| closed := true; caller := caller r ++ [t] |}.
Proof.
  intros Hall Ht. exists (caller r). split; [exact Hall|]. right.
  split; [reflexivity|]. exists t. split; [exact Ht|reflexivity].
Qed.

Lemma ends_once_same (r : Conn (list Call)) (b : bool) :
  ends_once r -> (closed r = true -> b = true) ->
  ends_once {| closed := b; caller := caller r |}.
Proof.
  intros (front & Hfront & [Hr|(Hc & t & Ht & Hr)]) Hb; exists front;
    (split; [exact Hfront|]); [left; exact Hr|right].
  split; [apply Hb, Hc|]. exists t. split; assumption.
Qed.

Section EndsOnce.
Context {rt : JsRuntime}.

Lemma stream_step_ends_once (id_field : string) (e : option SourceEvent)
    (r : Conn (list Call)) :
  ends_once r ->
  ends_once
    (stream_step {| onmessage := stream_onmessage id_field recorder;
                    onerror := stream_onerror recorder |} r e).
Proof.
  intros Hr. destruct e as [ev|]; cbn [stream_step];
    [|apply (ends_once_same r true); auto].
  unfold dispatch. destruct (closed r) eqn:Hc; [exact Hr|].
  pose proof (ends_once_open r Hr Hc) as Hall.
  assert (Hsame : r = {| closed := closed r; caller := caller r |})
    by (destruct r; reflexivity).
  destruct ev as [event_data|]; cbn [onmessage onerror].
  - destruct (stream_frame_cases event_data) as [Hf|[Hf|[Hf|[Hf|Hf]]]].
    + rewrite stream_onmessage_content by exact Hf.
      apply (ends_once_call r); [exact Hall|reflexivity].
    + rewrite stream_onmessage_start by exact Hf. cbv zeta.
      destruct (gt_zero _); [|exact Hr].
      apply (ends_once_call r); [exact Hall|reflexivity].
    + rewrite stream_onmessage_done by exact Hf.
      apply (ends_once_terminal r); [exact Hall|reflexivity].
    + rewrite stream_onmessage_error by exact Hf.
      apply (ends_once_terminal r); [exact Hall|reflexivity].
    + rewrite stream_onmessage_other by exact Hf. exact Hr.
  - apply (ends_once_terminal r); [exact Hall|reflexivity].
Qed.

Lemma cover_step_ends_once (e : option SourceEvent) (r : Conn (list Call)) :
  ends_once r ->
  ends_once (stream_step (coverWithStream cover_recorder) r e).
Proof.
  intros Hr. destruct e as [ev|]; cbn [stream_step];
    [|apply (ends_once_same r true); auto].
  unfold dispatch. destruct (closed r) eqn:Hc; [exact Hr|].
  pose proof (ends_once_open r Hr Hc) as Hall.
  destruct ev as [event_data|].
  - destruct (cover_frame_cases event_data) as [Hf|[Hf|[[Hnt Hf]|Hf]]].
    + rewrite cover_onmessage_error by exact Hf.
      apply (ends_once_terminal r); [exact Hall|reflexivity].
    + rewrite cover_onmessage_done by exact Hf.
      apply (ends_once_terminal
               {| closed := closed r;
                  caller := caller r ++ [CallProgress (parseSseJson event_data)] |}).
      * apply Forall_app. split; [exact Hall|]. repeat constructor.
      * reflexivity.
    + unfold is_terminal in Hnt. apply orb_false_elim in Hnt as [Hd He].
      rewrite cover_onmessage_other by assumption.
      apply (ends_once_call r); [exact Hall|reflexivity].
    + rewrite cover_onmessage_falsy by exact Hf. exact Hr.
  - apply (ends_once_terminal r); [exact Hall|reflexivity].
Qed.

Lemma stream_step_start_positive (id_field : string) (e : option SourceEvent)
    (r : Conn (list Call)) :
  Forall (fun c => start_is_positive c = true) (caller r) ->
  Forall (fun c => start_is_positive c = true)
    (caller (stream_step {| onmessage := stream_onmessage id_field recorder;
                            onerror := stream_onerror recorder |} r e)).
Proof.
  intros Hr. destruct e as [ev|]; cbn [stream_step]; [|exact Hr].
  unfold dispatch. destruct (closed r); [exact Hr|].
  assert (Hadd : forall c, start_is_positive c = true ->
            Forall (fun c => start_is_positive c = true) (caller r ++ [c])).
  { intros c Hc. apply Forall_app. split; [exact Hr|]. repeat constructor.
    exact Hc. }
  destruct ev as [event_data|]; cbn [onmessage onerror].
  - destruct (stream_frame_cases event_data) as [Hf|[Hf|[Hf|[Hf|Hf]]]].
    + rewrite stream_onmessage_content by exact Hf. apply Hadd. reflexivity.
    + rewrite stream_onmessage_start by exact Hf. cbv zeta.
      destruct (gt_zero _) eqn:Hg; [|exact Hr]. apply Hadd. exact Hg.
    + rewrite stream_onmessage_done by exact Hf. apply Hadd. reflexivity.
    + rewrite stream_onmessage_error by exact Hf. apply Hadd. reflexivity.
    + rewrite stream_onmessage_other by exact Hf. exact Hr.
  - apply Hadd. reflexivity.
Qed.
End EndsOnce.

(** X2. On a stream of [rewriteWithStream], [reviewWithStream] or
    [coverWithStream], whatever the browser delivers and whenever the
    stream is closed, [onDone] and [onError] are invoked at most once
    between them, a connection error included; the call is the last call
    on the stream, and the stream is closed when it has been made. *)
Theorem terminal_callback_at_most_once {rt : JsRuntime}
    (events : list (option SourceEvent)) :
  ends_once (stream_run (rewriteWithStream recorder) events (open_conn []))
  /\ ends_once (stream_run (reviewWithStream recorder) events (open_conn []))
  /\ ends_once (stream_run (coverWithStream cover_recorder) events
                  (open_conn [])).
Proof.
  assert (Hinit : ends_once (open_conn []))
    by (exists []; split; [constructor|left; reflexivity]).
  assert (Hstream : forall id_field,
             ends_once
               (stream_run {| onmessage := stream_onmessage id_field recorder;
                              onerror := stream_onerror recorder |}
                  events (open_conn []))).
  { intros id_field. revert Hinit. generalize (open_conn (@nil Call)).
    unfold stream_run. induction events as [|e events IH]; intros r Hr;
      [exact Hr|].
    cbn [fold_left]. apply IH, stream_step_ends_once, Hr. }
  split; [apply (Hstream "task_id")|]. split; [apply (Hstream "review_id")|].
  clear Hstream.
  revert Hinit. generalize (open_conn (@nil Call)). unfold stream_run.
  induction events as [|e events IH]; intros r Hr; [exact Hr|].
  cbn [fold_left]. apply IH, cover_step_ends_once, Hr.
Qed.

(** X3. [rewriteWithStream] and [reviewWithStream] invoke [onStart] with
    a positive id only.  The id of a [start] frame is
    [Number(data.task_id || 0)] ([review_id] for a review).  When it is
    not greater than zero (the field is missing, [null], zero, negative,
    or converts to [NaN]), the frame invokes no callback and leaves the
    connection as it is.  When it is, [onStart], if one was passed, is
    invoked once with that number (a text such as [42] counts after the
    conversion), nothing else is invoked, and the connection stays open.
    So every [onStart] call of every stream carries a positive id. *)
Theorem onStart_only_with_positive_id {rt : JsRuntime} :
  (forall events : list (option SourceEvent),
      Forall (fun c => start_is_positive c = true)
        (caller (stream_run (rewriteWithStream recorder) events (open_conn [])))
      /\ Forall (fun c => start_is_positive c = true)
           (caller (stream_run (reviewWithStream recorder) events
                      (open_conn []))))
  /\ (forall St (cb : StreamCallbacks St) (start : string) (c : Conn St),
      is_frame "start" start = true ->
      (gt_zero (start_id "task_id" start) = false ->
       dispatch (rewriteWithStream cb) (Message start) c = c)
      /\ (gt_zero (start_id "review_id" start) = false ->
          dispatch (reviewWithStream cb) (Message start) c = c))
  /\ (forall St (cb : StreamCallbacks St) (start : string) (st : St),
      is_frame "start" start = true ->
      (gt_zero (start_id "task_id" start) = true ->
       dispatch (rewriteWithStream cb) (Message start) (open_conn st)
       = open_conn (apply_opt (onStart cb) (start_id "task_id" start) st))
      /\ (gt_zero (start_id "review_id" start) = true ->
          dispatch (reviewWithStream cb) (Message start) (open_conn st)
          = open_conn
              (apply_opt (onStart cb) (start_id "review_id" start) st)))
  /\ (forall (start : string) (log : list Call),
      is_frame "start" start = true ->
      (gt_zero (start_id "task_id" start) = true ->
       dispatch (rewriteWithStream recorder) (Message start) (open_conn log)
       = open_conn (log ++ [CallStart (start_id "task_id" start)]))
      /\ (gt_zero (start_id "review_id" start) = true ->
          dispatch (reviewWithStream recorder) (Message start) (open_conn log)
          = open_conn (log ++ [CallStart (start_id "review_id" start)]))).
Proof.
  assert (Hno : forall St id_field (cb : StreamCallbacks St) start
                  (c : Conn St),
             is_frame "start" start = true ->
             gt_zero (start_id id_field start) = false ->
             dispatch {| onmessage := stream_onmessage id_field cb;
                         onerror := stream_onerror cb |} (Message start) c
             = c).
  { intros St id_field cb start c Hf Hz. unfold dispatch.
    destruct (closed c); [reflexivity|]. cbn [onmessage].
    rewrite stream_onmessage_start by exact Hf. cbv zeta.
    fold (start_id id_field start). rewrite Hz. reflexivity. }
  assert (Hyes : forall St id_field (cb : StreamCallbacks St) start (st : St),
             is_frame "start" start = true ->
             gt_zero (start_id id_field start) = true ->
             dispatch {| onmessage := stream_onmessage id_field cb;
                         onerror := stream_onerror cb |} (Message start)
               (open_conn st)
             = open_conn (apply_opt (onStart cb) (start_id id_field start) st)).
  { intros St id_field cb start st Hf Hz. unfold dispatch.
    cbn [closed open_conn onmessage].
    rewrite stream_onmessage_start by exact Hf. cbv zeta.
    fold (start_id id_field start). rewrite Hz.
    destruct (onStart cb); reflexivity. }
  split; [|split; [|split]];
    [|intros St cb start c Hf; split; intros Hz;
      [apply (Hno St "task_id"%string)|apply (Hno St "review_id"%string)];
      assumption
     |intros St cb start st Hf; split; intros Hz;
      [apply (Hyes St "task_id"%string)|apply (Hyes St "review_id"%string)];
      assumption
     |intros start log Hf; split; intros Hz;
      [apply (Hyes _ "task_id"%string recorder)
      |apply (Hyes _ "review_id"%string recorder)];
      assumption].
  intros events.
  assert (Hstream : forall id_field,
             Forall (fun c => start_is_positive c = true)
               (caller (stream_run
                          {| onmessage := stream_onmessage id_field recorder;
                             onerror := stream_onerror recorder |}
                          events (open_conn [])))).
  { intros id_field.
    assert (Hinit : Forall (fun c => start_is_positive c = true)
                      (caller (open_conn (@nil Call)))) by constructor.
    revert Hinit. generalize (open_conn (@nil Call)). unfold stream_run.
    induction events as [|e events IH]; intros r Hr; [exact Hr|].
    cbn [fold_left]. apply IH, stream_step_start_positive, Hr. }
  split; [apply (Hstream "task_id")|apply (Hstream "review_id")].
Qed.

(** X3 at a [start] frame without an id and at the [start] frame of the
    scenario, whose [task_id] is 42. *)
Lemma onStart_only_with_positive_id_witness :
  dispatch (rewriteWithStream (rt := example_runtime) recorder)
    (Message example_start_no_id) (open_conn [])
  = open_conn []
  /\ dispatch (rewriteWithStream (rt := example_runtime) recorder)
       (Message (JSON_stringify scenario_start)) (open_conn [])
     = open_conn [CallStart (Int 42)].
Proof.
  destruct (onStart_only_with_positive_id (rt := example_runtime))
    as (_ & Hno & _ & Hyes).
  split.
  - apply (Hno _ recorder example_start_no_id (open_conn [])); reflexivity.
  - apply (Hyes (JSON_stringify scenario_start) []); reflexivity.
Defined.

(** ** The promise wrappers, further *)

Lemma is_settled_resolve {A} (value : A) (p : Promise A) :
  is_settled (resolve value p) = true.
Proof. destruct p; reflexivity. Qed.

Lemma is_settled_reject {A} (reason : JsError) (p : Promise A) :
  is_settled (reject reason p) = true.
Proof. destruct p; reflexivity. Qed.

Lemma settle_reject_flag {R} (e : JsError) (s : Starter R) :
  flag_agrees (settle_reject e s).
Proof. unfold flag_agrees. cbn. symmetry. apply is_settled_reject. Qed.

Lemma settle_resolve_flag {R} (record : R) (s : Starter R) :
  flag_agrees (settle_resolve record s).
Proof. unfold flag_agrees. cbn. symmetry. apply is_settled_resolve. Qed.

Lemma starter_onError_flag {R} (error : string) (s : Starter R) :
  flag_agrees s -> flag_agrees (starter_onError error s).
Proof.
  intros Hs. unfold starter_onError. destruct (settled s); [exact Hs|].
  apply settle_reject_flag.
Qed.

Lemma starter_onDone_flag {R} (message : string) (data : JsValue)
    (s : Starter R) :
  flag_agrees s -> flag_agrees (starter_onDone message data s).
Proof.
  intros Hs. unfold starter_onDone. destruct (settled s) eqn:Hset; [exact Hs|].
  destruct (taskId s) as [id|]; [|apply settle_reject_flag].
  destruct (negb (num_truthy id)); [apply settle_reject_flag|].
  unfold flag_agrees in *. cbn. exact Hs.
Qed.

Lemma resume_flag {R} (i : nat) (response : Response R) (s : Starter R) :
  flag_agrees s -> flag_agrees (resume i response s).
Proof.
  intros Hs. unfold resume. destruct (awaiting s !! i); [|exact Hs].
  destruct response; [apply settle_resolve_flag|apply settle_reject_flag].
Qed.

Lemma resume_length {R} (i : nat) (response : Response R) (s : Starter R) :
  length (awaiting (resume i response s)) <= length (awaiting s).
Proof.
  unfold resume. destruct (awaiting s !! i) eqn:Hi; [|reflexivity].
  assert (length (delete i (awaiting s)) <= length (awaiting s)).
  { rewrite length_delete by (rewrite Hi; eauto). lia. }
  destruct response; cbn; assumption.
Qed.

Lemma gt_zero_truthy (n : JsNum) : gt_zero n = true -> num_truthy n = true.
Proof.
  destruct n as [|z]; [discriminate|]. cbn. intros Hz.
  apply Z.ltb_lt in Hz. destruct (Z.eqb_spec z 0); [lia|reflexivity].
Qed.

Section StarterFurther.
Context {rt : JsRuntime} {R : Type}.
Variables (id_field message : string).

Local Abbreviation h :=
  {| onmessage := stream_onmessage id_field (starter_callbacks (R := R) message);
     onerror := stream_onerror (starter_callbacks message) |}.

Lemma starter_message_flag (event_data : string) (c : Conn (Starter R)) :
  flag_agrees (caller c) -> flag_agrees (caller (onmessage h event_data c)).
Proof.
  intros Hs. cbn [onmessage].
  destruct (stream_frame_cases event_data) as [Hf|[Hf|[Hf|[Hf|Hf]]]].
  - rewrite stream_onmessage_content by exact Hf. exact Hs.
  - rewrite stream_onmessage_start by exact Hf. cbv zeta.
    destruct (gt_zero _); exact Hs.
  - rewrite stream_onmessage_done by exact Hf. apply starter_onDone_flag, Hs.
  - rewrite stream_onmessage_error by exact Hf. apply starter_onError_flag, Hs.
  - rewrite stream_onmessage_other by exact Hf. exact Hs.
Qed.

Lemma starter_done_length (event_data : string) (c : Conn (Starter R)) :
  awaiting (caller c) = [] ->
  length (awaiting (caller (onmessage h event_data c))) <= 1.
Proof.
  intros Ha. cbn [onmessage].
  destruct (is_frame "done" event_data) eqn:Hf.
  - rewrite stream_onmessage_done by exact Hf. cbn. unfold starter_onDone.
    destruct (settled (caller c)); [rewrite Ha; cbn; lia|].
    destruct (taskId (caller c)) as [id|]; [|cbn; rewrite Ha; cbn; lia].
    destruct (negb (num_truthy id)); cbn; rewrite Ha; cbn; lia.
  - pose proof (starter_message_awaiting id_field message event_data c Hf)
      as Hsame.
    cbn [onmessage] in Hsame. rewrite Hsame, Ha. cbn. lia.
Qed.

(** Frames that are neither terminal nor [start] frames leave an open
    session as it is. *)
Lemma starter_quiet_frames (frames : list string) (c : Conn (Starter R)) :
  Forall (fun event_data =>
            is_terminal event_data = false
            /\ is_frame "start" event_data = false) frames ->
  closed c = false ->
  fold_left (session_step h) (messages frames) c = c.
Proof.
  intros Hall Hc. induction Hall as [|event_data frames [Ht Hs] _ IH];
    [reflexivity|].
  cbn [messages map fold_left session_step]. unfold dispatch. rewrite Hc.
  cbn [onmessage].
  unfold is_terminal in Ht. apply orb_false_elim in Ht as [Hd He].
  destruct (stream_frame_cases event_data) as [Hf|[Hf|[Hf|[Hf|Hf]]]];
    try congruence.
  - rewrite stream_onmessage_content by exact Hf. rewrite call_id. exact IH.
  - rewrite stream_onmessage_other by exact Hf. exact IH.
Qed.

Lemma starter_completes (before : list (Event R)) (start done : string)
    (mid : list string) (n : JsNum) (response : Response R) :
  closed (fold_left (session_step h) before session_init) = false ->
  is_frame "start" start = true ->
  ToNumber (js_or (get (parseSseJson start) id_field) (JsNumber (Int 0))) = n ->
  gt_zero n = true ->
  Forall (fun event_data =>
            is_terminal event_data = false
            /\ is_frame "start" event_data = false) mid ->
  is_frame "done" done = true ->
  let events := before ++ messages (start :: mid ++ [done]) in
  let s := fold_left (session_step h) events session_init in
  (closed s = true /\ awaiting (caller s) = [n]
   /\ promise (caller s) = Pending)
  /\ (let s' := fold_left (session_step h) (events ++ [Responds 0 response])
                  session_init in
      promise (caller s') = settle_with response
      /\ awaiting (caller s') = []).
Proof.
  intros Hopen Hstart Hn Hpos Hmid Hdone. cbv zeta.
  destruct (session_open_fresh h (starter_client id_field message) before
              session_init) as (Hset & Hprom & Hawait);
    [intros _; repeat split|exact Hopen|].
  rewrite !fold_left_app.
  set (c0 := fold_left (session_step h) before session_init) in *.
  unfold messages. rewrite map_cons, map_app. cbn [fold_left].
  rewrite fold_left_app.
  assert (session_step h c0 (Source (Message start)) = call (set_taskId n) c0)
    as Hs1.
  { cbn [session_step]. unfold dispatch. rewrite Hopen. cbn [onmessage].
    rewrite stream_onmessage_start by exact Hstart. cbv zeta.
    rewrite Hn, Hpos. reflexivity. }
  rewrite Hs1.
  pose proof (starter_quiet_frames mid (call (set_taskId n) c0) Hmid Hopen)
    as Hquiet.
  unfold messages in Hquiet. rewrite Hquiet.
  assert (session_step h (call (set_taskId n) c0) (Source (Message done))
          = close (call (request_record n) (call (set_taskId n) c0))) as Hs2.
  { cbn [session_step]. unfold dispatch. cbn [closed call]. rewrite Hopen.
    cbn [onmessage]. rewrite stream_onmessage_done by exact Hdone.
    unfold close, call. cbn [closed caller]. f_equal.
    cbn [onDone starter_callbacks]. unfold starter_onDone.
    cbn [settled set_taskId taskId]. rewrite Hset, (gt_zero_truthy n Hpos).
    reflexivity. }
  cbn [map fold_left]. rewrite Hs2.
  cbn [session_step call close caller closed request_record set_taskId
       awaiting promise settled taskId].
  rewrite Hawait, Hprom. split; [repeat split|].
  unfold resume. cbn [awaiting]. rewrite ?Hawait. cbn.
  rewrite ?Hawait, ?Hprom.
  destruct response; cbn; rewrite ?Hprom; split; reflexivity.
Qed.
End StarterFurther.

Section CoverFurther.
Context {rt : JsRuntime}.

Lemma startCover_onDone_flag (data : JsValue) (s : Starter CoverRecord) :
  flag_agrees s -> flag_agrees (startCover_onDone data s).
Proof.
  intros Hs. unfold startCover_onDone. destruct (settled s) eqn:Hset;
    [exact Hs|].
  cbv zeta. destruct (negb _); [apply settle_reject_flag|].
  unfold flag_agrees in *. cbn. exact Hs.
Qed.

Lemma cover_message_flag (event_data : string) (c : Conn (Starter CoverRecord)) :
  flag_agrees (caller c) ->
  flag_agrees (caller (onmessage (coverWithStream startCover_callbacks)
                         event_data c)).
Proof.
  intros Hs.
  destruct (is_terminal event_data) eqn:Ht;
    [|rewrite cover_message by exact Ht; exact Hs].
  unfold is_terminal in Ht. apply orb_prop in Ht as [Hf|Hf].
  - rewrite cover_onmessage_done by exact Hf. apply startCover_onDone_flag, Hs.
  - rewrite cover_onmessage_error by exact Hf. apply starter_onError_flag, Hs.
Qed.

Lemma cover_done_length (event_data : string) (c : Conn (Starter CoverRecord)) :
  awaiting (caller c) = [] ->
  length (awaiting (caller (onmessage (coverWithStream startCover_callbacks)
                              event_data c))) <= 1.
Proof.
  intros Ha. destruct (is_frame "done" event_data) eqn:Hf.
  - rewrite cover_onmessage_done by exact Hf. cbn. unfold startCover_onDone.
    destruct (settled (caller c)); [rewrite Ha; cbn; lia|].
    cbv zeta. destruct (negb _); cbn; rewrite Ha; cbn; lia.
  - rewrite cover_message_awaiting by exact Hf. rewrite Ha. cbn. lia.
Qed.

Lemma cover_completes (before : list (Event CoverRecord)) (done : string)
    (n : JsNum) (response : Response CoverRecord) :
  closed (startCover before) = false ->
  is_frame "done" done = true ->
  ToNumber (js_or (get (parseSseJson done) "id") (JsNumber (Int 0))) = n ->
  num_truthy n = true ->
  let events := before ++ [Source (Message done)] in
  (closed (startCover events) = true
   /\ awaiting (caller (startCover events)) = [n]
   /\ promise (caller (startCover events)) = Pending)
  /\ promise (caller (startCover (events ++ [Responds 0 response])))
     = settle_with response.
Proof.
  intros Hopen Hdone Hn Htruthy. cbv zeta. unfold startCover in *.
  destruct (session_open_fresh _ startCover_client before session_init)
    as (Hset & Hprom & Hawait); [intros _; repeat split|exact Hopen|].
  rewrite !fold_left_app.
  set (c0 := fold_left _ before session_init) in *.
  assert (session_step (coverWithStream startCover_callbacks) c0
            (Source (Message done))
          = close (call (request_record n) c0)) as Hs.
  { cbn [session_step]. unfold dispatch. rewrite Hopen.
    rewrite cover_onmessage_done by exact Hdone.
    unfold close, call. cbn [closed caller]. f_equal.
    cbn [cover_onDone cover_onProgress startCover_callbacks].
    unfold startCover_onDone. rewrite Hset. cbv zeta. rewrite Hn, Htruthy.
    reflexivity. }
  cbn [fold_left]. rewrite Hs.
  cbn [session_step call close caller closed request_record awaiting promise
       settled taskId].
  rewrite Hawait, Hprom. split; [repeat split|].
  unfold resume. cbn [awaiting]. rewrite ?Hawait. cbn. rewrite ?Hawait, ?Hprom.
  destruct response; cbn; rewrite ?Hprom; reflexivity.
Qed.
End CoverFurther.

Section SessionFurther.
Context {rt : JsRuntime} {R : Type} (h : Handlers (Starter R)).
Hypothesis h_ok : session_client h.
Hypothesis h_flag : forall event_data c,
    flag_agrees (caller c) -> flag_agrees (caller (onmessage h event_data c)).
Hypothesis h_length : forall event_data c,
    awaiting (caller c) = [] ->
    length (awaiting (caller (onmessage h event_data c))) <= 1.

Lemma session_flag (events : list (Event R)) (c : Conn (Starter R)) :
  flag_agrees (caller c) ->
  flag_agrees (caller (fold_left (session_step h) events c)).
Proof.
  revert c. induction events as [|e events IH]; intros c Hc; [exact Hc|].
  cbn [fold_left]. apply IH.
  destruct e as [[event_data|]| |i response]; cbn [session_step].
  - unfold dispatch. destruct (closed c); [exact Hc|]. apply h_flag, Hc.
  - unfold dispatch. destruct (closed c); [exact Hc|].
    rewrite (client_onerror h h_ok). apply starter_onError_flag, Hc.
  - exact Hc.
  - apply resume_flag, Hc.
Qed.

Lemma session_one_request (events : list (Event R)) (c : Conn (Starter R)) :
  (closed c = false -> fresh (caller c)) ->
  length (awaiting (caller c)) <= 1 ->
  length (awaiting (caller (fold_left (session_step h) events c))) <= 1.
Proof.
  revert c. induction events as [|e events IH]; intros c Hfresh Hlen;
    [exact Hlen|].
  cbn [fold_left]. apply IH; [apply session_step_open; assumption|].
  destruct e as [[event_data|]| |i response]; cbn [session_step].
  - unfold dispatch. destruct (closed c) eqn:Hc; [exact Hlen|].
    apply h_length. apply Hfresh. reflexivity.
  - unfold dispatch. destruct (closed c) eqn:Hc; [exact Hlen|].
    rewrite (client_onerror h h_ok). cbn.
    rewrite starter_onError_awaiting. exact Hlen.
  - exact Hlen.
  - cbn. pose proof (resume_length i response (caller c)). lia.
Qed.
End SessionFurther.

(** X4. In every state a session of [startRewrite], [startReview] or
    [startCover] can reach, and in every state their callbacks can produce
    when invoked directly in any order, the variable [settled] is true
    exactly when the promise has been resolved or rejected. *)
Theorem settled_flag_tracks_promise {rt : JsRuntime} :
  (forall events : list (Event RewriteRecord),
      flag_agrees (caller (startRewrite events)))
  /\ (forall events : list (Event ReviewRecord),
      flag_agrees (caller (startReview events)))
  /\ (forall events : list (Event CoverRecord),
      flag_agrees (caller (startCover events)))
  /\ (forall invocations : list (Invocation RewriteRecord),
      flag_agrees (fold_left (invoke startRewrite_callbacks) invocations
                     starter_init))
  /\ (forall invocations : list (Invocation ReviewRecord),
      flag_agrees (fold_left (invoke startReview_callbacks) invocations
                     starter_init))
  /\ (forall invocations : list CoverInvocation,
      flag_agrees (fold_left cover_invoke invocations starter_init)).
Proof.
  assert (Hinvoke : forall R message (invocations : list (Invocation R)) s,
             flag_agrees s ->
             flag_agrees (fold_left (invoke (starter_callbacks message))
                            invocations s)).
  { intros R message invocations.
    induction invocations as [|inv invocations IH]; intros s Hs; [exact Hs|].
    cbn [fold_left]. apply IH.
    destruct inv; cbn [invoke]; try exact Hs.
    - apply starter_onError_flag, Hs.
    - apply starter_onDone_flag, Hs.
    - apply resume_flag, Hs. }
  split; [|split; [|split; [|split; [|split]]]].
  - intros events. unfold startRewrite.
    apply (session_flag _ startRewrite_client);
      [apply (starter_message_flag "task_id")|reflexivity].
  - intros events. unfold startReview.
    apply (session_flag _ startReview_client);
      [apply (starter_message_flag "review_id")|reflexivity].
  - intros events. unfold startCover.
    apply (session_flag _ startCover_client);
      [apply cover_message_flag|reflexivity].
  - intros invocations. apply (Hinvoke _ "未获取到改写任务ID"). reflexivity.
  - intros invocations. apply (Hinvoke _ "未获取到审核ID"). reflexivity.
  - intros invocations. generalize (eq_refl : flag_agrees (@starter_init CoverRecord)).
    generalize (@starter_init CoverRecord).
    induction invocations as [|inv invocations IH]; intros s Hs; [exact Hs|].
    cbn [fold_left]. apply IH.
    destruct inv; cbn [cover_invoke]; try exact Hs.
    + apply starter_onError_flag, Hs.
    + apply startCover_onDone_flag, Hs.
    + apply resume_flag, Hs.
Qed.

(** X5. A session of [startRewrite], [startReview] or [startCover] never
    has more than one record request awaiting its response, whatever
    events it receives. *)
Theorem at_most_one_request_awaited {rt : JsRuntime} :
  (forall events : list (Event RewriteRecord),
      length (awaiting (caller (startRewrite events))) <= 1)
  /\ (forall events : list (Event ReviewRecord),
      length (awaiting (caller (startReview events))) <= 1)
  /\ (forall events : list (Event CoverRecord),
      length (awaiting (caller (startCover events))) <= 1).
Proof.
  split; [|split]; intros events.
  - unfold startRewrite. apply (session_one_request _ startRewrite_client).
    + apply (starter_done_length "task_id").
    + intros _. repeat split.
    + cbn. lia.
  - unfold startReview. apply (session_one_request _ startReview_client).
    + apply (starter_done_length "review_id").
    + intros _. repeat split.
    + cbn. lia.
  - unfold startCover. apply (session_one_request _ startCover_client).
    + apply cover_done_length.
    + intros _. repeat split.
    + cbn. lia.
Qed.

(** X6. [startRewrite] and [startReview] on an open connection: after a
    [start] frame with a positive id [n], frames that are neither terminal
    nor [start] frames, and a [done] frame, the connection is closed and
    exactly the record [n] is requested, whatever ids earlier [start]
    frames carried; the promise is pending until the response arrives,
    then fulfilled with the record, or rejected with the error of the
    request. *)
Theorem wrapper_completes_with_last_start_id {rt : JsRuntime} :
  (forall (before : list (Event RewriteRecord)) (start done : string)
      (mid : list string) (n : JsNum) (response : Response RewriteRecord),
      closed (startRewrite before) = false ->
      is_frame "start" start = true ->
      ToNumber (js_or (get (parseSseJson start) "task_id") (JsNumber (Int 0)))
        = n ->
      gt_zero n = true ->
      Forall (fun event_data =>
                is_terminal event_data = false
                /\ is_frame "start" event_data = false) mid ->
      is_frame "done" done = true ->
      let events := before ++ messages (start :: mid ++ [done]) in
      (closed (startRewrite events) = true
       /\ awaiting (caller (startRewrite events)) = [n]
       /\ promise (caller (startRewrite events)) = Pending)
      /\ (promise (caller (startRewrite (events ++ [Responds 0 response])))
            = settle_with response
          /\ awaiting (caller (startRewrite (events ++ [Responds 0 response])))
             = []))
  /\ (forall (before : list (Event ReviewRecord)) (start done : string)
        (mid : list string) (n : JsNum) (response : Response ReviewRecord),
      closed (startReview before) = false ->
      is_frame "start" start = true ->
      ToNumber (js_or (get (parseSseJson start) "review_id") (JsNumber (Int 0)))
        = n ->
      gt_zero n = true ->
      Forall (fun event_data =>
                is_terminal event_data = false
                /\ is_frame "start" event_data = false) mid ->
      is_frame "done" done = true ->
      let events := before ++ messages (start :: mid ++ [done]) in
      (closed (startReview events) = true
       /\ awaiting (caller (startReview events)) = [n]
       /\ promise (caller (startReview events)) = Pending)
      /\ (promise (caller (startReview (events ++ [Responds 0 response])))
            = settle_with response
          /\ awaiting (caller (startReview (events ++ [Responds 0 response])))
             = [])).
Proof.
  split.
  - intros before start done mid n response.
    apply (starter_completes "task_id" "未获取到改写任务ID").
  - intros before start done mid n response.
    apply (starter_completes "review_id" "未获取到审核ID").
Qed.

(** X6 at a first [start] frame with id 7, a second with id 42, a
    [content] frame, a frame of unknown type and a [done] frame, with a
    request that fails. *)
Lemma wrapper_completes_with_last_start_id_witness :
  let first := frame [("type", JsString "start"); ("task_id", JsNumber (Int 7))] in
  let events :=
    [Source (Message first)]
    ++ messages (JSON_stringify scenario_start
                   :: [example_content; example_unknown] ++ [example_done]) in
  awaiting (caller (startRewrite (rt := example_runtime) events)) = [Int 42]
  /\ promise (caller (startRewrite (rt := example_runtime)
                        (events ++ [Responds 0 (Failed (Error "not found"))])))
     = Rejected (Error "not found").
Proof.
  cbv zeta.
  destruct (proj1 (wrapper_completes_with_last_start_id (rt := example_runtime))
              [Source (Message (frame [("type", JsString "start");
                                       ("task_id", JsNumber (Int 7))]))]
              (JSON_stringify scenario_start) example_done
              [example_content; example_unknown] (Int 42)
              (Failed (Error "not found")))
    as [(_ & Hawait & _) [Hpromise _]]; try reflexivity.
  - repeat constructor.
  - split; [exact Hawait|exact Hpromise].
Defined.

(** X7. [startCover] on an open connection takes the id from the [done]
    frame: when [Number(data.id || 0)] is a number [n] that is not zero
    (and not [NaN]), the connection is closed and exactly the cover [n] is
    requested; the promise is pending until the response arrives, then
    fulfilled with the record, or rejected with the error of the
    request. *)
Theorem startCover_completes_with_done_id {rt : JsRuntime}
    (before : list (Event CoverRecord)) (done : string) (n : JsNum)
    (response : Response CoverRecord) :
  closed (startCover before) = false ->
  is_frame "done" done = true ->
  ToNumber (js_or (get (parseSseJson done) "id") (JsNumber (Int 0))) = n ->
  num_truthy n = true ->
  let events := before ++ [Source (Message done)] in
  (closed (startCover events) = true
   /\ awaiting (caller (startCover events)) = [n]
   /\ promise (caller (startCover events)) = Pending)
  /\ promise (caller (startCover (events ++ [Responds 0 response])))
     = settle_with response.
Proof. apply cover_completes. Qed.

(** X7 at a frame of unknown type and a [done] frame with id 7, with a
    request that fails. *)
Lemma startCover_completes_with_done_id_witness :
  let events := [Source (Message example_unknown)]
                ++ [Source (Message example_done)] in
  awaiting (caller (startCover (rt := example_runtime) events)) = [Int 7]
  /\ promise (caller (startCover (rt := example_runtime)
                        (events ++ [Responds 0 (Failed (Error "not found"))])))
     = Rejected (Error "not found").
Proof.
  cbv zeta.
  destruct (startCover_completes_with_done_id (rt := example_runtime)
              [Source (Message example_unknown)] example_done (Int 7)
              (Failed (Error "not found")))
    as [(_ & Hawait & _) Hpromise]; try reflexivity.
  split; [exact Hawait|exact Hpromise].
Defined.

(** ** [extractStyleWithStream] as a whole *)

Section ExtractFurther.
Context {rt : JsRuntime}.

Lemma extract_outcome {St} (request : ExtractStyleStreamRequest)
    (callbacks : ExtractStyleStreamCallbacks St) (now : string)
    (reads : list string) (failure : option JsError) (st : St) :
  snd (extractStyleWithStream request callbacks now (response_of reads failure) st)
  = match snd (extract_blocks request callbacks now
                 (fst (take_blocks (concat_text reads))) None st) with
    | inl e => Rejected e
    | inr createdStyle =>
        match failure with
        | Some e => Rejected e
        | None =>
            match createdStyle with
            | None => Rejected (Error "风格提取未返回完成结果")
            | Some style => Fulfilled style
            end
        end
    end.
Proof.
  unfold extractStyleWithStream, response_of. cbn [ok body chunks read_failure].
  rewrite extract_read_blocks by reflexivity. rewrite append_nil_l.
  destruct (extract_blocks _ _ _ _ _ _) as [st' [e|createdStyle]];
    [reflexivity|].
  destruct failure; [reflexivity|]. destruct createdStyle; reflexivity.
Qed.

(** A block that is no [error] frame lets the loop go on. *)
Lemma extract_blocks_not_error {St} (request : ExtractStyleStreamRequest)
    (callbacks : ExtractStyleStreamCallbacks St) (now : string)
    (block : string) (createdStyle : option WritingStyle) (st : St) :
  not_error block ->
  exists st1 created1, forall rest,
      extract_blocks request callbacks now (block :: rest) createdStyle st
      = extract_blocks request callbacks now rest created1 st1.
Proof.
  unfold not_error, block_type. intros Hne.
  destruct (block_frame block) as [parsed|] eqn:Hf.
  2:{ exists st, createdStyle. intros rest.
      rewrite extract_blocks_eq, Hf. reflexivity. }
  cbn [option_map] in Hne.
  destruct (String.eqb (eventType parsed) "start") eqn:H1;
    [eexists _, _; intros rest; rewrite extract_blocks_eq, Hf, H1; reflexivity|].
  destruct (String.eqb (eventType parsed) "progress") eqn:H2;
    [eexists _, _; intros rest; rewrite extract_blocks_eq, Hf, H1, H2;
     reflexivity|].
  destruct (String.eqb (eventType parsed) "content") eqn:H3;
    [eexists _, _; intros rest; rewrite extract_blocks_eq, Hf, H1, H2, H3;
     reflexivity|].
  destruct (String.eqb (eventType parsed) "error") eqn:H4.
  { apply String.eqb_eq in H4. congruence. }
  destruct (String.eqb (eventType parsed) "done") eqn:H5;
    eexists _, _; intros rest;
    rewrite extract_blocks_eq, Hf, H1, H2, H3, H4, H5; reflexivity.
Qed.

(** A block that is neither an [error] nor a [done] frame leaves
    [createdStyle] as it is. *)
Lemma extract_blocks_not_final {St} (request : ExtractStyleStreamRequest)
    (callbacks : ExtractStyleStreamCallbacks St) (now : string)
    (block : string) (createdStyle : option WritingStyle) (st : St) :
  not_final block ->
  exists st1, forall rest,
      extract_blocks request callbacks now (block :: rest) createdStyle st
      = extract_blocks request callbacks now rest createdStyle st1.
Proof.
  unfold not_final, block_type. intros [Hne Hnd].
  destruct (block_frame block) as [parsed|] eqn:Hf.
  2:{ exists st. intros rest. rewrite extract_blocks_eq, Hf. reflexivity. }
  cbn [option_map] in Hne, Hnd.
  destruct (String.eqb (eventType parsed) "start") eqn:H1;
    [eexists; intros rest; rewrite extract_blocks_eq, Hf, H1; reflexivity|].
  destruct (String.eqb (eventType parsed) "progress") eqn:H2;
    [eexists; intros rest; rewrite extract_blocks_eq, Hf, H1, H2;
     reflexivity|].
  destruct (String.eqb (eventType parsed) "content") eqn:H3;
    [eexists; intros rest; rewrite extract_blocks_eq, Hf, H1, H2, H3;
     reflexivity|].
  destruct (String.eqb (eventType parsed) "error") eqn:H4.
  { apply String.eqb_eq in H4. congruence. }
  destruct (String.eqb (eventType parsed) "done") eqn:H5.
  { apply String.eqb_eq in H5. congruence. }
  exists st. intros rest.
  rewrite extract_blocks_eq, Hf, H1, H2, H3, H4, H5. reflexivity.
Qed.

Lemma extract_blocks_no_error {St} (request : ExtractStyleStreamRequest)
    (callbacks : ExtractStyleStreamCallbacks St) (now : string)
    (blocks : list string) (createdStyle : option WritingStyle) (st : St) :
  Forall not_error blocks ->
  exists st1 created1, forall rest,
      extract_blocks request callbacks now (blocks ++ rest) createdStyle st
      = extract_blocks request callbacks now rest created1 st1.
Proof.
  intros Hall. revert createdStyle st.
  induction Hall as [|block blocks Hb _ IH]; intros createdStyle st.
  - exists st, createdStyle. reflexivity.
  - destruct (extract_blocks_not_error request callbacks now block
                createdStyle st Hb) as (st1 & created1 & H1).
    destruct (IH created1 st1) as (st2 & created2 & H2).
    exists st2, created2. intros rest. rewrite <- app_comm_cons, H1. apply H2.
Qed.

Lemma extract_blocks_no_final {St} (request : ExtractStyleStreamRequest)
    (callbacks : ExtractStyleStreamCallbacks St) (now : string)
    (blocks : list string) (createdStyle : option WritingStyle) (st : St) :
  Forall not_final blocks ->
  exists st1, forall rest,
      extract_blocks request callbacks now (blocks ++ rest) createdStyle st
      = extract_blocks request callbacks now rest createdStyle st1.
Proof.
  intros Hall. revert st.
  induction Hall as [|block blocks Hb _ IH]; intros st.
  - exists st. reflexivity.
  - destruct (extract_blocks_not_final request callbacks now block
                createdStyle st Hb) as (st1 & H1).
    destruct (IH st1) as (st2 & H2).
    exists st2. intros rest. rewrite <- app_comm_cons, H1. apply H2.
Qed.
End ExtractFurther.

(** X9. [extractStyleWithStream] rejects with the message of the first
    [error] frame among the complete blocks of the body (with
    [风格提取失败] when the frame has none), whatever precedes it, a [done]
    frame included, and whatever follows. *)
Theorem extract_rejects_at_first_error {rt : JsRuntime} {St : Type}
    (request : ExtractStyleStreamRequest)
    (callbacks : ExtractStyleStreamCallbacks St) (now : string)
    (reads before after : list string) (block : string) (parsed : JsValue)
    (failure : option JsError) (st : St) :
  fst (take_blocks (concat_text reads)) = before ++ block :: after ->
  Forall not_error before ->
  block_frame block = Some parsed ->
  eventType parsed = "error"%string ->
  snd (extractStyleWithStream request callbacks now (response_of reads failure) st)
  = Rejected (Error (ToString
      (js_or (get parsed "message") (JsString "风格提取失败")))).
Proof.
  intros Hblocks Hbefore Hframe Htype.
  rewrite extract_outcome, Hblocks.
  destruct (extract_blocks_no_error request callbacks now before None st
              Hbefore) as (st1 & created1 & ->).
  rewrite extract_blocks_eq, Hframe, Htype. reflexivity.
Qed.

(** X9 at a [done] frame followed by an [error] frame and a second [done]
    frame. *)
Lemma extract_rejects_at_first_error_witness :
  snd (extractStyleWithStream (rt := example_runtime) example_request
         extract_recorder example_now
         (response_of [sse_block example_done;
                    sse_block example_error +:+ sse_block example_done] None)
         [])
  = Rejected (Error "model overloaded").
Proof.
  apply (extract_rejects_at_first_error (rt := example_runtime) _ _ _ _
           ["data: " +:+ example_done] ["data: " +:+ example_done]
           ("data: " +:+ example_error)
           (JsObject [("type", JsString "error");
                      ("message", JsString "model overloaded")]));
    try reflexivity.
  repeat constructor. discriminate.
Defined.

(** X10. When the body of the response ends without a read failure and
    holds no [error] frame, [extractStyleWithStream] resolves with the
    style built from the last [done] frame among its complete blocks:
    earlier [done] frames are overwritten, and the frames after the last
    one do not change the result. *)
Theorem extract_resolves_with_last_done {rt : JsRuntime} {St : Type}
    (request : ExtractStyleStreamRequest)
    (callbacks : ExtractStyleStreamCallbacks St) (now : string)
    (reads before after : list string) (block : string) (parsed : JsValue)
    (st : St) :
  fst (take_blocks (concat_text reads)) = before ++ block :: after ->
  Forall not_error before ->
  block_frame block = Some parsed ->
  eventType parsed = "done"%string ->
  Forall not_final after ->
  snd (extractStyleWithStream request callbacks now (response_of reads None) st)
  = Fulfilled (created_style request now parsed).
Proof.
  intros Hblocks Hbefore Hframe Htype Hafter.
  rewrite extract_outcome, Hblocks.
  destruct (extract_blocks_no_error request callbacks now before None st
              Hbefore) as (st1 & created1 & ->).
  rewrite extract_blocks_eq, Hframe, Htype.
  destruct (extract_blocks_no_final request callbacks now after
              (Some (created_style request now parsed)) st1 Hafter)
    as (st2 & Hrest).
  specialize (Hrest []). rewrite app_nil_r in Hrest. rewrite Hrest.
  reflexivity.
Qed.

(** X10 at a [done] frame without id, a [done] frame with id 7 and a
    [content] frame. *)
Lemma extract_resolves_with_last_done_witness :
  snd (extractStyleWithStream (rt := example_runtime) example_request
         extract_recorder example_now
         (response_of [sse_block example_done_no_id; sse_block example_done;
                    sse_block example_content] None) [])
  = Fulfilled {| style_id_ := Int 7; style_name_ := "plain";
                 style_description := Some EmptyString; style_tags := None;
                 style_created_at := example_now |}.
Proof.
  assert (Hbefore : Forall (not_error (rt := example_runtime))
                      ["data: " +:+ example_done_no_id])
    by (repeat constructor; discriminate).
  assert (Hafter : Forall (not_final (rt := example_runtime))
                     ["data: " +:+ example_content])
    by (repeat constructor; discriminate).
  exact (extract_resolves_with_last_done (rt := example_runtime)
           example_request extract_recorder example_now
           [sse_block example_done_no_id; sse_block example_done;
            sse_block example_content]
           ["data: " +:+ example_done_no_id] ["data: " +:+ example_content]
           ("data: " +:+ example_done)
           (JsObject [("type", JsString "done"); ("id", JsNumber (Int 7))])
           [] eq_refl Hbefore eq_refl eq_refl Hafter).
Defined.

(** X11. When the body of the response ends without a read failure and
    holds neither an [error] nor a [done] frame among its complete blocks
    (an empty body included), [extractStyleWithStream] rejects with
    [风格提取未返回完成结果]. *)
Theorem extract_rejects_without_done {rt : JsRuntime} {St : Type}
    (request : ExtractStyleStreamRequest)
    (callbacks : ExtractStyleStreamCallbacks St) (now : string)
    (reads : list string) (st : St) :
  Forall not_final (fst (take_blocks (concat_text reads))) ->
  snd (extractStyleWithStream request callbacks now (response_of reads None) st)
  = Rejected (Error "风格提取未返回完成结果").
Proof.
  intros Hall. rewrite extract_outcome.
  destruct (extract_blocks_no_final request callbacks now _ None st Hall)
    as (st1 & Hrest).
  specialize (Hrest []). rewrite app_nil_r in Hrest. rewrite Hrest.
  reflexivity.
Qed.

(** X11 at a [start] frame and a [content] frame. *)
Lemma extract_rejects_without_done_witness :
  snd (extractStyleWithStream (rt := example_runtime) example_request
         extract_recorder example_now
         (response_of [sse_block example_start_no_id; sse_block example_content]
            None) [])
  = Rejected (Error "风格提取未返回完成结果").
Proof.
  apply (extract_rejects_without_done (rt := example_runtime)).
  repeat constructor; discriminate.
Defined.

(** ** Blocks and lines, further *)

Lemma take_blocks_no_blank_line (tail : string) :
  split_blank_line tail = [tail] -> take_blocks tail = ([], tail).
Proof.
  intros Hs. unfold take_blocks. rewrite Hs. cbn [pop]. rewrite or_empty.
  reflexivity.
Qed.

Lemma split_newline_app (line rest : string) :
  no_newline line = true ->
  split_newline (line +:+ String LF rest) = line :: split_newline rest.
Proof.
  induction line as [|c line IH]; intros Hl.
  - rewrite append_nil_l. cbn [split_newline].
    change (is_LF LF) with true. reflexivity.
  - apply no_newline_cons in Hl as [Hc Hl]. rewrite append_cons.
    cbn [split_newline]. rewrite Hc, (IH Hl). reflexivity.
Qed.

Lemma split_newline_join (lines : list string) :
  lines <> [] ->
  Forall (fun line => no_newline line = true) lines ->
  split_newline (join_newline lines) = lines.
Proof.
  intros Hne Hall. induction Hall as [|line lines Hl Hall IH]; [congruence|].
  destruct lines as [|next lines].
  - cbn [join_newline]. apply split_newline_line, Hl.
  - change (join_newline (line :: next :: lines))
      with (line +:+ String LF (join_newline (next :: lines))).
    rewrite split_newline_app by exact Hl. rewrite IH by discriminate.
    reflexivity.
Qed.

Lemma find_skips (lines rest : list string) :
  Forall (fun line => String.prefix "data: " line = false) lines ->
  List.find (String.prefix "data: ") (lines ++ rest)
  = List.find (String.prefix "data: ") rest.
Proof.
  induction 1 as [|line lines Hl _ IH]; [reflexivity|].
  rewrite <- app_comm_cons. cbn [List.find]. rewrite Hl. exact IH.
Qed.

(** X12. In a block of the chunked transport the frame is read from the
    first line that starts with [data: ]: the lines before it that do not
    start so (comments, [event: ] or [id: ] fields) and every line after
    it, further [data: ] lines included, are ignored. *)
Theorem block_frame_reads_first_data_line {rt : JsRuntime}
    (lines more : list string) (body : string) :
  Forall (fun line => no_newline line = true
                      /\ String.prefix "data: " line = false) lines ->
  no_newline body = true ->
  Forall (fun line => no_newline line = true) more ->
  find_data_line (join_newline (lines ++ ("data: " +:+ body) :: more))
    = Some ("data: " +:+ body)
  /\ block_frame (join_newline (lines ++ ("data: " +:+ body) :: more))
     = block_frame ("data: " +:+ body).
Proof.
  intros Hlines Hbody Hmore.
  assert (find_data_line (join_newline (lines ++ ("data: " +:+ body) :: more))
          = Some ("data: " +:+ body)) as Hfind.
  { unfold find_data_line. rewrite split_newline_join.
    - rewrite find_skips
        by (eapply Forall_impl; [exact Hlines|]; intros l [_ Hl]; exact Hl).
      cbn [List.find]. rewrite prefix_append. reflexivity.
    - destruct lines; discriminate.
    - apply Forall_app. split.
      + eapply Forall_impl; [exact Hlines|]. intros l [Hl _]. exact Hl.
      + constructor; [|exact Hmore].
        apply no_newline_app; [reflexivity|exact Hbody]. }
  split; [exact Hfind|].
  unfold block_frame. rewrite Hfind, (find_data_line_data body Hbody).
  reflexivity.
Qed.

(** X12 at a comment line and an [event: ] line before the [data: ] line,
    and a second [data: ] line after it. *)
Lemma block_frame_reads_first_data_line_witness :
  block_frame (rt := example_runtime)
    (join_newline ([": keep-alive"; "event: message"]
                   ++ ("data: " +:+ example_content)
                   :: ["data: " +:+ example_done]))
  = Some (JsObject [("type", JsString "content"); ("delta", JsString "x")]).
Proof.
  destruct (block_frame_reads_first_data_line (rt := example_runtime)
              [": keep-alive"; "event: message"] ["data: " +:+ example_done]
              example_content) as [_ Hframe].
  - repeat constructor.
  - reflexivity.
  - repeat constructor.
  - rewrite Hframe. reflexivity.
Defined.

(** X13. Text after the last blank line of the body is never decoded: a
    body that is well-formed blocks followed by text without a blank line
    (a last block whose blank line did not arrive, for one) gives, read in
    any chunks, what the blocks alone give, for [extractStyleWithStream]
    and for [runFullWorkflow]. *)
Theorem unterminated_block_is_dropped {rt : JsRuntime} {St : Type}
    (request : ExtractStyleStreamRequest)
    (callbacks : ExtractStyleStreamCallbacks St) (now : string)
    (backend : Backend) (styleId : option JsNum)
    (bodies reads : list string) (tail : string) (failure : option JsError)
    (st : St) :
  Forall well_formed bodies ->
  split_blank_line tail = [tail] ->
  concat_text reads = concat_text (map sse_block bodies) +:+ tail ->
  extractStyleWithStream request callbacks now (response_of reads failure) st
  = extractStyleWithStream request callbacks now
      (response_of [concat_text (map sse_block bodies)] failure) st
  /\ runFullWorkflow backend styleId (response_of reads failure)
     = runFullWorkflow backend styleId
         (response_of [concat_text (map sse_block bodies)] failure).
Proof.
  intros Hwf Htail Hreads.
  assert (Hleft : take_blocks (concat_text reads)
                  = (map (String.append "data: ") bodies, tail)).
  { rewrite Hreads, take_blocks_app, concat_text_blocks by exact Hwf.
    cbn [fst snd]. rewrite append_nil_l, (take_blocks_no_blank_line _ Htail).
    cbn [fst snd]. rewrite app_nil_r. reflexivity. }
  assert (Hright : take_blocks (concat_text [concat_text (map sse_block bodies)])
                   = (map (String.append "data: ") bodies, EmptyString)).
  { cbn [concat_text fold_right]. rewrite append_nil_r.
    apply concat_text_blocks, Hwf. }
  split.
  - unfold extractStyleWithStream, response_of. cbn [ok body chunks read_failure].
    rewrite !extract_read_blocks by reflexivity.
    rewrite !append_nil_l, Hleft, Hright. reflexivity.
  - unfold runFullWorkflow, response_of. cbn [ok body chunks read_failure].
    rewrite !runFullWorkflow_read_blocks by reflexivity.
    rewrite !append_nil_l, Hleft, Hright. reflexivity.
Qed.

(** X13 at a [content] block followed by a [done] block that lacks its
    second newline: the [done] frame is lost. *)
Lemma unterminated_block_is_dropped_witness :
  let reads :=
    [sse_block example_content;
     "data: " +:+ example_done +:+ String LF EmptyString] in
  snd (extractStyleWithStream (rt := example_runtime) example_request
         extract_recorder example_now (response_of reads None) [])
  = Rejected (Error "风格提取未返回完成结果").
Proof.
  cbv zeta.
  destruct (unterminated_block_is_dropped (rt := example_runtime)
              example_request extract_recorder example_now example_backend
              (Some (Int 1)) [example_content]
              [sse_block example_content;
               "data: " +:+ example_done +:+ String LF EmptyString]
              ("data: " +:+ example_done +:+ String LF EmptyString) None [])
    as [Hextract _].
  - repeat constructor.
  - reflexivity.
  - reflexivity.
  - rewrite Hextract. reflexivity.
Defined.

(** ** [runFullWorkflow] as a whole *)

Section WorkflowFurther.
Context {rt : JsRuntime}.

Lemma state_id_last (earlier : list JsValue) (event : JsValue) (key : string) :
  state_id (earlier ++ [event]) key = state_id [event] key.
Proof. unfold state_id, lastState. rewrite last_snoc. reflexivity. Qed.

(** With a style id and a body of well-formed blocks, read in any chunks,
    the function finishes on the decoded bodies. *)
Lemma runFullWorkflow_decoded (backend : Backend) (id : JsNum)
    (bodies reads : list string) :
  num_truthy id = true ->
  Forall well_formed bodies ->
  concat_text reads = concat_text (map sse_block bodies) ->
  runFullWorkflow backend (Some id) (response_of reads None)
  = workflow_finish backend (map parseSseJson bodies).
Proof.
  intros Hid Hwf Hreads. unfold runFullWorkflow, response_of. rewrite Hid.
  cbn [negb ok body chunks read_failure].
  rewrite runFullWorkflow_read_blocks by reflexivity.
  rewrite append_nil_l, Hreads, concat_text_blocks by exact Hwf.
  cbn [fst snd]. rewrite workflow_blocks_well_formed by exact Hwf.
  reflexivity.
Qed.

(** The events of any body: the frames of its complete blocks. *)
Lemma workflow_blocks_no_frame (blocks : list string) (events : list JsValue) :
  Forall no_frame blocks -> workflow_blocks blocks events = events.
Proof.
  intros Hall. induction Hall as [|block blocks Hb _ IH]; [reflexivity|].
  unfold no_frame in Hb. rewrite workflow_blocks_eq, Hb. exact IH.
Qed.

Lemma runFullWorkflow_blocks (backend : Backend) (id : JsNum)
    (reads : list string) :
  num_truthy id = true ->
  runFullWorkflow backend (Some id) (response_of reads None)
  = workflow_finish backend
      (workflow_blocks (fst (take_blocks (concat_text reads))) []).
Proof.
  intros Hid. unfold runFullWorkflow, response_of. rewrite Hid.
  cbn [negb ok body chunks read_failure].
  rewrite runFullWorkflow_read_blocks by reflexivity.
  rewrite append_nil_l. reflexivity.
Qed.
End WorkflowFurther.

(** X14. [runFullWorkflow] takes the ids from the state of the last event
    only.  When the body holds no event (it is empty, or none of its
    complete blocks holds a frame: comment blocks, malformed lines, a last
    block whose blank line never came), or when the state of the last
    event has no [rewrite_id] (or one for which [Number(rewrite_id || 0)]
    is zero or [NaN]), the promise is rejected with
    [Workflow completed but rewrite_id is missing] and no record is
    requested, whatever ids the earlier events carried and whatever
    blocks without a frame follow the last event. *)
Theorem workflow_needs_rewrite_id_in_last_event {rt : JsRuntime}
    (backend : Backend) (id : JsNum) :
  (forall reads : list string,
      num_truthy id = true ->
      Forall no_frame (fst (take_blocks (concat_text reads))) ->
      runFullWorkflow backend (Some id) (response_of reads None)
      = ([], Rejected (Error "Workflow completed but rewrite_id is missing")))
  /\ (forall (reads before after : list string) (block : string)
        (event : JsValue),
      num_truthy id = true ->
      fst (take_blocks (concat_text reads)) = before ++ block :: after ->
      block_frame block = Some event ->
      Forall no_frame after ->
      num_truthy (state_id [event] "rewrite_id") = false ->
      runFullWorkflow backend (Some id) (response_of reads None)
      = ([], Rejected (Error "Workflow completed but rewrite_id is missing")))
  /\ (forall (earlier reads : list string) (final : string),
      num_truthy id = true ->
      Forall well_formed (earlier ++ [final]) ->
      concat_text reads = concat_text (map sse_block (earlier ++ [final])) ->
      num_truthy (state_id [parseSseJson final] "rewrite_id") = false ->
      runFullWorkflow backend (Some id) (response_of reads None)
      = ([], Rejected (Error "Workflow completed but rewrite_id is missing"))).
Proof.
  split; [|split].
  - intros reads Hid Hnone.
    rewrite runFullWorkflow_blocks by exact Hid.
    rewrite workflow_blocks_no_frame by exact Hnone. reflexivity.
  - intros reads before after block event Hid Hblocks Hevent Hafter Hmissing.
    rewrite runFullWorkflow_blocks by exact Hid.
    rewrite Hblocks, workflow_blocks_app, workflow_blocks_eq, Hevent.
    rewrite workflow_blocks_no_frame by exact Hafter.
    unfold workflow_finish. rewrite state_id_last, Hmissing. reflexivity.
  - intros earlier reads final Hid Hwf Hreads Hmissing.
    rewrite (runFullWorkflow_decoded backend id _ reads Hid Hwf Hreads).
    unfold workflow_finish. rewrite map_app. cbn [map].
    rewrite state_id_last, Hmissing. reflexivity.
Qed.

(** X14 at a body of a comment block, a malformed line and an event
    with [rewrite_id] 42 whose blank line never came; at an event without
    [rewrite_id] followed by a comment block; and at an event whose state
    carries [rewrite_id] 42 followed by a last event whose state carries
    none. *)
Lemma workflow_needs_rewrite_id_in_last_event_witness :
  let earlier :=
    [example_workflow_event [("rewrite_id", JsNumber (Int 42))]] in
  let final := example_workflow_event [("status", JsString "reviewing")] in
  let missing :=
    ([], Rejected (Error "Workflow completed but rewrite_id is missing")) in
  runFullWorkflow (rt := example_runtime) example_backend (Some (Int 1))
    (response_of
       [": keep-alive" +:+ blank_line; sse_block "{oops";
        "data: " +:+ example_workflow_event [("rewrite_id", JsNumber (Int 42))]]
       None)
  = missing
  /\ runFullWorkflow (rt := example_runtime) example_backend (Some (Int 1))
       (response_of
          [sse_block (example_workflow_event [("rewrite_id", JsNumber (Int 42))]);
           sse_block final; ": keep-alive" +:+ blank_line] None)
     = missing
  /\ runFullWorkflow (rt := example_runtime) example_backend (Some (Int 1))
       (response_of [concat_text (map sse_block (earlier ++ [final]))] None)
     = missing.
Proof.
  cbv zeta.
  destruct (workflow_needs_rewrite_id_in_last_event
              (rt := example_runtime) example_backend (Int 1))
    as (Hnone & Hlast & _).
  split; [|split].
  { apply Hnone; [reflexivity|].
    change (Forall (no_frame (rt := example_runtime))
              [": keep-alive"%string; "data: {oops"%string]).
    repeat constructor. }
  { apply (Hlast _
             ["data: " +:+ example_workflow_event
                             [("rewrite_id", JsNumber (Int 42))]]
             [": keep-alive"%string]
             ("data: " +:+ example_workflow_event
                             [("status", JsString "reviewing")])
             (JsObject [("node", JsString "rewrite");
                        ("state",
                         JsObject [("status", JsString "reviewing")])]));
      [reflexivity|reflexivity|reflexivity| |reflexivity].
    repeat constructor. }
  refine (proj2 (proj2 (workflow_needs_rewrite_id_in_last_event
                  (rt := example_runtime) example_backend (Int 1)))
           [example_workflow_event [("rewrite_id", JsNumber (Int 42))]]
           [concat_text
              (map sse_block
                 ([example_workflow_event [("rewrite_id", JsNumber (Int 42))]]
                  ++ [example_workflow_event
                        [("status", JsString "reviewing")]]))]
           (example_workflow_event [("status", JsString "reviewing")])
           eq_refl _ eq_refl eq_refl).
  repeat constructor.
Defined.

(** X15. When the state of the last event carries a [rewrite_id] [n] that
    is not zero and the rewrite request succeeds, [runFullWorkflow]
    requests the review only if that state carries a [review_id] that is
    not zero, and resolves with the rewrite, the review if it was
    requested, no cover, and all the decoded events in order; a failing
    review request rejects the promise. *)
Theorem workflow_resolves_from_last_event {rt : JsRuntime}
    (backend : Backend) (id : JsNum) (earlier reads : list string)
    (final : string) (rewrite : RewriteRecord) :
  num_truthy id = true ->
  Forall well_formed (earlier ++ [final]) ->
  concat_text reads = concat_text (map sse_block (earlier ++ [final])) ->
  let n := state_id [parseSseJson final] "rewrite_id" in
  let m := state_id [parseSseJson final] "review_id" in
  let events := map parseSseJson (earlier ++ [final]) in
  num_truthy n = true ->
  getRewrite backend n = Ok rewrite ->
  runFullWorkflow backend (Some id) (response_of reads None)
  = if num_truthy m then
      match getReview backend m with
      | Ok review =>
          ([GetRewrite n; GetReview m],
           Fulfilled {| workflow_rewrite := rewrite;
                        workflow_review := Some review;
                        workflow_cover := None;
                        workflow_events := events |})
      | Failed e => ([GetRewrite n; GetReview m], Rejected e)
      end
    else
      ([GetRewrite n],
       Fulfilled {| workflow_rewrite := rewrite; workflow_review := None;
                    workflow_cover := None; workflow_events := events |}).
Proof.
  intros Hid Hwf Hreads n m events Hn Hrewrite.
  rewrite (runFullWorkflow_decoded backend id _ reads Hid Hwf Hreads).
  assert (Hn' : state_id events "rewrite_id" = n)
    by (unfold events; rewrite map_app; apply state_id_last).
  assert (Hm' : state_id events "review_id" = m)
    by (unfold events; rewrite map_app; apply state_id_last).
  change (map parseSseJson (earlier ++ [final])) with events.
  unfold workflow_finish. rewrite Hn', Hm', Hn, Hrewrite. cbn [negb].
  destruct (num_truthy m); [|reflexivity].
  destruct (getReview backend m); reflexivity.
Qed.

(** X15 at one event whose state carries [rewrite_id] 42 and no
    [review_id], read in two chunks. *)
Lemma workflow_resolves_from_last_event_witness :
  let final := example_workflow_event [("rewrite_id", JsNumber (Int 42))] in
  runFullWorkflow (rt := example_runtime) example_backend (Some (Int 1))
    (response_of ["data: "; final +:+ blank_line] None)
  = ([GetRewrite (Int 42)],
     Fulfilled {| workflow_rewrite := example_record; workflow_review := None;
                  workflow_cover := None;
                  workflow_events :=
                    [JsObject [("node", JsString "rewrite");
                               ("state",
                                JsObject [("rewrite_id", JsNumber (Int 42))])]] |}).
Proof.
  cbv zeta.
  refine (workflow_resolves_from_last_event (rt := example_runtime)
           example_backend (Int 1) []
           ["data: "%string;
            example_workflow_event [("rewrite_id", JsNumber (Int 42))]
            +:+ blank_line]
           (example_workflow_event [("rewrite_id", JsNumber (Int 42))])
           example_record eq_refl
           _ eq_refl eq_refl eq_refl).
  repeat constructor.
Defined.

(** X16. When the rewrite request of [runFullWorkflow] fails, the promise
    is rejected with the error of that request and the review is not
    requested, whatever [review_id] the last event carries. *)
Theorem workflow_rejects_on_failed_rewrite_request {rt : JsRuntime}
    (backend : Backend) (id : JsNum) (earlier reads : list string)
    (final : string) (e : JsError) :
  num_truthy id = true ->
  Forall well_formed (earlier ++ [final]) ->
  concat_text reads = concat_text (map sse_block (earlier ++ [final])) ->
  let n := state_id [parseSseJson final] "rewrite_id" in
  num_truthy n = true ->
  getRewrite backend n = Failed e ->
  runFullWorkflow backend (Some id) (response_of reads None)
  = ([GetRewrite n], Rejected e).
Proof.
  intros Hid Hwf Hreads n Hn Hrewrite.
  rewrite (runFullWorkflow_decoded backend id _ reads Hid Hwf Hreads).
  unfold workflow_finish. rewrite map_app. cbn [map].
  rewrite !state_id_last. fold n. rewrite Hn, Hrewrite. reflexivity.
Qed.

(** X16 at an event whose state carries the ids 7 and 9, with a backend
    that has no rewrite 7. *)
Lemma workflow_rejects_on_failed_rewrite_request_witness :
  let final :=
    example_workflow_event [("rewrite_id", JsNumber (Int 7));
                            ("review_id", JsNumber (Int 9))] in
  runFullWorkflow (rt := example_runtime) example_backend (Some (Int 1))
    (response_of [sse_block final] None)
  = ([GetRewrite (Int 7)],
     Rejected (Error "Request failed with status code 404")).
Proof.
  cbv zeta.
  refine (workflow_rejects_on_failed_rewrite_request (rt := example_runtime)
           example_backend (Int 1) []
           [sse_block (example_workflow_event
                         [("rewrite_id", JsNumber (Int 7));
                          ("review_id", JsNumber (Int 9))])]
           (example_workflow_event [("rewrite_id", JsNumber (Int 7));
                                    ("review_id", JsNumber (Int 9))])
           (Error "Request failed with status code 404") eq_refl
           _ eq_refl eq_refl eq_refl).
  repeat constructor.
Defined.

(** ** The page while a stream runs *)

Section PageFurther.
Context {rt : JsRuntime} {env : PageEnv}.

Local Abbreviation page_handlers := (rewriteWithStream handleRewrite_callbacks).

Lemma deliver_open (i : nat) (ev : SourceEvent) (p : HomePage) :
  sources p !! i = Some false ->
  deliver i ev p
  = {| view := caller (dispatch page_handlers ev (open_conn (view p)));
       sources :=
         <[i := closed (dispatch page_handlers ev (open_conn (view p)))]>
           (sources p);
       eventSourceRef := eventSourceRef p |}.
Proof. intros Hi. unfold deliver. rewrite Hi. reflexivity. Qed.

Lemma deliver_closed (i : nat) (ev : SourceEvent) (p : HomePage) :
  sources p !! i <> Some false -> deliver i ev p = p.
Proof.
  intros Hi. unfold deliver.
  destruct (sources p !! i) as [[|]|] eqn:Hl; [|congruence|reflexivity].
  rewrite dispatch_closed by reflexivity. cbn [closed caller].
  rewrite list_insert_id by exact Hl. destruct p. reflexivity.
Qed.

(** An event leaves the stream open and the loading flag as it is, or
    closes the stream and clears the flag. *)
Lemma page_event_cases (ev : SourceEvent) (v : View) :
  let c := dispatch page_handlers ev (open_conn v) in
  (closed c = false /\ isLoading (caller c) = isLoading v)
  \/ (closed c = true /\ isLoading (caller c) = false).
Proof.
  cbv zeta. destruct ev as [event_data|]; [|right; split; reflexivity].
  unfold dispatch, open_conn. cbn [closed rewriteWithStream onmessage].
  unfold stream_onmessage.
  destruct (negb (ToBoolean (parseSseJson event_data)));
    [left; split; reflexivity|].
  destruct (is_string _ "content"); [left; split; reflexivity|].
  destruct (is_string _ "start").
  { destruct (gt_zero _); left; split; reflexivity. }
  destruct (is_string _ "done"); [right; split; reflexivity|].
  destruct (is_string _ "error"); [right; split; reflexivity|].
  left; split; reflexivity.
Qed.

Lemma page_step_loading (p : HomePage) (e : PageEvent) :
  page_inv p ->
  is_unmount e = false ->
  (isLoading (view p) = true <-> some_open p) ->
  (isLoading (view (page_step p e)) = true <-> some_open (page_step p e)).
Proof.
  intros Hinv He Hp.
  destruct e as [| | |source styleId target|i ev]; cbn [page_step];
    [| | discriminate | exact Hp |].
  - destruct (handleRewrite_guard (view p)) eqn:Hg.
    { unfold handleRewrite. rewrite Hg. exact Hp. }
    rewrite handleRewrite_unfold by exact Hg. unfold open_stream.
    cbn [view sources isLoading setResultWordCount setRewrittenContent
         setIsLoading].
    split; [|reflexivity]. intros _.
    exists (length (sources (close_current p))).
    cbn [sources]. apply list_lookup_middle. reflexivity.
  - split; [discriminate|].
    intros [i Hi]. destruct (handleCancel_none_open p Hinv i Hi).
  - destruct (sources p !! i) as [[|]|] eqn:Hi;
      [rewrite deliver_closed by congruence; exact Hp| |
       rewrite deliver_closed by congruence; exact Hp].
    rewrite deliver_open by exact Hi. cbn [view sources].
    destruct (page_event_cases ev (view p)) as [[Hc Hl]|[Hc Hl]];
      rewrite Hc, Hl.
    + rewrite list_insert_id by exact Hi. exact Hp.
    + split; [discriminate|]. intros [j Hj].
      apply list_lookup_insert_Some in Hj as [(_ & Hx & _)|[Hne Hj]];
        [discriminate|].
      apply Hinv in Hj. apply Hinv in Hi. congruence.
Qed.

Lemma page_run_snoc (events : list PageEvent) (e : PageEvent) :
  page_run (events ++ [e]) = page_step (page_run events) e.
Proof. unfold page_run. rewrite fold_left_app. reflexivity. Qed.

Lemma page_run_loading (events : list PageEvent) :
  Forall (fun e => is_unmount e = false) events ->
  (isLoading (view (page_run events)) = true <-> some_open (page_run events)).
Proof.
  induction events as [|e events IH] using rev_ind; intros Hall.
  - split; [discriminate|]. intros [i Hi]. discriminate.
  - apply Forall_app in Hall as [Hevents He]. apply Forall_cons_1 in He as [He _].
    rewrite page_run_snoc.
    apply page_step_loading; [apply page_run_inv|exact He|apply IH, Hevents].
Qed.

(** Content frames delivered to an open stream of the page. *)
Lemma deliver_content (i : nat) (event_data : string) (p : HomePage) :
  sources p !! i = Some false ->
  is_frame "content" event_data = true ->
  deliver i (Message event_data) p
  = {| view := handleRewrite_onChunk (delta_of event_data) (view p);
       sources := sources p; eventSourceRef := eventSourceRef p |}.
Proof.
  intros Hi Hf. rewrite deliver_open by exact Hi.
  unfold dispatch, open_conn. cbn [closed rewriteWithStream onmessage].
  rewrite stream_onmessage_content by exact Hf.
  cbn [call caller closed handleRewrite_callbacks onChunk].
  rewrite list_insert_id by exact Hi. reflexivity.
Qed.

Lemma deliver_content_frames (i : nat) (frames : list string) (p : HomePage) :
  sources p !! i = Some false ->
  Forall (fun d => is_frame "content" d = true) frames ->
  let p' := fold_left page_step (deliver_frames i frames) p in
  sources p' = sources p
  /\ eventSourceRef p' = eventSourceRef p
  /\ isLoading (view p') = isLoading (view p)
  /\ rewrittenContent (view p')
     = rewrittenContent (view p) +:+ concat_text (map delta_of frames)
  /\ (frames <> [] ->
      resultWordCount (view p') = countWords (rewrittenContent (view p'))).
Proof.
  cbv zeta. revert p.
  induction frames as [|d frames IH] using rev_ind; intros p Hi Hall.
  - cbn [deliver_frames map fold_left concat_text fold_right].
    rewrite append_nil_r. repeat split; congruence.
  - apply Forall_app in Hall as [Hframes Hd].
    apply Forall_cons_1 in Hd as [Hd _].
    destruct (IH p Hi Hframes) as (Hs & Hr & Hl & Hc & _).
    assert (Hstep : fold_left page_step (deliver_frames i (frames ++ [d])) p
                    = deliver i (Message d)
                        (fold_left page_step (deliver_frames i frames) p)).
    { unfold deliver_frames. rewrite map_app, fold_left_app. reflexivity. }
    rewrite Hstep. clear Hstep.
    set (q := fold_left page_step (deliver_frames i frames) p) in *.
    rewrite deliver_content by (try rewrite Hs; assumption).
    cbn [view sources eventSourceRef].
    unfold handleRewrite_onChunk.
    cbn [isLoading rewrittenContent resultWordCount setRewrittenContent
         setResultWordCount].
    rewrite Hc, map_app. cbn [map]. unfold concat_text at 2 4.
    rewrite fold_right_app. cbn [fold_right].
    fold (concat_text (map delta_of frames)).
    rewrite append_nil_r.
    assert (Hcat : forall (l : list string) (s : string),
               fold_right String.append s l = concat_text l +:+ s).
    { induction l as [|x l IHl]; intros s; [reflexivity|].
      cbn [fold_right concat_text]. fold (concat_text l).
      rewrite IHl, append_assoc. reflexivity. }
    rewrite Hcat, append_assoc.
    repeat split; try assumption; reflexivity.
Qed.
End PageFurther.

(** X17. The loading flag of the page follows its streams.  In every
    state the page reaches before it is unmounted, [isLoading] is true if
    and only if one of the [EventSource]s the page has created is open:
    starting a rewrite sets it, and the cancel button, a [done] frame, an
    [error] frame and a connection error clear it as they close the
    stream. *)
Theorem loading_tracks_open_stream {rt : JsRuntime} {env : PageEnv}
    (events : list PageEvent) :
  Forall (fun e => is_unmount e = false) events ->
  (isLoading (view (page_run events)) = true <-> some_open (page_run events)).
Proof. apply page_run_loading. Qed.

(** X17 at a rewrite that has received one [content] frame. *)
Lemma loading_tracks_open_stream_witness :
  let p := page_run (rt := example_runtime) (env := example_page_env)
             [EditForm "hello world" (Some 1%Z) 500%Z; ClickRewrite;
              Deliver 0 (Message example_content)] in
  isLoading (view p) = true /\ some_open p.
Proof.
  cbv zeta. split; [reflexivity|].
  apply (loading_tracks_open_stream (rt := example_runtime)
           (env := example_page_env)
           [EditForm "hello world" (Some 1%Z) 500%Z; ClickRewrite;
            Deliver 0 (Message example_content)]);
    [repeat constructor|reflexivity].
Defined.

(** X18. Only the stream in [eventSourceRef] updates the page.  In every
    state the page can reach, an event delivered to any other
    [EventSource] the page has created (a stream replaced by a later
    rewrite or cancelled) leaves the page as it is. *)
Theorem only_current_stream_updates_page {rt : JsRuntime} {env : PageEnv}
    (events : list PageEvent) (i : nat) (ev : SourceEvent) :
  eventSourceRef (page_run events) <> Some i ->
  deliver i ev (page_run events) = page_run events.
Proof.
  intros Hi. apply deliver_closed. intros Hopen.
  apply (page_run_inv events) in Hopen. congruence.
Qed.

(** X18 at a [done] frame that reaches the first stream after a second
    rewrite has replaced it. *)
Lemma only_current_stream_updates_page_witness :
  let p := page_run (rt := example_runtime) (env := example_page_env)
             [EditForm "hello world" (Some 1%Z) 500%Z; ClickRewrite;
              ClickRewrite] in
  eventSourceRef p = Some 1
  /\ deliver (rt := example_runtime) (env := example_page_env) 0
       (Message example_done) p = p.
Proof.
  cbv zeta. split; [reflexivity|].
  apply (only_current_stream_updates_page (rt := example_runtime)
           (env := example_page_env)
           [EditForm "hello world" (Some 1%Z) 500%Z; ClickRewrite;
            ClickRewrite] 0 (Message example_done)).
  discriminate.
Defined.

(** X19. The page accumulates the deltas.  [content] frames delivered to
    an open stream of the page append their deltas, in order, to
    [rewrittenContent]; the stream stays open, the loading flag stays as
    it is, and after the first of them [resultWordCount] is [countWords]
    of the accumulated text.  A [done] frame that follows and carries no
    [final_content] (or an empty one) keeps the text and the count, closes
    the stream and clears the loading flag. *)
Theorem page_accumulates_deltas {rt : JsRuntime} {env : PageEnv}
    (p : HomePage) (i : nat) (frames : list string) (done : string) :
  sources p !! i = Some false ->
  Forall (fun d => is_frame "content" d = true) frames ->
  is_frame "done" done = true ->
  final_content_of done = EmptyString ->
  let streaming := fold_left page_step (deliver_frames i frames) p in
  let finished := deliver i (Message done) streaming in
  let content :=
    (rewrittenContent (view p) +:+ concat_text (map delta_of frames))%string in
  (sources streaming = sources p
   /\ isLoading (view streaming) = isLoading (view p)
   /\ rewrittenContent (view streaming) = content
   /\ (frames <> [] -> resultWordCount (view streaming) = countWords content))
  /\ (sources finished = <[i := true]> (sources p)
      /\ isLoading (view finished) = false
      /\ rewrittenContent (view finished) = content
      /\ resultWordCount (view finished) = resultWordCount (view streaming)).
Proof.
  intros Hi Hframes Hdone Hfinal. cbv zeta.
  destruct (deliver_content_frames i frames p Hi Hframes)
    as (Hs & Hr & Hl & Hc & Hw).
  split.
  { repeat split; try assumption. intros Hne. rewrite <- Hc. apply Hw, Hne. }
  rewrite deliver_open by (rewrite Hs; exact Hi).
  unfold dispatch, open_conn. cbn [closed rewriteWithStream onmessage].
  rewrite stream_onmessage_done by exact Hdone.
  cbn [close call caller closed handleRewrite_callbacks onDone view sources].
  unfold handleRewrite_onDone. fold (final_content_of done).
  rewrite Hfinal. cbn [ToBoolean]. rewrite Hs.
  repeat split; try assumption; reflexivity.
Qed.

(** X19 at two [content] frames and a [done] frame without
    [final_content], on the first stream of the page. *)
Lemma page_accumulates_deltas_witness :
  let p := page_run (rt := example_runtime) (env := example_page_env)
             [EditForm "hello world" (Some 1%Z) 500%Z; ClickRewrite] in
  let finished :=
    deliver (rt := example_runtime) (env := example_page_env) 0
      (Message example_done_no_id)
      (fold_left (page_step (rt := example_runtime) (env := example_page_env))
         (deliver_frames 0 [example_content; example_content]) p) in
  rewrittenContent (view finished) = "xx"%string
  /\ isLoading (view finished) = false
  /\ sources finished = [true].
Proof.
  cbv zeta.
  assert (Hframes : Forall (fun d => is_frame (rt := example_runtime)
                                       "content" d = true)
                      [example_content; example_content])
    by (repeat constructor).
  destruct (page_accumulates_deltas (rt := example_runtime)
              (env := example_page_env)
              (page_run (rt := example_runtime) (env := example_page_env)
                 [EditForm "hello world" (Some 1%Z) 500%Z; ClickRewrite])
              0 [example_content; example_content] example_done_no_id
              eq_refl Hframes eq_refl eq_refl) as [_ (Hs & Hl & Hc & _)].
  split; [exact Hc|]. split; [exact Hl|exact Hs].
Defined.

(** ** The article inputs of the style dialog *)

Lemma filter_index_ext {A} (keep keep' : nat -> bool) (k : nat) (l : list A) :
  (forall i, k <= i -> keep i = keep' i) ->
  filter_index keep k l = filter_index keep' k l.
Proof.
  revert k. induction l as [|x l IH]; intros k Hk; [reflexivity|].
  cbn [filter_index]. rewrite (Hk k) by lia.
  rewrite (IH (S k)) by (intros i Hi; apply Hk; lia). reflexivity.
Qed.

Lemma filter_index_all {A} (keep : nat -> bool) (k : nat) (l : list A) :
  (forall i, k <= i -> keep i = true) -> filter_index keep k l = l.
Proof.
  revert k. induction l as [|x l IH]; intros k Hk; [reflexivity|].
  cbn [filter_index]. rewrite (Hk k) by lia.
  rewrite (IH (S k)) by (intros i Hi; apply Hk; lia). reflexivity.
Qed.

(** [filter((_, i) => i !== index)] deletes the element at [index]. *)
Lemma filter_index_delete {A} (index k : nat) (l : list A) :
  filter_index (fun i => negb (i =? k + index)) k l = delete index l.
Proof.
  revert index k. induction l as [|x l IH]; intros index k; [reflexivity|].
  cbn [filter_index]. destruct index as [|j].
  - replace (k =? k + 0) with true by (symmetry; apply Nat.eqb_eq; lia).
    cbn [negb]. change (delete 0 (x :: l)) with l. apply filter_index_all.
    intros i Hi. apply negb_true_iff, Nat.eqb_neq. lia.
  - replace (k =? k + S j) with false by (symmetry; apply Nat.eqb_neq; lia).
    cbn [negb]. change (delete (S j) (x :: l)) with (x :: delete j l).
    f_equal. rewrite <- (IH j (S k)). apply filter_index_ext.
    intros i _. f_equal. f_equal. lia.
Qed.

Lemma removeArticleInput_delete (index : nat) (prev : list string) :
  2 <= length prev -> removeArticleInput index prev = delete index prev.
Proof.
  intros Hlen. unfold removeArticleInput.
  destruct (Nat.leb_spec (length prev) 1) as [Hle|_]; [lia|].
  apply (filter_index_delete index 0).
Qed.

Lemma addArticleInput_length (afterIndex : nat) (prev : list string) :
  length (addArticleInput afterIndex prev) = S (length prev).
Proof.
  unfold addArticleInput. rewrite !length_app, length_take, length_drop.
  cbn [length]. lia.
Qed.

(** X20. The style dialog always has an article input.
    [addArticleInput] makes the list one longer; [removeArticleInput]
    leaves a list that is not empty: it removes exactly the input at the
    index from a list of two or more (nothing, if there is no such
    input), and answers with one empty input otherwise. *)
Theorem article_inputs_never_empty (index : nat) (prev : list string) :
  length (addArticleInput index prev) = S (length prev)
  /\ 1 <= length (removeArticleInput index prev)
  /\ removeArticleInput index prev
     = (if length prev <=? 1 then [EmptyString] else delete index prev).
Proof.
  split; [apply addArticleInput_length|].
  assert (Heq : removeArticleInput index prev
                = (if length prev <=? 1 then [EmptyString]
                   else delete index prev)).
  { destruct (Nat.leb_spec (length prev) 1) as [Hle|Hgt].
    - unfold removeArticleInput.
      destruct (Nat.leb_spec (length prev) 1); [reflexivity|lia].
    - apply removeArticleInput_delete. lia. }
  split; [|exact Heq]. rewrite Heq.
  destruct (Nat.leb_spec (length prev) 1) as [Hle|Hgt]; [cbn; lia|].
  rewrite delete_take_drop, length_app, length_take, length_drop. lia.
Qed.

(** X21. Removing the input that [addArticleInput] has just added gives
    the list back.  For an input [afterIndex] of the list, the new input
    is the empty one at [afterIndex + 1], the inputs before and after it
    are those of the list, and [removeArticleInput (afterIndex + 1)]
    yields the list as it was. *)
Theorem remove_undoes_add (afterIndex : nat) (prev : list string) :
  afterIndex < length prev ->
  addArticleInput afterIndex prev !! S afterIndex = Some EmptyString
  /\ removeArticleInput (S afterIndex) (addArticleInput afterIndex prev)
     = prev.
Proof.
  intros Hlt.
  assert (Htake : length (take (S afterIndex) prev) = S afterIndex)
    by (rewrite length_take; lia).
  split.
  - unfold addArticleInput. cbn [app].
    apply list_lookup_middle. symmetry. exact Htake.
  - rewrite removeArticleInput_delete
      by (rewrite addArticleInput_length; lia).
    unfold addArticleInput. cbn [app].
    rewrite <- Htake at 1. rewrite delete_middle. apply take_drop.
Qed.

(** X21 at the first of two inputs. *)
Lemma remove_undoes_add_witness :
  addArticleInput 0 ["first"; "second"] = ["first"; EmptyString; "second"]
  /\ removeArticleInput 1 (addArticleInput 0 ["first"; "second"])
     = ["first"; "second"].
Proof.
  split; [reflexivity|].
  apply (remove_undoes_add 0 ["first"; "second"]). cbn. lia.
Defined.

(** ** A read that fails *)

(** X22. A read of the body that fails rejects the promise with the error
    of the read.  [extractStyleWithStream] does so even when a [done]
    frame has been read, unless an [error] frame among the complete blocks
    has rejected it before; [runFullWorkflow] does so whatever it has
    read, and requests no record. *)
Theorem failed_read_rejects {rt : JsRuntime} {St : Type}
    (request : ExtractStyleStreamRequest)
    (callbacks : ExtractStyleStreamCallbacks St) (now : string)
    (backend : Backend) (id : JsNum) (reads : list string) (e : JsError)
    (st : St) :
  (Forall not_error (fst (take_blocks (concat_text reads))) ->
   snd (extractStyleWithStream request callbacks now
          (response_of reads (Some e)) st)
   = Rejected e)
  /\ (num_truthy id = true ->
      runFullWorkflow backend (Some id) (response_of reads (Some e))
      = ([], Rejected e)).
Proof.
  split.
  - intros Hall. rewrite extract_outcome.
    destruct (extract_blocks_no_error request callbacks now _ None st Hall)
      as (st1 & created1 & Hrun).
    specialize (Hrun []). rewrite app_nil_r in Hrun. rewrite Hrun.
    reflexivity.
  - intros Hid. unfold runFullWorkflow, response_of. rewrite Hid.
    cbn [negb ok body chunks read_failure].
    destruct (runFullWorkflow_read reads EmptyString []). reflexivity.
Qed.

(** X22 at a body that delivers a [done] frame before a read fails. *)
Lemma failed_read_rejects_witness :
  snd (extractStyleWithStream (rt := example_runtime) example_request
         extract_recorder example_now
         (response_of [sse_block example_done] (Some (Error "network error")))
         [])
  = Rejected (Error "network error")
  /\ runFullWorkflow (rt := example_runtime) example_backend (Some (Int 1))
       (response_of [sse_block example_done] (Some (Error "network error")))
     = ([], Rejected (Error "network error")).
Proof.
  destruct (failed_read_rejects (rt := example_runtime) example_request
              extract_recorder example_now example_backend (Int 1)
              [sse_block example_done] (Error "network error") [])
    as [Hextract Hworkflow].
  split; [apply Hextract; repeat constructor; discriminate
         |apply Hworkflow; reflexivity].
Defined.
